(** * FAST configurator ([fast/configure.py]): serializer, module-source
    rewriting, dialogs and the wizard driver.

    The Python code is embedded shallowly: Python values are an inductive
    type, [dict]s are association lists in insertion order, the file object
    written by the serializer is the text written so far, and the
    interactive part runs in a small monad over a world holding the process
    environment, the configuration of the instance, the operator's actions
    and the exit codes of the commands still to come, the files written
    and the log of the calls made on the collaborators.

    The first part holds the definitions: the code ([Py], [Hcl], [Dict],
    [Rewrite], [Sys], [Dialogs], [Terraform], [Wizard], [Fast], [Writers],
    [Iam], [Staging]), the words of the specification ([Spec]), the
    fragment of the target format that holds literal values ([Reader])
    and the shapes the statements speak of ([Layout]).  The second part
    holds the properties. *)

From Stdlib Require Import List String Ascii Bool ZArith Lia Arith.
From Stdlib Require Import DecimalString DecimalZ Decimal.
Import ListNotations.

Set Warnings "-register-all".
Set Implicit Arguments.

Open Scope string_scope.
Open Scope Z_scope.

(** ** Python values *)

Module Py.

(** The values a configuration can hold.  A [float] is carried by the text
    Python's [str()] gives for it; [PObject] stands for a value of any other
    type (tuple, set, bytes, an arbitrary object), named by its type. *)
Inductive pyval : Type :=
| PNone
| PBool (b : bool)
| PInt (z : Z)
| PFloat (repr : string)
| PStr (s : string)
| PList (l : list pyval)
| PDict (d : list (string * pyval))
| PObject (type_name : string).

Definition dict := list (string * pyval).

(** [str(z)] for an [int]. *)
Definition str_int (z : Z) : string := NilZero.string_of_int (Z.to_int z).

(** A [float], as [repr] sees it: not a number, an infinity, or a finite
    value given by its sign, its shortest digits (those that read back as
    the float) and the position of the decimal point relative to them;
    zero has the digit 0 with the point after it. *)
Inductive pyfloat : Type :=
| Finite (negative : bool) (digits : string) (decpt : Z)
| Infinity (negative : bool)
| NaN.

Fixpoint zeros (n : nat) : string :=
  match n with
  | O => EmptyString
  | S n' => String "0" (zeros n')
  end.

(** [s[:n]] and [s[n:]]. *)
Fixpoint split_at (n : nat) (s : string) : string * string :=
  match n, s with
  | S n', String c s' => let (a, b) := split_at n' s' in (String c a, b)
  | _, _ => (EmptyString, s)
  end.

(** The exponent, written with its sign and two digits at least. *)
Definition exponent_text (e : Z) : string :=
  (if e <? 0 then "-" else "+")
  ++ (if Z.abs e <? 10 then "0" else "") ++ str_int (Z.abs e).

(** [str(x)] for a [float]: the exponent form is taken when the decimal
    point is more than 16 places after the first digit or 4 places or
    more before it; otherwise the digits are written with the point among
    them, with zeros added up to the point and one digit at least after
    it. *)
Definition str_float (x : pyfloat) : string :=
  match x with
  | NaN => "nan"
  | Infinity negative => (if negative then "-" else "") ++ "inf"
  | Finite negative digits decpt =>
      let len := Z.of_nat (String.length digits) in
      (if negative then "-" else "")
      ++ (if (decpt <=? -4) || (16 <? decpt) then
            let (d, ds) := split_at 1 digits in
            d ++ (if (ds =? "")%string then "" else "." ++ ds)
            ++ "e" ++ exponent_text (decpt - 1)
          else if decpt <=? 0 then
            "0." ++ zeros (Z.to_nat (- decpt)) ++ digits
          else if decpt <? len then
            let (a, b) := split_at (Z.to_nat decpt) digits in a ++ "." ++ b
          else digits ++ zeros (Z.to_nat (decpt - len)) ++ ".0")
  end.

(** [s.replace(old, new)] for a one-character [old]. *)
Fixpoint replace_char (old : ascii) (new : string) (s : string) : string :=
  match s with
  | EmptyString => EmptyString
  | String c s' =>
      if Ascii.eqb c old then new ++ replace_char old new s'
      else String c (replace_char old new s')
  end.

(** [n * " "]. *)
Fixpoint spaces (n : nat) : string :=
  match n with
  | O => ""
  | S n' => String " " (spaces n')
  end.

Definition dquote : ascii := Ascii.ascii_of_nat 34.
Definition backslash : ascii := Ascii.ascii_of_nat 92.
Definition newline : ascii := Ascii.ascii_of_nat 10.
Definition nl : string := String newline "".
Definition q : string := String dquote "".

(** Paths, as [posixpath] splits them at the last slash. *)
Fixpoint has_slash (p : string) : bool :=
  match p with
  | EmptyString => false
  | String c p' => Ascii.eqb c "/" || has_slash p'
  end.

(** [os.path.basename(p)]: what follows the last slash. *)
Fixpoint basename (p : string) : string :=
  match p with
  | EmptyString => EmptyString
  | String c p' =>
      if has_slash p' then basename p'
      else if Ascii.eqb c "/" then p' else String c p'
  end.

(** [p[:i]] for [i] just after the last slash. *)
Fixpoint head_of_path (p : string) : string :=
  match p with
  | EmptyString => EmptyString
  | String c p' =>
      if has_slash p' then String c (head_of_path p')
      else if Ascii.eqb c "/" then String c EmptyString else EmptyString
  end.

(** [s.rstrip("/")]. *)
Fixpoint rstrip_slash (s : string) : string :=
  match s with
  | EmptyString => EmptyString
  | String c s' =>
      match rstrip_slash s' with
      | EmptyString => if Ascii.eqb c "/" then EmptyString else String c EmptyString
      | r => String c r
      end
  end.

(** [os.path.dirname(p)]: the head, without its trailing slashes unless it
    is made of slashes only. *)
Definition dirname (p : string) : string :=
  let head := head_of_path p in
  match rstrip_slash head with
  | EmptyString => head
  | stripped => stripped
  end.


(** Python truthiness, [bool(v)]. *)
Definition truthy (v : pyval) : bool :=
  match v with
  | PNone => false
  | PBool b => b
  | PInt z => negb (z =? 0)
  | PFloat r => negb ((r =? "0.0") || (r =? "-0.0"))%string
  | PStr s => negb (s =? "")%string
  | PList l => match l with [] => false | _ => true end
  | PDict d => match d with [] => false | _ => true end
  | PObject _ => true
  end.

End Py.
Import Py.

(** ** The serializer: [print_hcl_scalar] and [print_hcl] *)

Module Hcl.

Definition indent_spaces : nat := 2.

(** [print_hcl_scalar(f, scalar)]: [f] is the text written to the file so
    far, the result is the text after the call.  The chain of tests has no
    final [else]: a value of any other type writes nothing. *)
Fixpoint print_hcl_scalar (f : string) (scalar : pyval) : string :=
  match scalar with
  | PNone => f ++ "null"
  | PStr s => f ++ q ++ replace_char dquote (String backslash q) s ++ q
  | PBool b => f ++ (if b then "true" else "false")
  | PInt z => f ++ str_int z
  | PFloat r => f ++ r
  | PList l =>
      let f1 := f ++ "[" in
      let body :=
        (fix elems (f : string) (first : bool) (l : list pyval) : string :=
           match l with
           | [] => f
           | v :: l' =>
               let f := if first then f else f ++ ", " in
               elems (print_hcl_scalar f v) false l'
           end) f1 true l in
      body ++ "]"
  | PDict _ => f
  | PObject _ => f
  end.

(** The loop over the elements of a list, as a function of its own. *)
Fixpoint print_hcl_elems (f : string) (first : bool) (l : list pyval) : string :=
  match l with
  | [] => f
  | v :: l' =>
      let f := if first then f else f ++ ", " in
      print_hcl_elems (print_hcl_scalar f v) false l'
  end.

(** [print_hcl(content, f, indent)]. *)
Fixpoint print_hcl (content : pyval) (f : string) (indent : nat) : string :=
  let pad := spaces (indent * indent_spaces) in
  let f :=
    match content with
    | PDict d =>
        let f := f ++ pad in
        let f := if Nat.eqb indent 0 then f else f ++ "{" ++ nl in
        let f :=
          (fix items (f : string) (d : list (string * pyval)) : string :=
             match d with
             | [] => f
             | (k, v) :: d' =>
                 let f := f ++ pad in
                 let f := f ++ k ++ " = " in
                 items (print_hcl v f (S indent)) d'
             end) f d in
        let f := f ++ pad in
        if Nat.eqb indent 0 then f else f ++ "}" ++ nl
    | _ => print_hcl_scalar f content
    end in
  f ++ nl.

(** The loop over the items of a mapping, as a function of its own. *)
Fixpoint print_hcl_items (indent : nat) (f : string) (d : dict) : string :=
  match d with
  | [] => f
  | (k, v) :: d' =>
      let f := f ++ spaces (indent * indent_spaces) in
      let f := f ++ k ++ " = " in
      print_hcl_items indent (print_hcl v f (S indent)) d'
  end.

End Hcl.
Import Hcl.

(** ** Dictionaries in insertion order *)

Module Dict.

Section Assoc.

Variable V : Type.

(** [d[k]], [None] standing for [KeyError]. *)
Fixpoint get (d : list (string * V)) (k : string) : option V :=
  match d with
  | [] => None
  | (k', v) :: d' => if (k' =? k)%string then Some v else get d' k
  end.

(** [k in d]. *)
Definition mem (d : list (string * V)) (k : string) : bool :=
  match get d k with Some _ => true | None => false end.

(** [d[k] = v]: an existing key keeps its place, a new key goes last. *)
Fixpoint set (d : list (string * V)) (k : string) (v : V)
  : list (string * V) :=
  match d with
  | [] => [(k, v)]
  | (k', v') :: d' =>
      if (k' =? k)%string then (k', v) :: d' else (k', v') :: set d' k v
  end.

(** [d.update(b)]. *)
Fixpoint update (d b : list (string * V)) : list (string * V) :=
  match b with
  | [] => d
  | (k, v) :: b' => update (set d k v) b'
  end.

(** [{**a, **b}]: a new mapping filled from [a], then from [b]. *)
Definition merge (a b : list (string * V)) : list (string * V) :=
  update (update [] a) b.

(** [d.pop(k)] without a default: the value and the remaining mapping,
    [None] standing for [KeyError]. *)
Fixpoint pop (d : list (string * V)) (k : string)
  : option (V * list (string * V)) :=
  match d with
  | [] => None
  | (k', v) :: d' =>
      if (k' =? k)%string then Some (v, d')
      else match pop d' k with
           | Some (x, r) => Some (x, (k', v) :: r)
           | None => None
           end
  end.

Definition keys (d : list (string * V)) : list string := map fst d.

End Assoc.

(** The keys of a list are pairwise distinct. *)
Fixpoint distinct (l : list string) : bool :=
  match l with
  | [] => true
  | k :: l' => negb (existsb (String.eqb k) l') && distinct l'
  end.


End Dict.

(** ** Module source rewriting: [change_module_source] *)

Module Rewrite.

(** [\s] of the [re] module on [str] patterns, for the code points below
    256: tab to carriage return, the separators 28 to 31, space, NEL and
    the no-break space. *)
Definition is_space (c : ascii) : bool :=
  let n := nat_of_ascii c in
  ((9 <=? n) && (n <=? 13) || (28 <=? n) && (n <=? 32)
   || (n =? 133) || (n =? 160))%nat.

(** [[\s]*], greedy: the white space consumed and the rest. *)
Fixpoint skip_spaces (s : string) : string * string :=
  match s with
  | String c s' =>
      if is_space c then
        let (w, r) := skip_spaces s' in (String c w, r)
      else ("", s)
  | EmptyString => ("", "")
  end.

(** The literal prefix [p] of [s] taken off. *)
Fixpoint strip_prefix (p s : string) : option string :=
  match p, s with
  | EmptyString, _ => Some s
  | String a p', String b s' =>
      if Ascii.eqb a b then strip_prefix p' s' else None
  | String _ _, EmptyString => None
  end.

(** The tail of the lazy group once its first character is taken: the
    shortest run of characters other than the line feed up to a double
    quote; the run and what follows the quote. *)
Fixpoint until_quote (s : string) : option (string * string) :=
  match s with
  | EmptyString => None
  | String c s' =>
      if Ascii.eqb c dquote then Some ("", s')
      else if Ascii.eqb c newline then None
      else match until_quote s' with
           | Some (g, r) => Some (String c g, r)
           | None => None
           end
  end.

(** The lazy group [(.+?)] and the closing quote: one character other than
    the line feed (it may be a double quote), then [until_quote]. *)
Definition lazy_group (s : string) : option (string * string) :=
  match s with
  | EmptyString => None
  | String c s' =>
      if Ascii.eqb c newline then None
      else match until_quote s' with
           | Some (g, r) => Some (String c g, r)
           | None => None
           end
  end.

(** A match of [source_re], the pattern
    [(source[\s]*=[\s]*")(.+?)(")] with a backslash before each of its two
    double quotes, at the start of [s]:
    the three groups and the text after the match. *)
Definition match_source (s : string)
  : option (string * string * string * string) :=
  match strip_prefix "source" s with
  | None => None
  | Some s1 =>
      let (w1, s2) := skip_spaces s1 in
      match s2 with
      | String "=" s3 =>
          let (w2, s4) := skip_spaces s3 in
          match s4 with
          | String c s5 =>
              if Ascii.eqb c dquote then
                match lazy_group s5 with
                | Some (g2, rest) =>
                    Some ("source" ++ w1 ++ "=" ++ w2 ++ q, g2, q, rest)
                | None => None
                end
              else None
          | EmptyString => None
          end
      | _ => None
      end
  end.

(** [sub in s]. *)
Fixpoint contains (sub s : string) : bool :=
  match strip_prefix sub s with
  | Some _ => true
  | None => match s with
            | EmptyString => false
            | String _ s' => contains sub s'
            end
  end.

(** [s.replace("../", empty)]. *)
Fixpoint remove_dotdotslash (s : string) : string :=
  match s with
  | String "." (String "." (String "/" r)) => remove_dotdotslash r
  | String c s' => String c (remove_dotdotslash s')
  | EmptyString => EmptyString
  end.

(** [if tag:] holds for a tag that is neither [None] nor empty. *)
Definition tag_given (tag : option string) : bool :=
  match tag with
  | Some t => negb (t =? "")%string
  | None => false
  end.

(** The replacement function [change_module_source_sub], on the three
    groups of a match. *)
Definition change_module_source_sub
  (target_repository : string) (tag : option string)
  (group1 group2 group3 : string) : string :=
  let module_source := group2 in
  let module_source :=
    if contains "../modules" module_source then
      let module_source := remove_dotdotslash module_source in
      let module_source :=
        "git::" ++ target_repository ++ "//" ++ module_source in
      if tag_given tag then
        module_source ++ "?ref=" ++ match tag with Some t => t | None => "" end
      else module_source
    else module_source in
  group1 ++ module_source ++ group3.

(** [re.sub(source_re, repl, line)]: the matches are taken from left to
    right and do not overlap; a match is never empty, so the length of the
    line bounds the number of steps. *)
Fixpoint re_sub_source (fuel : nat) (repl : string -> string -> string -> string)
  (line : string) : string :=
  match fuel with
  | O => line
  | S fuel' =>
      match line with
      | EmptyString => EmptyString
      | String c line' =>
          match match_source line with
          | Some (g1, g2, g3, rest) =>
              repl g1 g2 g3 ++ re_sub_source fuel' repl rest
          | None => String c (re_sub_source fuel' repl line')
          end
      end
  end.

(** What the loop body does to one line. *)
Definition rewrite_line (target_repository : string) (tag : option string)
  (line : string) : string :=
  re_sub_source (String.length line)
    (change_module_source_sub target_repository tag) line.

(** [f.readline()] until the end of the file: the lines of the text, each
    with its line feed (the last one may have none). *)
Fixpoint readlines (s : string) : list string :=
  match s with
  | EmptyString => []
  | String c s' =>
      if Ascii.eqb c newline then String c "" :: readlines s'
      else match readlines s' with
           | [] => [String c ""]
           | line :: lines => String c line :: lines
           end
  end.

(** [change_module_source(filename, target_repository, tag)], on the text
    of the file: the text the file holds afterwards. *)
Definition change_module_source
  (content target_repository : string) (tag : option string) : string :=
  String.concat ""
    (map (rewrite_line target_repository tag) (readlines content)).

(** A file opened in text mode is read with universal newlines: a
    carriage return, alone or followed by a line feed, is read as a line
    feed. *)
Definition carriage_return : ascii := Ascii.ascii_of_nat 13.

Fixpoint read_text (s : string) : string :=
  match s with
  | EmptyString => EmptyString
  | String c s' =>
      if Ascii.eqb c carriage_return then
        String newline
          match s' with
          | String c' s'' =>
              if Ascii.eqb c' newline then read_text s'' else read_text s'
          | EmptyString => EmptyString
          end
      else String c (read_text s')
  end.

(** [change_module_source(filename, target_repository, tag)], on what the
    file holds: what it holds afterwards. *)
Definition change_module_source_file
  (held target_repository : string) (tag : option string) : string :=
  change_module_source (read_text held) target_repository tag.


End Rewrite.
Import Rewrite.

(** ** The process and its collaborators *)

Module Sys.

(** The exceptions the modelled code can raise. *)
Inductive py_exception : Type :=
| KeyError (key : string)
| IndexError
| TypeError
| AttributeError (name : string)
| OSError (filename : string)
| Exception (msg : string).

(** What the operator does with the dialog on the screen. *)
Inductive action : Type :=
| Ok (text : string)                    (* Ok, with the text entered or the entry selected *)
| OkForm (edits : list (string * string)) (* Ok on a form, with the fields edited *)
| Previous
| Quit
| Yes
| No.

(** The dialogs shown to the operator. *)
Inductive prompt : Type :=
| QuitConfirmation
| InputDialog (id title text value : string) (password : bool)
| YesNoDialog (id title text : string)
| SelectDialog (id title text : string) (values : list (string * string))
    (value : pyval)
| SelectWithInputDialog (id title text new_text : string)
    (values : list (string * string)) (value : pyval)
| MultiInputDialog (id title text : string) (values : list (string * string))
    (value : list (string * string))
| TerraformDialog (cmd : list string).

(** The calls on the collaborators, as they are logged. *)
Inductive call : Type :=
| Show (p : prompt)                          (* one run of a dialog *)
| RunShell (cmd : list string) (dir : string). (* one run of a command *)

(** The state of the process: [os.environ], [self.config], the actions of
    the operator and the exit codes of the commands still to come, what
    the remote services answer, the text of the files written, and the
    calls made so far (latest first). *)
Record world : Type := mkWorld {
  environ : list (string * string);
  config : dict;
  operator : list action;
  shell : list Z;
  github_latest_tag : string;
  gitlab_groups : list (string * string);
  files : list (string * string);
  log : list call
}.

(** How a computation ends: it returns, raises, leaves the process
    ([quit()]), waits for an operator or a command that the world does not
    provide, or is cut by the bound on its loop. *)
Inductive outcome (A : Type) : Type :=
| Done (a : A) (w : world)
| Raised (e : py_exception) (w : world)
| Exited (w : world)
| Stuck (w : world)
| OutOfFuel (w : world).

Arguments Raised {A} e w.
Arguments Exited {A} w.
Arguments Stuck {A} w.
Arguments OutOfFuel {A} w.

Definition M (A : Type) : Type := world -> outcome A.

Definition ret {A} (a : A) : M A := fun w => Done a w.

Definition bind {A B} (m : M A) (k : A -> M B) : M B :=
  fun w =>
    match m w with
    | Done a w' => k a w'
    | Raised e w' => Raised e w'
    | Exited w' => Exited w'
    | Stuck w' => Stuck w'
    | OutOfFuel w' => OutOfFuel w'
    end.

Definition raise {A} (e : py_exception) : M A := fun w => Raised e w.
Definition quit {A} : M A := fun w => Exited w.
Definition stuck {A} : M A := fun w => Stuck w.
Definition out_of_fuel {A} : M A := fun w => OutOfFuel w.

Declare Scope py_scope.
Delimit Scope py_scope with py.
Notation "x <- m ;; k" := (bind m (fun x => k))
  (at level 61, m at next level, right associativity) : py_scope.
Notation "m ;;; k" := (bind m (fun _ => k))
  (at level 61, right associativity) : py_scope.
Open Scope py_scope.

Definition with_environ (f : list (string * string) -> list (string * string))
  (w : world) : world :=
  mkWorld (f (environ w)) (config w) (operator w) (shell w)
    (github_latest_tag w) (gitlab_groups w) (files w) (log w).

Definition with_config (f : dict -> dict) (w : world) : world :=
  mkWorld (environ w) (f (config w)) (operator w) (shell w)
    (github_latest_tag w) (gitlab_groups w) (files w) (log w).

Definition with_operator (ops : list action) (w : world) : world :=
  mkWorld (environ w) (config w) ops (shell w)
    (github_latest_tag w) (gitlab_groups w) (files w) (log w).

Definition with_shell (sh : list Z) (w : world) : world :=
  mkWorld (environ w) (config w) (operator w) sh
    (github_latest_tag w) (gitlab_groups w) (files w) (log w).

Definition with_log (c : call) (w : world) : world :=
  mkWorld (environ w) (config w) (operator w) (shell w)
    (github_latest_tag w) (gitlab_groups w) (files w) (c :: log w).

Definition with_files (f : list (string * string) -> list (string * string))
  (w : world) : world :=
  mkWorld (environ w) (config w) (operator w) (shell w)
    (github_latest_tag w) (gitlab_groups w) (f (files w)) (log w).

(** [os.getenv(name)]. *)
Definition getenv (name : string) : M (option string) :=
  fun w => Done (Dict.get (environ w) name) w.

(** [os.environ[name]]. *)
Definition environ_get (name : string) : M string :=
  fun w =>
    match Dict.get (environ w) name with
    | Some v => Done v w
    | None => Raised (KeyError name) w
    end.

(** [os.environ[name] = value]. *)
Definition putenv (name value : string) : M unit :=
  fun w => Done tt (with_environ (fun e => Dict.set e name value) w).

(** [not os.getenv(name)]: the variable is absent or empty. *)
Definition env_missing (v : option string) : bool :=
  match v with
  | Some s => (s =? "")%string
  | None => true
  end.

(** [self.config[k]]. *)
Definition config_get (k : string) : M pyval :=
  fun w =>
    match Dict.get (config w) k with
    | Some v => Done v w
    | None => Raised (KeyError k) w
    end.

(** [self.config[k] = v]. *)
Definition config_set (k : string) (v : pyval) : M unit :=
  fun w => Done tt (with_config (fun d => Dict.set d k v) w).

Definition show (p : prompt) : M unit :=
  fun w => Done tt (with_log (Show p) w).

(** One run of the dialog on the screen: the operator's next action. *)
Definition run_app (p : prompt) : M action :=
  show p ;;;
  fun w =>
    match operator w with
    | a :: ops => Done a (with_operator ops w)
    | [] => Stuck w
    end.

(** One run of a command by the shell runner: its exit code. *)
Definition run_shell (cmd : list string) (dir : string) : M Z :=
  fun w =>
    match shell w with
    | rc :: sh => Done rc (with_shell sh (with_log (RunShell cmd dir) w))
    | [] => Stuck (with_log (RunShell cmd dir) w)
    end.

(** [open(filename, "w")] followed by the writes that give [text]. *)
Definition write_file (filename text : string) : M unit :=
  fun w => Done tt (with_files (fun fs => Dict.set fs filename text) w).

(** [os.path.exists(path)], for the files the world holds. *)
Definition path_exists (path : string) : M bool :=
  fun w => Done (Dict.mem (files w) path) w.

(** [shutil.copy2(src, dst)] for a directory [dst]: the copy is the file
    [dst/basename(src)]. *)
Definition copy2 (src dst : string) : M unit :=
  fun w =>
    match Dict.get (files w) src with
    | Some text =>
        Done tt (with_files (fun fs => Dict.set fs (dst ++ "/" ++ basename src) text) w)
    | None => Raised (OSError src) w
    end.

(** A [for] loop over a list. *)
Fixpoint for_each {A} (l : list A) (body : A -> M unit) : M unit :=
  match l with
  | [] => ret tt
  | x :: l' => body x ;;; for_each l' body
  end.


(** The number of abort confirmations in a log. *)
Fixpoint quit_confirmations (l : list call) : nat :=
  match l with
  | [] => O
  | Show QuitConfirmation :: l' => S (quit_confirmations l')
  | _ :: l' => quit_confirmations l'
  end.

(** The exception an outcome carries, if any. *)
Definition exception_of {A} (o : outcome A) : option py_exception :=
  match o with
  | Raised e _ => Some e
  | _ => None
  end.

End Sys.
Import Sys.

(** ** The dialogs of [FastDialogs] *)

Module Dialogs.

(** [maybe_quit]: the yes/no dialog, and [quit()] on yes. *)
Definition maybe_quit : M unit :=
  a <- run_app QuitConfirmation ;;
  match a with
  | Yes => quit
  | No => ret tt
  | _ => stuck
  end.

(** The [while True] loop of [input_dialog]: the application exits with
    [None] on Quit, with [False] on Previous and with the text of the
    field on Ok. *)
Fixpoint input_dialog_loop (fuel : nat) (p : prompt) : M pyval :=
  match fuel with
  | O => out_of_fuel
  | S fuel' =>
      a <- run_app p ;;
      match a with
      | Quit => maybe_quit ;;; input_dialog_loop fuel' p
      | Previous => ret (PBool false)
      | Ok text => ret (PStr text)
      | _ => stuck
      end
  end.

(** Every turn of a dialog loop takes an action of the operator, so the
    actions still to come bound the number of turns. *)
Definition turns (w : world) : nat := S (List.length (operator w)).

Definition input_dialog (id title text value : string) (password : bool)
  : M pyval :=
  fun w => input_dialog_loop (turns w) (InputDialog id title text value password) w.

(** [yesno_dialog]: the pair [(got_choice, choice)]. *)
Fixpoint yesno_dialog_loop (fuel : nat) (p : prompt) : M (bool * pyval) :=
  match fuel with
  | O => out_of_fuel
  | S fuel' =>
      a <- run_app p ;;
      match a with
      | Quit => maybe_quit ;;; yesno_dialog_loop fuel' p
      | Previous => ret (false, PNone)
      | Yes => ret (true, PBool true)
      | No => ret (true, PBool false)
      | _ => stuck
      end
  end.

Definition yesno_dialog (id title text : string) : M (bool * pyval) :=
  fun w => yesno_dialog_loop (turns w) (YesNoDialog id title text) w.

(** The loop shared by [select_dialog] and [select_with_input_dialog]. *)
Fixpoint select_dialog_loop (fuel : nat) (p : prompt) : M (bool * pyval) :=
  match fuel with
  | O => out_of_fuel
  | S fuel' =>
      a <- run_app p ;;
      match a with
      | Quit => maybe_quit ;;; select_dialog_loop fuel' p
      | Previous => ret (false, PNone)
      | Ok choice => ret (true, PStr choice)
      | _ => stuck
      end
  end.

Definition select_dialog (id title text : string)
  (values : list (string * string)) (value : pyval) : M (bool * pyval) :=
  fun w => select_dialog_loop (turns w) (SelectDialog id title text values value) w.

Definition select_with_input_dialog (id title text new_text : string)
  (values : list (string * string)) (value : pyval) : M (bool * pyval) :=
  fun w =>
    select_dialog_loop (turns w)
      (SelectWithInputDialog id title text new_text values value) w.

(** The texts of the form when Ok is pressed: a field the operator has
    edited holds the new text, any other field its initial text. *)
Fixpoint form_result (fields : list (string * string))
  (edits : list (string * string)) : dict :=
  match fields with
  | [] => []
  | (k, initial) :: fields' =>
      (k, PStr match Dict.get edits k with
               | Some t => t
               | None => initial
               end) :: form_result fields' edits
  end.

Fixpoint multi_input_dialog_loop (fuel : nat) (p : prompt)
  (fields : list (string * string)) : M (bool * pyval) :=
  match fuel with
  | O => out_of_fuel
  | S fuel' =>
      a <- run_app p ;;
      match a with
      | Quit => maybe_quit ;;; multi_input_dialog_loop fuel' p fields
      | Previous => ret (false, PNone)
      | OkForm edits => ret (true, PDict (form_result fields edits))
      | _ => stuck
      end
  end.

(** The text fields of [multi_input_dialog]: one for each key of [values],
    holding [value[k]]. *)
Fixpoint text_fields (values : list (string * string)) (value : dict)
  : py_exception + list (string * string) :=
  match values with
  | [] => inr []
  | (k, _) :: values' =>
      match Dict.get value k with
      | None => inl (KeyError k)
      | Some (PStr t) =>
          match text_fields values' value with
          | inr fs => inr ((k, t) :: fs)
          | inl e => inl e
          end
      | Some _ => inl TypeError
      end
  end.

Definition multi_input_dialog (id title text : string)
  (values : list (string * string)) (value : dict) : M (bool * pyval) :=
  match text_fields values value with
  | inl e => raise e
  | inr fields =>
      fun w =>
        multi_input_dialog_loop (turns w)
          (MultiInputDialog id title text values fields) fields w
  end.

End Dialogs.
Import Dialogs.

(** ** Running Terraform until it succeeds *)

Module Terraform.

(** [async_run_terraform] and the dialog run side by side in [run_tasks]:
    the command runs in [dir] with three variables exported, the dialog
    ends with the button the operator presses, [True] for Ok (Retry once
    the command has failed), [False] for Previous, [None] for Quit. *)
Definition run_tasks (cmd : list string) (dir : string)
  : M (Z * option bool) :=
  putenv "TF_IN_AUTOMATION" "1" ;;;
  putenv "TF_INPUT" "0" ;;;
  putenv "TF_CLI_ARGS" "-no-color" ;;;
  return_code <- run_shell cmd dir ;;
  a <- run_app (TerraformDialog cmd) ;;
  match a with
  | Ok _ => ret (return_code, Some true)
  | Previous => ret (return_code, Some false)
  | Quit => ret (return_code, None)
  | _ => stuck
  end.

(** The [while True] loop of [run_terraform_until_ok]. *)
Fixpoint run_terraform_loop (fuel : nat) (cmd : list string) (dir : string)
  : M bool :=
  match fuel with
  | O => out_of_fuel
  | S fuel' =>
      rr <- run_tasks cmd dir ;;
      let (return_code, result) := rr in
      match result with None => maybe_quit | Some _ => ret tt end ;;;
      if (return_code =? 0) && match result with Some b => b | None => false end
      then ret true
      else if negb match result with Some b => b | None => false end
      then ret false
      else run_terraform_loop fuel' cmd dir
  end.

Definition run_terraform_until_ok (cmd : list string) (dir : string) : M bool :=
  fun w => run_terraform_loop (turns w) cmd dir w.

Definition terraform_init (dir : string) : M bool :=
  run_terraform_until_ok ["terraform"; "init"; "-migrate-state"; "-force-copy"] dir.

Definition terraform_apply (dir : string) (flags : list string) : M bool :=
  run_terraform_until_ok (["terraform"; "apply"; "-auto-approve"] ++ flags) dir.

(** [terraform_format]: the formatter runs on the file and a failure is
    raised; what the formatter does to the text is not part of this
    development. *)
Definition terraform_format (filename : string) : M unit :=
  returncode <- run_shell ["terraform"; "fmt"; filename] "." ;;
  if returncode =? 0 then ret tt
  else raise (Exception ("Unable to terraform fmt " ++ filename ++ "!")).

(** The end of [write_cicd_config] and of [write_bootstrap_config], once
    the mapping to write is built: the marker line and the mapping go to
    the file, then the formatter runs. *)
Definition write_config (content : dict) (filename : string) : M unit :=
  write_file filename
    (print_hcl (PDict content) ("# Written by configure.py" ++ nl ++ nl) 0) ;;;
  terraform_format filename.

End Terraform.
Import Terraform.

(** ** The wizard driver: [run_wizard] *)

Module Wizard.

(** [l[i]] for a list: a negative index counts from the end. *)
Definition py_index {A} (l : list A) (i : Z) : option A :=
  let n := Z.of_nat (List.length l) in
  if (i <? - n) || (n <=? i) then None
  else nth_error l (Z.to_nat (if i <? 0 then i + n else i)).

Section Driver.

(** An instance: its list of steps and its methods [select_<step>]. *)
Variable setup_wizard : list string.
Variable select : string -> M bool.

(** One turn of the loop of [run_wizard]: the index after it. *)
Definition wizard_turn (dialog_index : Z) : M Z :=
  match py_index setup_wizard dialog_index with
  | None => raise IndexError
  | Some dialog =>
      go_to_next <- select dialog ;;
      ret (if go_to_next : bool then dialog_index + 1 else dialog_index - 1)
  end.

Fixpoint run_wizard_loop (fuel : nat) (dialog_index : Z) : M dict :=
  match fuel with
  | O => out_of_fuel
  | S fuel' =>
      dialog_index <- wizard_turn dialog_index ;;
      if dialog_index =? Z.of_nat (List.length setup_wizard)
      then (fun w => Done (config w) w)
      else run_wizard_loop fuel' dialog_index
  end.

Definition run_wizard (fuel : nat) : M dict := run_wizard_loop fuel 0.



End Driver.

End Wizard.
Import Wizard.

(** ** The configurators *)

Module Fast.

(** [str(v)] as the f-strings apply it to a value of the configuration.
    The text of a list, of a mapping and of an object is their [repr],
    which is kept out of this development: they are shown by their type. *)
Definition py_format (v : pyval) : string :=
  match v with
  | PNone => "None"
  | PBool b => if b then "True" else "False"
  | PInt z => str_int z
  | PFloat r => r
  | PStr s => s
  | PList _ => "<list>"
  | PDict _ => "<dict>"
  | PObject t => "<" ++ t ++ ">"
  end.

(** The class attributes of [FastDialogs]. *)
Definition FastDialogs_config : dict :=
  [("use_upstream", PBool true); ("upstream_tag", PNone);
   ("bootstrap_output_path", PNone); ("cicd_output_path", PNone)].

Definition repositories : list (string * string) :=
  [("modules", "Fabric modules"); ("bootstrap", "Bootstrap stage");
   ("cicd", "CI/CD setup stage"); ("resman", "Resource management stage");
   ("networking", "Networking setup stage");
   ("security", "Security configuration stage");
   ("data-platform", "Data platform stage");
   ("project-factory", "Project factory stage")].

(** [FastCicdConfigurator]: [config] and [__init__]. *)
Definition FastCicdConfigurator_config : dict := [("git", PStr "ssh")].

Definition FastCicdConfigurator_init (config : dict) : dict :=
  Dict.merge FastCicdConfigurator_config config.

(** [FastCicdSystemConfigurator.__init__]: [self.config] is at first the
    class attribute of the instance's own class, [super().config] the one
    of [FastDialogs]. *)
Definition FastCicdSystemConfigurator_init (class_config config : dict) : dict :=
  let self_config := Dict.merge class_config FastDialogs_config in
  Dict.merge self_config config.

(** [self.config[name] = {}] followed by the loop
    [self.config[name][k] = k] over [repositories]. *)
Definition own_repositories (self_config : dict) (name : string) : dict :=
  fold_left
    (fun c kv =>
       match Dict.get c name with
       | Some (PDict r) => Dict.set c name (PDict (Dict.set r (fst kv) (PStr (fst kv))))
       | _ => c
       end)
    repositories (Dict.set self_config name (PDict [])).

(** [FastGitlabConfigurator]: [config] and [__init__]. *)
Definition FastGitlabConfigurator_config : dict :=
  [("gitlab_url", PNone); ("gitlab_group", PNone);
   ("gitlab_group_create", PBool false)].

Definition FastGitlabConfigurator_init (config : dict) : dict :=
  let self_config :=
    FastCicdSystemConfigurator_init FastGitlabConfigurator_config config in
  let self_config := Dict.merge self_config config in
  own_repositories self_config "gitlab_repositories".

(** [FastGithubConfigurator]: [config] and [__init__]. *)
Definition FastGithubConfigurator_config : dict :=
  [("github_organization", PNone)].

Definition FastGithubConfigurator_init (config : dict) : dict :=
  let self_config :=
    FastCicdSystemConfigurator_init FastGithubConfigurator_config config in
  let self_config := Dict.merge self_config config in
  own_repositories self_config "github_repositories".

(** [select_upstream_modules]: the latest tag comes from the GitHub API. *)
Definition select_upstream_modules : M bool :=
  latest_tag <- (fun w => Done (github_latest_tag w) w) ;;
  r <- yesno_dialog "modules" "Use upstream modules?"
         ("Would you like to use the upstream Fabric modules at version "
          ++ latest_tag ++ "?" ++ nl
          ++ "Otherwise we will fork the modules into your own repository.") ;;
  let (got_choice, choice) := r : bool * pyval in
  if got_choice then
    config_set "use_upstream" choice ;;;
    config_set "upstream_tag" (PStr latest_tag) ;;;
    ret got_choice
  else ret got_choice.

(** [v == s] for a value of the configuration and a string. *)
Definition is_str (v : pyval) (s : string) : bool :=
  match v with PStr t => (t =? s)%string | _ => false end.

(** [select_gitlab_url]. *)
Definition select_gitlab_url : M bool :=
  cicd <- config_get "cicd" ;;
  if is_str cicd "gitlab-ce" then
    domain <- config_get "domain" ;;
    let default_url := "https://gitlab." ++ py_format domain in
    choice <- input_dialog "gitlab_url" "Gitlab installation URL"
                "Enter your Gitlab CE installation URL:" default_url false ;;
    if truthy choice then
      config_set "gitlab_url" choice ;;; ret true
    else ret false
  else
    config_set "gitlab_url" (PStr "https://gitlab.com") ;;; ret true.

(** The body shared by the two token steps, which differ by the variable,
    the id of the dialog and its texts. *)
Definition select_token (variable id title text : string) : M bool :=
  token <- getenv variable ;;
  if env_missing token then
    choice <- input_dialog id title text "" true ;;
    (if truthy choice then
       match choice with
       | PStr s => putenv variable s
       | _ => raise TypeError
       end
     else ret tt) ;;;
    ret true
  else ret true.

(** [select_gitlab_token]. *)
Definition select_gitlab_token : M bool :=
  select_token "GITLAB_TOKEN" "gitlab_url" "Gitlab access token"
    ("You don't seem to have GITLAB_TOKEN environment variable set."
     ++ nl ++ nl ++ "Please enter your token below:").

(** [select_github_token]. *)
Definition select_github_token : M bool :=
  select_token "GITHUB_TOKEN" "github_token" "GitHub access token"
    ("You don't seem to have GITHUB_TOKEN environment variable set."
     ++ nl ++ nl ++ "Please enter your token below:").

(** The loop of [select_gitlab_group] over the groups the GitLab API
    lists, as pairs of path and name. *)
Definition group_values (groups : list (string * string))
  : list (string * string) :=
  fold_left
    (fun values g =>
       if (snd g =? "GitLab Instance")%string then values
       else Dict.set values (fst g) (snd g))
    groups [].

(** [select_gitlab_group]; [get_gitlab] reads [os.environ["GITLAB_TOKEN"]]. *)
Definition select_gitlab_group : M bool :=
  _url <- config_get "gitlab_url" ;;
  _token <- environ_get "GITLAB_TOKEN" ;;
  groups <- (fun w => Done (gitlab_groups w) w) ;;
  let values :=
    Dict.set (group_values groups) "_" "New group (enter name below)" in
  current <- config_get "gitlab_group" ;;
  r <- select_with_input_dialog "gitlab_group"
         "Select Gitlab group for repositories"
         "Select existing Gitlab group for repositories, or specify a new one."
         "New group name:" values current ;;
  let (got_choice, choice) := r : bool * pyval in
  if got_choice then
    config_set "gitlab_group" choice ;;;
    config_set "gitlab_group_create" (PBool false) ;;;
    (if match choice with PStr c => Dict.mem values c | _ => false end
     then ret tt
     else config_set "gitlab_group_create" (PBool true)) ;;;
    ret true
  else ret false.

(** The loop [values[k] = repositories[k] + ":"] over the keys of the
    repositories of the configuration. *)
Fixpoint repository_labels (repos : dict)
  : py_exception + list (string * string) :=
  match repos with
  | [] => inr []
  | (k, _) :: repos' =>
      match Dict.get repositories k with
      | None => inl (KeyError k)
      | Some label =>
          match repository_labels repos' with
          | inr values => inr ((k, label ++ ":") :: values)
          | inl e => inl e
          end
      end
  end.

(** The body shared by [select_gitlab_repositories] and
    [select_github_repositories], which differ by the key of the
    configuration, the id of the dialog and its texts. *)
Definition select_repositories (key title text : string) : M bool :=
  use_upstream <- config_get "use_upstream" ;;
  (if truthy use_upstream then
     repos <- config_get key ;;
     match repos with
     | PDict d =>
         match Dict.pop d "modules" with
         | Some (_, d') => config_set key (PDict d')
         | None => raise (KeyError "modules")
         end
     | _ => raise (AttributeError "pop")
     end
   else ret tt) ;;;
  repos <- config_get key ;;
  match repos with
  | PDict d =>
      match repository_labels d with
      | inl e => raise e
      | inr values =>
          r <- multi_input_dialog key title text values d ;;
          let (got_choice, choice) := r : bool * pyval in
          if got_choice then config_set key choice ;;; ret true
          else ret false
      end
  | _ => raise (AttributeError "items")
  end.

(** [select_gitlab_repositories]. *)
Definition select_gitlab_repositories : M bool :=
  select_repositories "gitlab_repositories" "Gitlab repositories"
    "Customize Gitlab repository names. You can leave any empty if you don't want a repository for that stage.".

(** [select_github_repositories]. *)
Definition select_github_repositories : M bool :=
  select_repositories "github_repositories" "GitHub repositories"
    "Customize GitHub repository names. You can leave any empty if you don't want a repository for that stage.".

(** The steps of [FastGitlabConfigurator] and its methods.  The last step,
    [select_final_config], writes the two configuration files and calls
    the formatter; it is a parameter here. *)
Definition FastGitlabConfigurator_setup_wizard : list string :=
  ["upstream_modules"; "gitlab_url"; "gitlab_token"; "gitlab_group";
   "gitlab_repositories"; "final_config"].

Definition FastGitlabConfigurator_select (select_final_config : M bool)
  (dialog : string) : M bool :=
  if (dialog =? "upstream_modules")%string then select_upstream_modules
  else if (dialog =? "gitlab_url")%string then select_gitlab_url
  else if (dialog =? "gitlab_token")%string then select_gitlab_token
  else if (dialog =? "gitlab_group")%string then select_gitlab_group
  else if (dialog =? "gitlab_repositories")%string then select_gitlab_repositories
  else if (dialog =? "final_config")%string then select_final_config
  else raise (AttributeError ("select_" ++ dialog)).

(** [FastCicdConfigurator.select_terraform]; [outputs_path] is the
    attribute set by [FastDialogs.__init__].  The values [terraform_init]
    and [terraform_apply] return are not used. *)
Definition select_terraform (outputs_path : string) : M bool :=
  r <- yesno_dialog "terraform" "Run Terraform?"
         "Now that CI/CD is configured, would you like me to run Terraform?" ;;
  let (got_choice, choice) := r : bool * pyval in
  if got_choice then
    (if truthy choice then
       for_each ["00-bootstrap"; "00-cicd"]
         (fun stage =>
            let stage_dir := "stages/" ++ stage in
            let providers :=
              outputs_path ++ "/providers/" ++ stage ++ "-providers.tf" in
            copied <- path_exists (stage_dir ++ "/" ++ stage ++ "-providers.tf") ;;
            available <- path_exists providers ;;
            (if negb copied && available then copy2 providers stage_dir
             else ret tt) ;;;
            (if negb (stage =? "00-bootstrap")%string then
               let bootstrap_auto_vars :=
                 outputs_path ++ "/tfvars/00-bootstrap.auto.tfvars.json" in
               copied <- path_exists
                           (stage_dir ++ "/00-bootstrap.auto.tfvars.json") ;;
               available <- path_exists bootstrap_auto_vars ;;
               if negb copied && available
               then copy2 bootstrap_auto_vars stage_dir
               else ret tt
             else ret tt) ;;;
            output_path <- config_get
                             (if (stage =? "00-bootstrap")%string
                              then "bootstrap_output_path"
                              else "cicd_output_path") ;;
            match output_path with
            | PStr path =>
                _ <- terraform_init (dirname path) ;;
                _ <- terraform_apply (dirname path) [] ;;
                ret tt
            | _ => raise TypeError
            end)
     else ret tt) ;;;
    ret true
  else ret got_choice.

(** The steps of [FastCicdConfigurator] and its methods.  The second step,
    [select_git], pushes the stages to the repositories; it is a parameter
    here. *)
Definition FastCicdConfigurator_setup_wizard : list string :=
  ["terraform"; "git"].

Definition FastCicdConfigurator_select (outputs_path : string)
  (select_git : M bool) (dialog : string) : M bool :=
  if (dialog =? "terraform")%string then select_terraform outputs_path
  else if (dialog =? "git")%string then select_git
  else raise (AttributeError ("select_" ++ dialog)).


End Fast.
Import Fast.

(** ** The words of the specification *)

Module Spec.

(** The scalar values of the specification: null, booleans, numbers,
    strings, and lists of scalar values. *)
Fixpoint scalar_value (v : pyval) : bool :=
  match v with
  | PNone | PBool _ | PInt _ | PFloat _ | PStr _ => true
  | PList l => forallb scalar_value l
  | PDict _ | PObject _ => false
  end.

(** The rendering the specification gives for a scalar value. *)
Fixpoint render (v : pyval) : string :=
  match v with
  | PNone => "null"
  | PBool b => if b then "true" else "false"
  | PInt z => str_int z
  | PFloat r => r
  | PStr s => q ++ replace_char dquote (String backslash q) s ++ q
  | PList l => "[" ++ String.concat ", " (map render l) ++ "]"
  | PDict _ | PObject _ => ""
  end.

Definition is_digit (c : ascii) : bool :=
  let n := nat_of_ascii c in ((48 <=? n) && (n <=? 57))%nat.

Fixpoint all_digits (t : string) : bool :=
  match t with
  | EmptyString => true
  | String c t' => is_digit c && all_digits t'
  end.

(** A decimal literal of an integer: an optional minus sign and one or
    more digits, with no fractional part. *)
Definition is_decimal_literal (t : string) : bool :=
  match t with
  | EmptyString => false
  | String c t' =>
      if Ascii.eqb c "-" then negb (t' =? "")%string && all_digits t'
      else all_digits t
  end.

(** Every double quote of [t] comes right after a backslash. *)
Fixpoint quotes_escaped (after_backslash : bool) (t : string) : bool :=
  match t with
  | EmptyString => true
  | String c t' =>
      if Ascii.eqb c dquote then after_backslash && quotes_escaped false t'
      else quotes_escaped (Ascii.eqb c backslash) t'
  end.

(** The text read back: a backslash before a double quote is dropped. *)
Fixpoint unescape (t : string) : string :=
  match t with
  | EmptyString => EmptyString
  | String c t' =>
      if Ascii.eqb c backslash then
        match t' with
        | String c' t'' =>
            if Ascii.eqb c' dquote then String dquote (unescape t'')
            else String c (unescape t')
        | EmptyString => String c EmptyString
        end
      else String c (unescape t')
  end.

(** A value of a type the specification does not support occurs in [v]. *)
Fixpoint has_unsupported (v : pyval) : bool :=
  match v with
  | PObject _ => true
  | PList l => existsb has_unsupported l
  | PDict d => existsb (fun kv => has_unsupported (snd kv)) d
  | _ => false
  end.

(** The world after one run of a Terraform command with its dialog, when
    the command ends with [sh] still to come and the operator's action
    leaves [ops]. *)
Definition after_run (cmd : list string) (dir : string) (sh : list Z)
  (ops : list action) (w : world) : world :=
  let env :=
    Dict.set (Dict.set (Dict.set (environ w) "TF_IN_AUTOMATION" "1")
                "TF_INPUT" "0") "TF_CLI_ARGS" "-no-color" in
  mkWorld env (config w) ops sh (github_latest_tag w) (gitlab_groups w)
    (files w) (Show (TerraformDialog cmd) :: RunShell cmd dir :: log w).

(** The log of [n] runs of the same command in the same directory. *)
Fixpoint runs (n : nat) (cmd : list string) (dir : string) : list call :=
  match n with
  | O => []
  | S n' => Show (TerraformDialog cmd) :: RunShell cmd dir :: runs n' cmd dir
  end.

(** The world after a token step has shown its dialog [p] and the operator
    has answered with [a], leaving [ops]: a text that is not empty is
    exported to [variable]. *)
Definition after_token_prompt (variable : string) (p : prompt) (a : action)
  (ops : list action) (w : world) : world :=
  let env :=
    match a with
    | Ok s => if (s =? "")%string then environ w else Dict.set (environ w) variable s
    | _ => environ w
    end in
  mkWorld env (config w) ops (shell w) (github_latest_tag w) (gitlab_groups w)
    (files w) (Show p :: log w).

(** The dialogs of the two token steps. *)
Definition gitlab_token_prompt : prompt :=
  InputDialog "gitlab_url" "Gitlab access token"
    ("You don't seem to have GITLAB_TOKEN environment variable set."
     ++ nl ++ nl ++ "Please enter your token below:") "" true.

Definition github_token_prompt : prompt :=
  InputDialog "github_token" "GitHub access token"
    ("You don't seem to have GITHUB_TOKEN environment variable set."
     ++ nl ++ nl ++ "Please enter your token below:") "" true.



(** The world after the abort confirmation has been shown and answered,
    leaving [ops]. *)
Definition after_confirmation (ops : list action) (w : world) : world :=
  mkWorld (environ w) (config w) ops (shell w) (github_latest_tag w)
    (gitlab_groups w) (files w) (Show QuitConfirmation :: log w).


(** What a dialog leaves alone: the environment, the configuration, the
    exit codes still to come and the files. *)
Definition same_state (w w' : world) : Prop :=
  environ w' = environ w /\ config w' = config w
  /\ shell w' = shell w /\ files w' = files w.

(** A computation that leaves the state alone however it ends. *)
Definition preserves {A} (m : M A) : Prop :=
  forall w,
    match m w with
    | Done _ w' | Raised _ w' | Exited w' | Stuck w' | OutOfFuel w' =>
        same_state w w'
    end.

(** [n] presses of Quit, each of them declined. *)
Fixpoint declined_quits (n : nat) : list action :=
  match n with
  | O => []
  | S n' => Quit :: No :: declined_quits n'
  end.

(** The log after the dialog [p] has been run and left by a declined Quit
    [n] times, on top of [l]. *)
Fixpoint declined_log (n : nat) (p : prompt) (l : list call) : list call :=
  match n with
  | O => l
  | S n' => declined_log n' p (Show QuitConfirmation :: Show p :: l)
  end.

(** The three variables [async_run_terraform] exports. *)
Definition terraform_environ (env : list (string * string)) : Prop :=
  Dict.get env "TF_IN_AUTOMATION" = Some "1"
  /\ Dict.get env "TF_INPUT" = Some "0"
  /\ Dict.get env "TF_CLI_ARGS" = Some "-no-color".

(** The digits of a finite float are decimal digits, one at least. *)
Definition float_digits (x : pyfloat) : bool :=
  match x with
  | Finite _ ds _ => negb (ds =? "")%string && all_digits ds
  | _ => true
  end.

Definition is_finite (x : pyfloat) : bool :=
  match x with
  | Finite _ _ _ => true
  | _ => false
  end.

(** The source strings of a line: the second group of each match of
    [source_re] that [re.sub] finds in it, from left to right. *)
Fixpoint source_strings (fuel : nat) (line : string) : list string :=
  match fuel with
  | O => []
  | S fuel' =>
      match line with
      | EmptyString => []
      | String _ line' =>
          match match_source line with
          | Some (_, g2, _, rest) => g2 :: source_strings fuel' rest
          | None => source_strings fuel' line'
          end
      end
  end.

(** No source string of the line contains a [../modules] path. *)
Definition no_module_path (line : string) : bool :=
  forallb (fun s => negb (contains "../modules" s))
    (source_strings (String.length line) line).

End Spec.
Import Spec.


(** ** The target format: attributes, literal values, tuples and objects

    The fragment of the native syntax of the configuration language that
    holds literal values only: a body is a sequence of attributes, one on
    a line, an identifier, the equals sign and a value; a value is
    [null], [true], [false], a number literal, a quoted string, a tuple of
    those between brackets, or an object, attributes between braces.  A
    text outside the fragment (comments, blocks, templates, operators) is
    refused. *)

Module Reader.

Fixpoint all_chars (p : ascii -> bool) (s : string) : bool :=
  match s with
  | EmptyString => true
  | String c s' => p c && all_chars p s'
  end.

Fixpoint some_char (p : ascii -> bool) (s : string) : bool :=
  match s with
  | EmptyString => false
  | String c s' => p c || some_char p s'
  end.

(** The longest prefix of characters in [p], and the rest. *)
Fixpoint span (p : ascii -> bool) (s : string) : string * string :=
  match s with
  | String c s' =>
      if p c then let (t, r) := span p s' in (String c t, r) else ("", s)
  | EmptyString => ("", "")
  end.

(** *** White space

    Within a line the space and the tab separate tokens; the line feed
    ends an attribute. *)
Definition tab : ascii := Ascii.ascii_of_nat 9.

Definition is_hspace (c : ascii) : bool :=
  Ascii.eqb c " " || Ascii.eqb c tab.

Fixpoint skip_hspace (s : string) : string :=
  match s with
  | String c s' => if is_hspace c then skip_hspace s' else s
  | EmptyString => EmptyString
  end.

(** The end of a line: white space and the line feed; what follows it. *)
Definition end_of_line (s : string) : option string :=
  match skip_hspace s with
  | String c r => if Ascii.eqb c newline then Some r else None
  | EmptyString => None
  end.

(** What may come before the first token of a line: empty lines and
    indentation. *)
Definition is_blank (c : ascii) : bool :=
  is_hspace c || Ascii.eqb c newline.

Fixpoint skip_blanks (s : string) : string :=
  match s with
  | String c s' => if is_blank c then skip_blanks s' else s
  | EmptyString => EmptyString
  end.

(** *** Identifiers

    An identifier starts with a letter or the underscore and goes on with
    letters, digits, underscores and dashes. *)
Definition is_id_start (c : ascii) : bool :=
  let n := nat_of_ascii c in
  ((65 <=? n) && (n <=? 90) || (97 <=? n) && (n <=? 122) || (n =? 95))%nat.

Definition is_key_char (c : ascii) : bool :=
  let n := nat_of_ascii c in
  ((65 <=? n) && (n <=? 90) || (97 <=? n) && (n <=? 122)
   || (48 <=? n) && (n <=? 57) || (n =? 95) || (n =? 45))%nat.

Definition is_identifier (k : string) : bool :=
  match k with
  | String c _ => is_id_start c && all_chars is_key_char k
  | EmptyString => false
  end.

(** *** Number literals

    Digits, then a point and digits, then an exponent: [e] or [E], a sign
    and digits; the two last parts may be missing.  A minus sign may come
    first. *)
Definition is_exponent (t : string) : bool :=
  match t with
  | String c t' =>
      (Ascii.eqb c "e" || Ascii.eqb c "E")
      && match t' with
         | String s d =>
             if Ascii.eqb s "+" || Ascii.eqb s "-"
             then negb (d =? "")%string && all_digits d
             else all_digits t'
         | EmptyString => false
         end
  | EmptyString => false
  end.

Definition is_fraction_exponent (t : string) : bool :=
  match t with
  | EmptyString => true
  | String c t' =>
      if Ascii.eqb c "." then
        let (fr, rest) := span is_digit t' in
        negb (fr =? "")%string && ((rest =? "")%string || is_exponent rest)
      else is_exponent t
  end.

Definition is_number_literal (t : string) : bool :=
  let u :=
    match t with
    | String c t' => if Ascii.eqb c "-" then t' else t
    | EmptyString => EmptyString
    end in
  let (ds, rest) := span is_digit u in
  negb (ds =? "")%string && is_fraction_exponent rest.

(** The characters of a number: digits, the point, the exponent mark and
    the two signs. *)
Definition is_number_char (c : ascii) : bool :=
  is_digit c || Ascii.eqb c "." || Ascii.eqb c "e" || Ascii.eqb c "E"
  || Ascii.eqb c "+" || Ascii.eqb c "-".

(** The characters that tell a float from an integer. *)
Definition is_float_mark (c : ascii) : bool :=
  Ascii.eqb c "." || Ascii.eqb c "e" || Ascii.eqb c "E".

(** A number: the longest run of characters of a number has to be a
    number literal; it is a float when it has a point or an exponent, an
    integer in decimal otherwise. *)
Definition read_number (s : string) : option (pyval * string) :=
  let (t, r) := span is_number_char s in
  if is_number_literal t then
    if some_char is_float_mark t then Some (PFloat t, r)
    else match NilZero.int_of_string t with
         | Some d => Some (PInt (Z.of_int d), r)
         | None => None
         end
  else None.

(** *** Quoted strings

    Between the quotes a string holds any character but the line feed
    and the carriage return; a backslash starts an escape sequence; a
    dollar or percent sign before an opening brace starts a template
    sequence, which is not a literal.  The characters are those of the
    text, whatever their encoding in the file. *)
Definition is_string_char (c : ascii) : bool :=
  negb (Ascii.eqb c newline) && negb (Ascii.eqb c carriage_return).

Definition escape_sequence (c : ascii) : option ascii :=
  if Ascii.eqb c dquote then Some dquote
  else if Ascii.eqb c backslash then Some backslash
  else if Ascii.eqb c "n" then Some newline
  else if Ascii.eqb c "r" then Some carriage_return
  else if Ascii.eqb c "t" then Some tab
  else None.

Definition starts_template (c : ascii) (s : string) : bool :=
  (Ascii.eqb c "$" || Ascii.eqb c "%")
  && match s with
     | String c' _ => Ascii.eqb c' "{"
     | EmptyString => false
     end.

(** The text of a string after its opening quote, up to the closing one. *)
Fixpoint read_string (s : string) : option (string * string) :=
  match s with
  | EmptyString => None
  | String c s' =>
      if Ascii.eqb c dquote then Some ("", s')
      else if Ascii.eqb c backslash then
        match s' with
        | String e s'' =>
            match escape_sequence e, read_string s'' with
            | Some x, Some (t, r) => Some (String x t, r)
            | _, _ => None
            end
        | EmptyString => None
        end
      else if starts_template c s' then None
      else if is_string_char c then
        match read_string s' with
        | Some (t, r) => Some (String c t, r)
        | None => None
        end
      else None
  end.

(** *** Values *)

(** A value that is not a list or a mapping. *)
Definition read_atom (s : string) : option (pyval * string) :=
  match strip_prefix "null" s with
  | Some r => Some (PNone, r)
  | None =>
      match strip_prefix "true" s with
      | Some r => Some (PBool true, r)
      | None =>
          match strip_prefix "false" s with
          | Some r => Some (PBool false, r)
          | None =>
              match s with
              | String c s' =>
                  if Ascii.eqb c dquote then
                    match read_string s' with
                    | Some (t, r) => Some (PStr t, r)
                    | None => None
                    end
                  else read_number s
              | EmptyString => None
              end
          end
      end
  end.

(** The elements of a list after the first one, up to the bracket: each
    comes after a comma. *)
Fixpoint read_elems (fuel : nat) (s : string) : option (list pyval * string) :=
  match fuel with
  | O => None
  | S fuel' =>
      match skip_hspace s with
      | String c r =>
          if Ascii.eqb c "]" then Some ([], r)
          else if Ascii.eqb c "," then
            match read_atom (skip_hspace r) with
            | Some (v, r2) =>
                match read_elems fuel' r2 with
                | Some (l, r3) => Some (v :: l, r3)
                | None => None
                end
            | None => None
            end
          else None
      | EmptyString => None
      end
  end.

(** A value that is not a mapping: a list of atoms between brackets, or
    an atom. *)
Definition read_scalar (fuel : nat) (s : string) : option (pyval * string) :=
  match s with
  | String c r =>
      if Ascii.eqb c "[" then
        match skip_hspace r with
        | String c' r' =>
            if Ascii.eqb c' "]" then Some (PList [], r')
            else
              match read_atom (String c' r') with
              | Some (v, r1) =>
                  match read_elems fuel r1 with
                  | Some (l, r2) => Some (PList (v :: l), r2)
                  | None => None
                  end
              | None => None
              end
        | EmptyString => None
        end
      else read_atom s
  | EmptyString => None
  end.

(** What an object may hold: its keys are distinct, and the first one is
    not [for], which after the opening brace starts another expression. *)
Definition block_keys (d : dict) : bool :=
  Dict.distinct (Dict.keys d)
  && match d with
     | (k, _) :: _ => negb (k =? "for")%string
     | [] => true
     end.

(** The attributes of a body or of an object, one on a line, up to the
    closing brace (which is left in the rest) or the end of the text: an
    identifier, the equals sign, a value and the end of the line; an
    object opens with a brace at the end of the line and closes with a
    brace on a line of its own. *)
Fixpoint read_items (fuel : nat) (s : string) : option (dict * string) :=
  match fuel with
  | O => None
  | S fuel' =>
      match skip_blanks s with
      | EmptyString => Some ([], "")
      | String c s1 =>
          if Ascii.eqb c "}" then Some ([], String c s1)
          else
            let (k, r) := span is_key_char (String c s1) in
            if is_identifier k then
              match skip_hspace r with
              | String e r1 =>
                  if Ascii.eqb e "=" then
                    match skip_hspace r1 with
                    | EmptyString => None
                    | String c2 r2 =>
                        if Ascii.eqb c2 "{" then
                          match end_of_line r2 with
                          | Some r3 =>
                              match read_items fuel' r3 with
                              | Some (d, String c4 r4) =>
                                  if Ascii.eqb c4 "}" && block_keys d then
                                    match end_of_line r4 with
                                    | Some r5 =>
                                        match read_items fuel' r5 with
                                        | Some (d', rest) =>
                                            Some ((k, PDict d) :: d', rest)
                                        | None => None
                                        end
                                    | None => None
                                    end
                                  else None
                              | _ => None
                              end
                          | None => None
                          end
                        else
                          match read_scalar fuel' (String c2 r2) with
                          | Some (v, r3) =>
                              match end_of_line r3 with
                              | Some r4 =>
                                  match read_items fuel' r4 with
                                  | Some (d', rest) => Some ((k, v) :: d', rest)
                                  | None => None
                                  end
                              | None => None
                              end
                          | None => None
                          end
                    end
                  else None
              | EmptyString => None
              end
            else None
      end
  end.

(** The mapping a text of attributes denotes: the whole text is read, and
    no attribute is set twice. *)
Definition parse_hcl (text : string) : option dict :=
  match read_items (S (String.length text)) text with
  | Some (d, EmptyString) =>
      if Dict.distinct (Dict.keys d) then Some d else None
  | _ => None
  end.

(** The first character of [s] is not in [p]. *)
Definition stops (p : ascii -> bool) (s : string) : Prop :=
  match s with
  | String c _ => p c = false
  | EmptyString => True
  end.

(** What the reader needs to know of the first character of a token. *)
Definition starts_token (s : string) : Prop :=
  match s with
  | String c _ =>
      is_blank c = false /\ Ascii.eqb c "{" = false /\ Ascii.eqb c "}" = false
      /\ Ascii.eqb c "[" = false /\ Ascii.eqb c "]" = false
  | EmptyString => False
  end.

(** The end of a block: after the blanks, the closing brace or nothing. *)
Definition block_end (rest : string) : Prop :=
  match skip_blanks rest with
  | String c _ => Ascii.eqb c "}" = true
  | EmptyString => True
  end.

(** *** The configurations read back

    A string has no line feed, no carriage return, no backslash and no
    dollar or percent sign before an opening brace. *)
Fixpoint plain_text (s : string) : bool :=
  match s with
  | EmptyString => true
  | String c s' =>
      is_string_char c && negb (Ascii.eqb c backslash)
      && negb (starts_template c s') && plain_text s'
  end.

(** A float is written as a number literal with a point or an exponent:
    it is neither an infinity nor not a number. *)
Definition plain_atom (v : pyval) : bool :=
  match v with
  | PNone | PBool _ | PInt _ => true
  | PFloat r => is_number_literal r && some_char is_float_mark r
  | PStr s => plain_text s
  | _ => false
  end.

Definition plain_key (k : string) : bool := is_identifier k.

(** Atoms, lists of atoms, and mappings of such values under keys that
    are identifiers, distinct as the keys of a [dict] are, of which the
    first is not [for]. *)
Fixpoint plain_value (v : pyval) : bool :=
  match v with
  | PDict d =>
      block_keys d
      && forallb (fun kv => plain_key (fst kv) && plain_value (snd kv)) d
  | PList l => forallb plain_atom l
  | _ => plain_atom v
  end.

(** At the top the key [for] may come first. *)
Definition plain_config (c : dict) : bool :=
  Dict.distinct (Dict.keys c)
  && forallb (fun kv => plain_key (fst kv) && plain_value (snd kv)) c.

(** A bound on the turns the reader takes on the text of a value. *)
Fixpoint weight (v : pyval) : nat :=
  match v with
  | PDict d =>
      S (fold_right (fun kv n => (weight (snd kv) + n)%nat) O d)
  | PList l => S (List.length l)
  | _ => 1%nat
  end.

End Reader.
Import Reader.


(** ** Writing the configuration files *)

Module Writers.

(** A value or an exception, as a computation. *)
Definition lift {A} (r : py_exception + A) : M A :=
  match r with
  | inl e => raise e
  | inr a => ret a
  end.

(** [x in v] for a string [x]: a substring of a string, an element of a
    list, a key of a mapping; a value of another type is not iterable. *)
Definition py_in (x : string) (v : pyval) : py_exception + bool :=
  match v with
  | PStr s => inr (contains x s)
  | PList l => inr (existsb (fun e => is_str e x) l)
  | PDict d => inr (Dict.mem d x)
  | _ => inl TypeError
  end.

(** [d[k][k'] = v] for a mapping [d[k]] that is there. *)
Definition set_in (d : dict) (k k' : string) (v : pyval) : dict :=
  match Dict.get d k with
  | Some (PDict r) => Dict.set d k (PDict (Dict.set r k' v))
  | _ => d
  end.

(** The mapping assigned to [bootstrap_identity_providers], for the
    provider [gitlab] or [github] and the group or organization. *)
Definition identity_providers (provider : string) (namespace custom_settings : pyval)
  : pyval :=
  PDict
    [(provider,
      PDict
        [("attribute_condition",
          PStr ("attribute.namespace_path==" ++ q ++ py_format namespace ++ q));
         ("issuer", PStr provider);
         ("custom_settings", custom_settings)])].

(** The mapping assigned to [bootstrap_repositories]. *)
Definition bootstrap_repository (provider name : string) : pyval :=
  PDict
    [("branch", PStr "main"); ("identity_provider", PStr provider);
     ("name", PStr name); ("type", PStr provider)].

Definition bootstrap_repositories (provider : string) : pyval :=
  PDict
    [("bootstrap", bootstrap_repository provider "bootstrap");
     ("cicd", bootstrap_repository provider "cicd");
     ("resman", bootstrap_repository provider "resman")].

(** [self.repositories[v]]: a list or a mapping cannot be a key, any other
    value that is not one of the eight keys is a [KeyError]. *)
Definition repository_description (v : pyval) : py_exception + string :=
  match v with
  | PStr name =>
      match Dict.get repositories name with
      | Some description => inr description
      | None => inl (KeyError name)
      end
  | PList _ | PDict _ => inl TypeError
  | _ => inl (KeyError (py_format v))
  end.

(** The loop over the items of the repositories of the configuration:
    [namespace_key] is [gitlab_group] or [github_organization], and
    [create_group] reads [gitlab_group_create] or is [False]. *)
Fixpoint cicd_repositories_loop (provider namespace_key : string)
  (create_group : M pyval) (items : dict) (cicd_config : dict) : M dict :=
  match items with
  | [] => ret cicd_config
  | (k, v) :: items' =>
      namespace <- config_get namespace_key ;;
      description <- lift (repository_description v) ;;
      create_group_value <- create_group ;;
      cicd_repositories_loop provider namespace_key create_group items'
        (set_in cicd_config "cicd_repositories" k
           (PDict
              [("branch", PStr "main");
               ("identity_provider", PStr provider);
               ("name", PStr (py_format namespace ++ "/" ++ py_format v));
               ("description", PStr description);
               ("type", PStr provider);
               ("create", PBool true);
               ("create_group", create_group_value)]))
  end.

(** [if "modules" not in repos: cicd_config["cicd_repositories"]["modules"] = None]
    and the items of [repos]. *)
Definition modules_entry (repos : pyval) (cicd_config : dict) : M (dict * dict) :=
  has_modules <- lift (py_in "modules" repos) ;;
  let cicd_config :=
    if has_modules then cicd_config
    else set_in cicd_config "cicd_repositories" "modules" PNone in
  match repos with
  | PDict items => ret (cicd_config, items)
  | _ => raise (AttributeError "items")
  end.

(** [write_cicd_config(filename)]; [outputs_path] is the attribute set by
    [FastDialogs.__init__].  The file is opened for writing, and so
    emptied, before anything else; the two writes are the last statements
    under [with]. *)
Definition write_cicd_config (outputs_path filename : string) : M unit :=
  write_file filename "" ;;;
  let cicd_config : dict :=
    [("cicd_repositories", PDict []); ("outputs_location", PStr outputs_path)] in
  cicd <- config_get "cicd" ;;
  is_gitlab <- lift (py_in "gitlab" cicd) ;;
  cicd_config <-
    (if is_gitlab : bool then
       gitlab_group <- config_get "gitlab_group" ;;
       config_set "bootstrap_identity_providers"
         (identity_providers "gitlab" gitlab_group PNone) ;;;
       cicd <- config_get "cicd" ;;
       (if is_str cicd "gitlab-ce" then
          issuer_uri <- config_get "gitlab_url" ;;
          audience <- config_get "gitlab_url" ;;
          config_set "bootstrap_identity_providers"
            (identity_providers "gitlab" gitlab_group
               (PDict [("issuer_uri", issuer_uri);
                       ("allowed_audiences", PList [audience])]))
        else ret tt) ;;;
       config_set "bootstrap_repositories" (bootstrap_repositories "gitlab") ;;;
       cicd <- config_get "cicd" ;;
       url <- (if is_str cicd "gitlab-com" then ret (PStr "https://gitlab.com")
               else config_get "gitlab_url") ;;
       let cicd_config :=
         Dict.set cicd_config "gitlab"
           (PDict [("url", url); ("project_visibility", PStr "private");
                   ("shared_runners_enabled", PBool true)]) in
       repos <- config_get "gitlab_repositories" ;;
       ci <- modules_entry repos cicd_config ;;
       let (cicd_config, items) := ci : dict * dict in
       cicd_repositories_loop "gitlab" "gitlab_group"
         (config_get "gitlab_group_create") items cicd_config
     else ret cicd_config) ;;
  cicd <- config_get "cicd" ;;
  cicd_config <-
    (if is_str cicd "github" then
       github_organization <- config_get "github_organization" ;;
       config_set "bootstrap_identity_providers"
         (identity_providers "github" github_organization PNone) ;;;
       config_set "bootstrap_repositories" (bootstrap_repositories "github") ;;;
       let cicd_config :=
         Dict.set cicd_config "github"
           (PDict [("url", PNone); ("visibility", PStr "private")]) in
       repos <- config_get "github_repositories" ;;
       ci <- modules_entry repos cicd_config ;;
       let (cicd_config, items) := ci : dict * dict in
       cicd_repositories_loop "github" "github_organization"
         (ret (PBool false)) items cicd_config
     else ret cicd_config) ;;
  write_config cicd_config filename.

(** [v.split("/")[-1]]: what follows the last slash of a string. *)
Definition last_segment (v : pyval) : py_exception + string :=
  match v with
  | PStr s => inr (basename s)
  | _ => inl (AttributeError "split")
  end.

(** [get_current_user_from_gcloud]: the command is run, its exit code is
    not looked at, and what it prints is [account]. *)
Definition get_current_user_from_gcloud (account : string) : M string :=
  run_shell ["gcloud"; "config"; "list"; "--format"; "value(core.account)"] "." ;;;
  ret account.

(** [write_bootstrap_config(filename)]. *)
Definition write_bootstrap_config (outputs_path account filename : string)
  : M unit :=
  write_file filename "" ;;;
  billing_account <- config_get "billing_account" ;;
  ba_id <- lift (last_segment billing_account) ;;
  billing_account_org <- config_get "billing_account_org" ;;
  ba_org <- lift (last_segment billing_account_org) ;;
  organization <- config_get "organization" ;;
  org <- lift (last_segment organization) ;;
  domain <- config_get "domain" ;;
  directory_customer_id <- config_get "directory_customer_id" ;;
  prefix <- config_get "prefix" ;;
  bootstrap_user <- get_current_user_from_gcloud account ;;
  let bootstrap_config : dict :=
    [("billing_account",
      PDict [("id", PStr ba_id); ("organization_id", PStr ba_org)]);
     ("organization",
      PDict [("id", PStr org); ("domain", domain);
             ("customer_id", directory_customer_id)]);
     ("prefix", prefix);
     ("outputs_location", PStr outputs_path);
     ("bootstrap_user", PStr bootstrap_user)] in
  self_config <- (fun w => Done (config w) w) ;;
  let bootstrap_config :=
    match Dict.get self_config "bootstrap_repositories" with
    | Some v => Dict.set bootstrap_config "cicd_repositories" v
    | None => bootstrap_config
    end in
  let bootstrap_config :=
    match Dict.get self_config "bootstrap_identity_providers" with
    | Some v => Dict.set bootstrap_config "federated_identity_providers" v
    | None => bootstrap_config
    end in
  write_config bootstrap_config filename.

(** [open(filename, "w")] wants a path: an integer would be taken for a
    file descriptor, which the world does not hold, and a value of any
    other type is a [TypeError]. *)
Definition as_path (v : pyval) : M string :=
  match v with
  | PStr path => ret path
  | PInt _ | PBool _ => stuck
  | _ => raise TypeError
  end.

(** [FastCicdSystemConfigurator.select_final_config]. *)
Definition FastCicdSystemConfigurator_select_final_config
  (outputs_path account : string) : M bool :=
  let cicd_output_path := "stages/00-cicd/terraform.tfvars" in
  choice <- input_dialog "final_config" "CI/CD Terraform configuration"
              "Write the CI/CD stage Terraform configuration to the following file:"
              cicd_output_path false ;;
  if truthy choice then
    config_set "cicd_output_path" (PStr cicd_output_path) ;;;
    write_cicd_config outputs_path cicd_output_path ;;;
    bootstrap_output_path <- config_get "bootstrap_output_path" ;;
    filename <- as_path bootstrap_output_path ;;
    write_bootstrap_config outputs_path account filename ;;;
    ret true
  else ret false.


(** [FastConfigurator.select_prefix]: the default is the first four
    characters of the domain without its dots. *)
Definition default_prefix (domain : string) : string :=
  substring 0 4 (replace_char "." "" domain).

Definition select_prefix : M bool :=
  domain <- config_get "domain" ;;
  match domain with
  | PStr d =>
      choice <- input_dialog "prefix" "Resource prefix"
                  "Select your own short organization resource prefix (eg. 4 letters):"
                  (default_prefix d) false ;;
      if truthy choice then config_set "prefix" choice ;;; ret true
      else ret false
  | _ => raise (AttributeError "replace")
  end.

End Writers.
Import Writers.

(** ** The bindings of [select_prerequisites] *)

Module Iam.

(** A binding of the policy: its role, its members, and whatever else it
    holds (a condition), which the code does not look at. *)
Record binding : Type := mkBinding {
  role : string;
  members : list string;
  others : dict
}.

(** [has_bindings], and [to_add], which starts as a copy of it. *)
Definition has_bindings : list (string * bool) :=
  [("roles/billing.admin", false);
   ("roles/logging.admin", false);
   ("roles/iam.organizationRoleAdmin", false);
   ("roles/resourcemanager.projectCreator", false)].

(** [user_account_iam]. *)
Definition user_account_iam (user_account : string) : string :=
  if contains "gserviceaccount.com" user_account
  then "serviceAccount:" ++ user_account
  else "user:" ++ user_account.

(** [x in l] for a list of strings. *)
Definition member (x : string) (l : list string) : bool :=
  existsb (String.eqb x) l.

(** The loop over the bindings of the policy: the bindings, [has_bindings]
    and [to_add] after it. *)
Fixpoint bindings_loop (user_account_iam : string) (bindings : list binding)
  (has_bindings to_add : list (string * bool))
  : list binding * list (string * bool) * list (string * bool) :=
  match bindings with
  | [] => ([], has_bindings, to_add)
  | b :: bindings' =>
      if Dict.mem has_bindings (role b) then
        let has_bindings := Dict.set has_bindings (role b) true in
        if negb (member user_account_iam (members b)) then
          let b := mkBinding (role b) (members b ++ [user_account_iam]) (others b) in
          let to_add := Dict.set to_add (role b) true in
          let '(bs, h, t) :=
            bindings_loop user_account_iam bindings' has_bindings to_add in
          (b :: bs, h, t)
        else
          let '(bs, h, t) :=
            bindings_loop user_account_iam bindings' has_bindings to_add in
          (b :: bs, h, t)
      else
        let '(bs, h, t) :=
          bindings_loop user_account_iam bindings' has_bindings to_add in
        (b :: bs, h, t)
  end.

(** The loop over the items of [has_bindings]: a role without a binding
    gets one, with the user as its only member. *)
Fixpoint roles_loop (user_account_iam : string) (items : list (string * bool))
  (bindings : list binding) (to_add : list (string * bool))
  : list binding * list (string * bool) :=
  match items with
  | [] => (bindings, to_add)
  | (r, binding_exist) :: items' =>
      if negb binding_exist then
        roles_loop user_account_iam items'
          (bindings ++ [mkBinding r [user_account_iam] []])
          (Dict.set to_add r true)
      else roles_loop user_account_iam items' bindings to_add
  end.

(** The two loops of [select_prerequisites] on the bindings the
    organization has: the bindings of the policy that is to be set, and
    [to_add]. *)
Definition prerequisite_bindings (user_account : string)
  (bindings : list binding) : list binding * list (string * bool) :=
  let '(bs, h, t) :=
    bindings_loop (user_account_iam user_account) bindings
      has_bindings has_bindings in
  roles_loop (user_account_iam user_account) h bs t.

(** The loop that builds the text of the confirmation: the lines of the
    roles to add, and [anything_to_add]. *)
Fixpoint roles_text (to_add : list (string * bool)) (text : string)
  (anything_to_add : bool) : string * bool :=
  match to_add with
  | [] => (text, anything_to_add)
  | (r, will_be_added) :: to_add' =>
      if will_be_added : bool
      then roles_text to_add' (text ++ nl ++ "  - " ++ r) true
      else roles_text to_add' text anything_to_add
  end.

End Iam.
Import Iam.

(** ** The outputs copied by [select_git] *)

Module Staging.

Definition repository_dependencies : list (string * list string) :=
  [("modules", []);
   ("bootstrap", []);
   ("cicd", ["00-bootstrap"]);
   ("resman", ["00-bootstrap"]);
   ("networking", ["00-bootstrap"; "01-resman"]);
   ("security", ["00-bootstrap"; "01-resman"]);
   ("data-platform", []);
   ("project-factory", [])].

(** [shutil.copy2(src, dst)] for a path [dst] that is not a directory: the
    copy is the file [dst]. *)
Definition copy_file (src dst : string) : M unit :=
  fun w =>
    match Dict.get (files w) src with
    | Some text => Done tt (with_files (fun fs => Dict.set fs dst text) w)
    | None => Raised (OSError src) w
    end.

(** [if os.path.exists(path): shutil.copy2(path, dst)]. *)
Definition copy_if_exists (path dst : string) : M unit :=
  found <- path_exists path ;;
  if found : bool then copy_file path dst else ret tt.

(** The items a [for] loop over a string goes through: its characters. *)
Fixpoint characters (s : string) : list string :=
  match s with
  | EmptyString => []
  | String c s' => String c "" :: characters s'
  end.

(** The two nested loops over [repository_dependencies[repository]]: the
    outer one goes through the names of the stages, the inner one through
    what the outer one gives, a string. *)
Definition copy_dependencies (outputs_path temp_dir repository : string)
  : M unit :=
  match Dict.get repository_dependencies repository with
  | None => raise (KeyError repository)
  | Some stages =>
      for_each stages
        (fun dependencies =>
           for_each (characters dependencies)
             (fun dependency =>
                let dependency_path :=
                  outputs_path ++ "/tfvars/" ++ dependency ++ ".auto.tfvars.json" in
                copy_if_exists dependency_path
                  (temp_dir ++ basename dependency_path)))
  end.

(** The part of [select_git] that copies the outputs of the earlier stages
    for one repository into [temp_dir], the directory [tempfile.mkdtemp]
    has made: the providers file, the globals, the workflow and the
    dependencies. *)
Definition copy_outputs (outputs_path temp_dir stage repository : string)
  : M unit :=
  let provider_path := outputs_path ++ "/providers/" ++ stage ++ "-providers.tf" in
  copy_if_exists provider_path (temp_dir ++ basename provider_path) ;;;
  let globals_path := outputs_path ++ "/tfvars/globals.auto.tfvars.json" in
  copy_if_exists globals_path (temp_dir ++ basename globals_path) ;;;
  let workflow_path :=
    outputs_path ++ "/workflows/" ++ repository ++ "-workflow.yaml" in
  copy_if_exists workflow_path (temp_dir ++ ".gitlab-ci.yml") ;;;
  copy_dependencies outputs_path temp_dir repository.

End Staging.
Import Staging.



(** ** Shapes of texts *)

Module Layout.

(** The text of one entry of a mapping written at depth [indent]. *)
Definition entry_text (indent : nat) (kv : string * pyval) : string :=
  spaces (indent * indent_spaces) ++ fst kv ++ " = "
  ++ print_hcl (snd kv) "" (S indent).

(** [n] steps up, each of them two dots and a slash. *)
Fixpoint dotdots (n : nat) : string :=
  match n with
  | O => ""
  | S n' => "../" ++ dotdots n'
  end.

(** A text that can stand between double quotes on one line. *)
Definition quotable (s : string) : bool :=
  all_chars
    (fun c => negb (Ascii.eqb c dquote) && negb (Ascii.eqb c newline)) s.

(** A text made of white space. *)
Definition blank (s : string) : bool := all_chars is_space s.

(** What [change_module_source_sub] puts after the module path. *)
Definition ref_suffix (tag : option string) : string :=
  match tag with
  | Some t => if (t =? "")%string then "" else "?ref=" ++ t
  | None => ""
  end.

(** A text without carriage return. *)
Definition unix_text (s : string) : bool :=
  all_chars (fun c => negb (Ascii.eqb c carriage_return)) s.

(** A role [select_prerequisites] asks for. *)
Definition required (r : string) : bool := Dict.mem has_bindings r.

(** The mapping from the roles asked for to what [f] says of each. *)
Definition role_table (f : string -> bool) : list (string * bool) :=
  map (fun kv => (fst kv, f (fst kv))) has_bindings.

(** A binding once the user has been made a member of it, if its role is
    asked for and the user is not a member yet. *)
Definition grant (u : string) (b : binding) : binding :=
  if required (role b) && negb (member u (members b))
  then mkBinding (role b) (members b ++ [u]) (others b)
  else b.

(** Some binding has the role [r]; some binding with the role [r] lacks
    the member [u]. *)
Definition has_role (r : string) (bindings : list binding) : bool :=
  existsb (fun b => (role b =? r)%string) bindings.

Definition lacks (u r : string) (bindings : list binding) : bool :=
  existsb (fun b => (role b =? r)%string && negb (member u (members b)))
    bindings.

(** The bindings made for the roles that have none. *)
Definition new_bindings (u : string) (bindings : list binding)
  : list binding :=
  map (fun kv => mkBinding (fst kv) [u] [])
    (filter (fun kv => negb (has_role (fst kv) bindings)) has_bindings).


(** What copying beside the directory [dir] does to the files: those that
    were there still are, and what is under [dir] is as it was. *)
Definition copied_beside (dir : string) (w w' : world) : Prop :=
  (forall path, Dict.mem (files w) path = true ->
                Dict.mem (files w') path = true)
  /\ (forall name, Dict.get (files w') (dir ++ "/" ++ name)
                   = Dict.get (files w) (dir ++ "/" ++ name)).


(** The exception the first repository name without a description gives. *)
Fixpoint first_unknown (items : dict) : option py_exception :=
  match items with
  | [] => None
  | (_, v) :: items' =>
      match repository_description v with
      | inl e => Some e
      | inr _ => first_unknown items'
      end
  end.

(** The keys of the configuration that go with a CI/CD system, and the
    name of its identity provider. *)
Definition namespace_key (cicd : string) : string :=
  if (cicd =? "github")%string then "github_organization" else "gitlab_group".

Definition repositories_key (cicd : string) : string :=
  if (cicd =? "github")%string then "github_repositories"
  else "gitlab_repositories".

Definition provider_of (cicd : string) : string :=
  if (cicd =? "github")%string then "github" else "gitlab".


(** The section of the CI/CD system in the mapping that is written, for
    GitHub and for gitlab.com. *)
Definition cicd_system (cicd : string) : string * pyval :=
  if (cicd =? "github")%string
  then ("github", PDict [("url", PNone); ("visibility", PStr "private")])
  else ("gitlab",
        PDict [("url", PStr "https://gitlab.com");
               ("project_visibility", PStr "private");
               ("shared_runners_enabled", PBool true)]).

(** The mapping that is written, with [r] for its repositories. *)
Definition cicd_content (outputs_path cicd : string) (r : dict) : dict :=
  [("cicd_repositories", PDict r); ("outputs_location", PStr outputs_path);
   cicd_system cicd].

(** The entry made for [modules] when the repositories have none. *)
Definition modules_first (d : dict) : dict :=
  if Dict.mem d "modules" then [] else [("modules", PNone)].

(** How [create_group] is read in the loop over the repositories. *)
Definition create_group_of (cicd : string) : M pyval :=
  if (cicd =? "github")%string then ret (PBool false)
  else config_get "gitlab_group_create".

(** The world when the loop over the repositories starts: the file is
    empty and the configuration holds the identity provider and the
    repositories of the bootstrap stage. *)
Definition before_repositories (cicd filename : string) (namespace : pyval)
  (w : world) : world :=
  with_config
    (fun c => Dict.set c "bootstrap_repositories"
                (bootstrap_repositories (provider_of cicd)))
    (with_config
       (fun c => Dict.set c "bootstrap_identity_providers"
                   (identity_providers (provider_of cicd) namespace PNone))
       (with_files (fun fs => Dict.set fs filename "") w)).


(** The repositories the form of the repositories step shows: those of the
    configuration, without [modules] when the upstream modules are used. *)
Definition repositories_shown (use_upstream : pyval) (d : dict) : option dict :=
  if truthy use_upstream
  then match Dict.pop d "modules" with
       | Some (_, d') => Some d'
       | None => None
       end
  else Some d.

(** The text a field of the form holds when Ok is pressed. *)
Definition field_text (edits : list (string * string)) (k : string) (v : pyval)
  : pyval :=
  match Dict.get edits k with
  | Some t => PStr t
  | None => v
  end.

(** [id] is what follows the last slash of [name]: it holds no slash, and
    [name] is [id] itself or ends in a slash followed by [id]. *)
Definition follows_last_slash (name id : string) : Prop :=
  has_slash id = false /\ (name = id \/ exists p, name = p ++ "/" ++ id).

End Layout.
Import Layout.



(** ** Induction on values *)

Section PyvalInduction.

Variable P : pyval -> Prop.

Hypothesis HNone : P PNone.
Hypothesis HBool : forall b, P (PBool b).
Hypothesis HInt : forall z, P (PInt z).
Hypothesis HFloat : forall r, P (PFloat r).
Hypothesis HStr : forall s, P (PStr s).
Hypothesis HList : forall l, Forall P l -> P (PList l).
Hypothesis HDict : forall d, Forall (fun kv => P (snd kv)) d -> P (PDict d).
Hypothesis HObject : forall t, P (PObject t).

Fixpoint pyval_induction (v : pyval) : P v :=
  match v with
  | PNone => HNone
  | PBool b => HBool b
  | PInt z => HInt z
  | PFloat r => HFloat r
  | PStr s => HStr s
  | PList l =>
      HList
        ((fix all (l : list pyval) : Forall P l :=
            match l with
            | [] => Forall_nil P
            | x :: l' => Forall_cons x (pyval_induction x) (all l')
            end) l)
  | PDict d =>
      HDict
        ((fix all (d : list (string * pyval))
            : Forall (fun kv => P (snd kv)) d :=
            match d with
            | [] => Forall_nil _
            | kv :: d' => Forall_cons kv (pyval_induction (snd kv)) (all d')
            end) d)
  | PObject t => HObject t
  end.

End PyvalInduction.

(** * Properties *)

(** ** Texts *)

Lemma append_assoc (a b c : string) : (a ++ b) ++ c = a ++ (b ++ c).
Proof. induction a as [|x a IH]; simpl; [reflexivity | now rewrite IH]. Qed.

Lemma append_nil_r (a : string) : a ++ "" = a.
Proof. induction a as [|x a IH]; simpl; [reflexivity | now rewrite IH]. Qed.

Example str_int_0 : str_int 0 = "0".
Proof. reflexivity. Qed.

Example str_int_neg : str_int (-120) = "-120".
Proof. reflexivity. Qed.

Example str_float_texts :
  map str_float
    [Finite false "15" 1; Finite false "1" 17; Finite false "1" (-4);
     Finite false "1" (-3); Finite true "0" 1; Finite false "1" 16;
     Finite false "12345678901234568" 18; Finite false "15" (-6);
     Infinity false; Infinity true; NaN]
  = ["1.5"; "1e+16"; "1e-05"; "0.0001"; "-0.0"; "1000000000000000.0";
     "1.2345678901234568e+17"; "1.5e-07"; "inf"; "-inf"; "nan"].
Proof. reflexivity. Qed.

Example parse_hcl_lines :
  parse_hcl ("a = 1" ++ nl ++ "b = [true, null]" ++ nl)
  = Some [("a", PInt 1); ("b", PList [PBool true; PNone])]
  /\ parse_hcl ("a = 1 b = 2" ++ nl) = None
  /\ parse_hcl ("a = 1" ++ nl ++ "a = 2" ++ nl) = None
  /\ parse_hcl ("0-x = 1" ++ nl) = None
  /\ parse_hcl ("a = nullb" ++ nl) = None
  /\ parse_hcl ("a = 1.5.2" ++ nl) = None.
Proof. repeat split. Qed.

Example readlines_keeps_line_feeds :
  readlines ("a" ++ nl ++ nl ++ "b") = ["a" ++ nl; nl; "b"].
Proof. reflexivity. Qed.

Example match_source_groups :
  match_source ("source  = " ++ q ++ "./x" ++ q ++ " # y")
  = Some ("source  = " ++ q, "./x", q, " # y").
Proof. reflexivity. Qed.

Example py_index_from_the_end :
  py_index ["a"; "b"; "c"] (-1) = Some "c" /\ py_index ["a"; "b"; "c"] (-4) = None.
Proof. split; reflexivity. Qed.

Example print_hcl_ab :
  print_hcl (PDict [("a", PInt 1); ("b", PDict [("c", PBool true)])]) "" 0
  = "a = 1" ++ nl ++ "b =   {" ++ nl ++ "  c = true" ++ nl ++ "  }" ++ nl ++ nl ++ nl.
Proof. reflexivity. Qed.

(** ** The serializer writes at the end of the file *)

Lemma print_hcl_scalar_list (f : string) (l : list pyval) :
  print_hcl_scalar f (PList l) = print_hcl_elems (f ++ "[") true l ++ "]".
Proof. reflexivity. Qed.

Lemma print_hcl_dict (d : dict) (f : string) (indent : nat) :
  print_hcl (PDict d) f indent =
  (let pad := spaces (indent * indent_spaces) in
   let f := f ++ pad in
   let f := if Nat.eqb indent 0 then f else f ++ "{" ++ nl in
   let f := print_hcl_items indent f d in
   let f := f ++ pad in
   if Nat.eqb indent 0 then f else f ++ "}" ++ nl) ++ nl.
Proof.
  cbn [print_hcl]. cbv zeta.
  assert (E : forall g,
             (fix items (f : string) (d : list (string * pyval)) {struct d}
                : string :=
                match d with
                | [] => f
                | (k, v) :: d' =>
                    items
                      (print_hcl v
                         ((f ++ spaces (indent * indent_spaces)) ++ k ++ " = ")
                         (S indent)) d'
                end) g d = print_hcl_items indent g d).
  { induction d as [|[k v] d IH]; intros g; simpl; [reflexivity | apply IH]. }
  rewrite E. reflexivity.
Qed.

Lemma print_hcl_not_dict (v : pyval) (f : string) (indent : nat) :
  (forall d, v <> PDict d) ->
  print_hcl v f indent = print_hcl_scalar f v ++ nl.
Proof. destruct v; intros H; try reflexivity. now destruct (H d). Qed.

Lemma print_hcl_scalar_app (v : pyval) :
  forall f, print_hcl_scalar f v = f ++ print_hcl_scalar "" v.
Proof.
  induction v using pyval_induction; intros f;
    try (simpl; now rewrite ?append_nil_r).
  rewrite !print_hcl_scalar_list. rewrite <- append_assoc. f_equal.
  simpl ("" ++ "[").
  assert (G : forall b g h,
             print_hcl_elems (g ++ h) b l = g ++ print_hcl_elems h b l).
  { induction H as [|v l Hv Hl IH]; intros b g h; simpl; [reflexivity|].
    destruct b.
    - rewrite (Hv (g ++ h)), (Hv h), append_assoc. apply IH.
    - rewrite (Hv ((g ++ h) ++ ", ")), (Hv (h ++ ", ")).
      rewrite !append_assoc. apply IH. }
  apply G.
Qed.

Lemma print_hcl_elems_app (l : list pyval) (b : bool) (g h : string) :
  print_hcl_elems (g ++ h) b l = g ++ print_hcl_elems h b l.
Proof.
  revert b g h. induction l as [|v l IH]; intros b g h; simpl; [reflexivity|].
  destruct b.
  - rewrite (print_hcl_scalar_app v (g ++ h)), (print_hcl_scalar_app v h).
    rewrite append_assoc. apply IH.
  - rewrite (print_hcl_scalar_app v ((g ++ h) ++ ", ")),
      (print_hcl_scalar_app v (h ++ ", ")).
    rewrite !append_assoc. apply IH.
Qed.

(** ** Rendering of scalar values *)

Lemma print_hcl_elems_render (l : list pyval) :
  Forall (fun v => print_hcl_scalar "" v = render v) l ->
  forall g b,
    print_hcl_elems g b l =
    g ++ match l with
         | [] => ""
         | _ => (if b then "" else ", ") ++ String.concat ", " (map render l)
         end.
Proof.
  induction 1 as [|v l Hv Hl IH]; intros g b; simpl print_hcl_elems.
  - now rewrite append_nil_r.
  - rewrite IH, print_hcl_scalar_app, Hv. cbn [map String.concat].
    destruct l as [|v' l]; destruct b; simpl;
      rewrite ?append_nil_r, ?append_assoc; reflexivity.
Qed.

Lemma print_hcl_scalar_render (v : pyval) :
  scalar_value v = true -> print_hcl_scalar "" v = render v.
Proof.
  induction v using pyval_induction; intros Hs; try reflexivity;
    try discriminate.
  rewrite print_hcl_scalar_list. cbn [scalar_value] in Hs.
  rewrite print_hcl_elems_render.
  - cbn [render]. destruct l; reflexivity.
  - rewrite forallb_forall in Hs. rewrite Forall_forall in H |- *.
    intros x Hx. apply H; auto.
Qed.

Lemma all_digits_string_of_uint (d : uint) :
  all_digits (NilEmpty.string_of_uint d) = true.
Proof. induction d; simpl; auto. Qed.

Lemma string_of_uint_to_uint (p : positive) :
  NilZero.string_of_uint (Pos.to_uint p) = NilEmpty.string_of_uint (Pos.to_uint p)
  /\ NilEmpty.string_of_uint (Pos.to_uint p) <> "".
Proof.
  pose proof (DecimalPos.Unsigned.to_uint_nonnil p) as Hn.
  destruct (Pos.to_uint p); [now destruct Hn | | | | | | | | | |];
    split; try reflexivity; discriminate.
Qed.

Lemma str_int_decimal (z : Z) : is_decimal_literal (str_int z) = true.
Proof.
  destruct z as [|p|p]; [reflexivity | |]; unfold str_int; simpl Z.to_int;
    simpl NilZero.string_of_int;
    destruct (string_of_uint_to_uint p) as [E Hne]; rewrite E.
  - pose proof (all_digits_string_of_uint (Pos.to_uint p)) as Hd.
    unfold is_decimal_literal.
    destruct (NilEmpty.string_of_uint (Pos.to_uint p)) as [|c t] eqn:Et;
      [now destruct Hne|].
    destruct (Ascii.eqb_spec c "-") as [->|_]; [discriminate Hd | exact Hd].
  - unfold is_decimal_literal. simpl Ascii.eqb.
    rewrite all_digits_string_of_uint, andb_true_r.
    destruct (String.eqb_spec (NilEmpty.string_of_uint (Pos.to_uint p)) "");
      [contradiction | reflexivity].
Qed.

Lemma str_int_read_back (z : Z) :
  option_map Z.of_int (NilZero.int_of_string (str_int z)) = Some z.
Proof.
  unfold str_int. rewrite NilZero.isi.
  - simpl. now rewrite DecimalZ.of_to.
  - destruct z; simpl; try discriminate.
    intros [= E]. exact (DecimalPos.Unsigned.to_uint_nonnil _ E).
  - destruct z; simpl; try discriminate.
    intros [= E]. exact (DecimalPos.Unsigned.to_uint_nonnil _ E).
Qed.

Lemma escape_quotes_escaped (s : string) (b : bool) :
  quotes_escaped b (replace_char dquote (String backslash q) s) = true.
Proof.
  revert b. induction s as [|c s IH]; intros b; [reflexivity|].
  cbn [replace_char]. destruct (Ascii.eqb_spec c dquote) as [->|Hc].
  - simpl. apply IH.
  - cbn [quotes_escaped]. destruct (Ascii.eqb_spec c dquote); [contradiction|].
    apply IH.
Qed.

Lemma escape_head (s : string) :
  match replace_char dquote (String backslash q) s with
  | String c _ => c <> dquote
  | EmptyString => True
  end.
Proof.
  destruct s as [|c s]; [exact I|]. cbn [replace_char].
  destruct (Ascii.eqb_spec c dquote) as [->|Hc]; simpl; [discriminate | exact Hc].
Qed.

Lemma unescape_escape (s : string) :
  unescape (replace_char dquote (String backslash q) s) = s.
Proof.
  induction s as [|c s IH]; [reflexivity|].
  cbn [replace_char]. destruct (Ascii.eqb_spec c dquote) as [->|Hc].
  - simpl. now rewrite IH.
  - cbn [unescape]. destruct (Ascii.eqb_spec c backslash) as [->|Hb].
    + pose proof (escape_head s) as Hh.
      destruct (replace_char dquote (String backslash q) s) as [|c' t] eqn:E.
      * now rewrite <- IH.
      * destruct (Ascii.eqb_spec c' dquote); [contradiction|].
        now rewrite IH.
    + now rewrite IH.
Qed.

(** ** Number literals *)

Lemma span_app (p : ascii -> bool) (t rest : string) :
  all_chars p t = true -> stops p rest -> span p (t ++ rest) = (t, rest).
Proof.
  intros Ht Hr. induction t as [|c t IH].
  - destruct rest as [|c r]; [reflexivity|]. simpl in *. now rewrite Hr.
  - cbn [all_chars] in Ht. apply andb_prop in Ht as [Hc Ht].
    simpl. rewrite Hc, (IH Ht). reflexivity.
Qed.

Lemma span_all (p : ascii -> bool) (t : string) :
  all_chars p t = true -> span p t = (t, "").
Proof.
  intros Ht. rewrite <- (append_nil_r t) at 1. now apply span_app.
Qed.

Lemma all_chars_impl (p p' : ascii -> bool) (t : string) :
  (forall c, p c = true -> p' c = true) ->
  all_chars p t = true -> all_chars p' t = true.
Proof.
  intros Hpp. induction t as [|c t IH]; [reflexivity|]. cbn [all_chars].
  intros H. apply andb_prop in H as [Hc Ht]. now rewrite (Hpp c Hc), (IH Ht).
Qed.

Lemma all_chars_app (p : ascii -> bool) (a b : string) :
  all_chars p (a ++ b) = all_chars p a && all_chars p b.
Proof.
  induction a as [|c a IH]; [reflexivity|]. cbn [append all_chars].
  now rewrite IH, andb_assoc.
Qed.

Lemma some_char_app (p : ascii -> bool) (a b : string) :
  some_char p (a ++ b) = some_char p a || some_char p b.
Proof.
  induction a as [|c a IH]; [reflexivity|]. cbn [append some_char].
  now rewrite IH, orb_assoc.
Qed.

Lemma all_digits_all_chars (t : string) :
  all_digits t = all_chars is_digit t.
Proof. induction t as [|c t IH]; [reflexivity|]. simpl. now rewrite IH. Qed.

Lemma all_digits_app (a b : string) :
  all_digits (a ++ b) = all_digits a && all_digits b.
Proof. rewrite !all_digits_all_chars. apply all_chars_app. Qed.

Lemma all_digits_zeros (n : nat) : all_digits (zeros n) = true.
Proof. induction n as [|n IH]; [reflexivity | exact IH]. Qed.

Lemma split_at_app (n : nat) (s : string) :
  s = fst (split_at n s) ++ snd (split_at n s).
Proof.
  revert s. induction n as [|n IH]; intros s; [reflexivity|].
  destruct s as [|c s]; [reflexivity|]. cbn [split_at].
  specialize (IH s). destruct (split_at n s) as [a b]. cbn [fst snd] in *.
  cbn [append]. now rewrite <- IH.
Qed.

Lemma split_at_length (n : nat) (s : string) :
  (n <= String.length s)%nat ->
  String.length (fst (split_at n s)) = n.
Proof.
  revert s. induction n as [|n IH]; intros s Hn; [reflexivity|].
  destruct s as [|c s]; [cbn in Hn; lia|]. cbn [split_at].
  specialize (IH s). destruct (split_at n s) as [a b]. cbn [fst] in *.
  cbn [String.length] in *. rewrite IH; lia.
Qed.

Lemma length_append (a b : string) :
  String.length (a ++ b) = (String.length a + String.length b)%nat.
Proof. induction a as [|c a IH]; [reflexivity|]. simpl. now rewrite IH. Qed.

Lemma str_int_digits (z : Z) :
  0 <= z -> all_digits (str_int z) = true /\ str_int z <> "".
Proof.
  destruct z as [|p|p]; [now split | | lia]. intros _.
  unfold str_int. simpl Z.to_int. simpl NilZero.string_of_int.
  destruct (string_of_uint_to_uint p) as [E Hne]. rewrite E.
  split; [apply all_digits_string_of_uint | exact Hne].
Qed.

(** The exponent is a sign and digits. *)
Lemma exponent_text_form (e : Z) :
  exists s d,
    exponent_text e = String s d
    /\ Ascii.eqb s "+" || Ascii.eqb s "-" = true
    /\ d <> "" /\ all_digits d = true.
Proof.
  unfold exponent_text.
  destruct (@str_int_digits (Z.abs e) (Z.abs_nonneg e)) as [Hd Hne].
  exists (if e <? 0 then "-"%char else "+"%char),
    ((if Z.abs e <? 10 then "0" else "") ++ str_int (Z.abs e)).
  split; [now destruct (e <? 0)|]. split; [now destruct (e <? 0)|].
  destruct (Z.abs e <? 10); cbn [append]; [split; [discriminate | exact Hd]|].
  now split.
Qed.

Lemma digit_not_minus (c : ascii) : is_digit c = true -> Ascii.eqb c "-" = false.
Proof.
  destruct c as [[|] [|] [|] [|] [|] [|] [|] [|]]; try discriminate; reflexivity.
Qed.

(** A sign, digits and what may follow them make a number literal. *)
Lemma number_literal_parts (negative : bool) (int fe : string) :
  int <> "" -> all_digits int = true -> stops is_digit fe ->
  is_fraction_exponent fe = true ->
  is_number_literal ((if negative then "-" else "") ++ int ++ fe) = true.
Proof.
  intros Hne Hd Hs Hfe. rewrite all_digits_all_chars in Hd.
  assert (E : (let (ds, rest) := span is_digit (int ++ fe) in
               negb (ds =? "")%string && is_fraction_exponent rest) = true).
  { rewrite (span_app _ _ _ Hd Hs), Hfe, andb_true_r.
    destruct int; [now destruct Hne | reflexivity]. }
  unfold is_number_literal. destruct negative; [exact E|].
  destruct int as [|c int']; [now destruct Hne|].
  cbn [append] in *. cbn [all_chars] in Hd.
  apply andb_prop in Hd as [Hc _]. now rewrite (digit_not_minus _ Hc).
Qed.

Lemma is_exponent_text (e : Z) : is_exponent ("e" ++ exponent_text e) = true.
Proof.
  destruct (exponent_text_form e) as (s & d & -> & Hs & Hne & Hd).
  cbn [append is_exponent]. rewrite Hs, Hd. cbn [Ascii.eqb orb andb].
  change (Ascii.eqb "e" "e") with true. cbn [orb andb].
  destruct d; [now destruct Hne | reflexivity].
Qed.

(** [str(x)] is a number literal, with a point or an exponent, for a
    finite float, and for no other. *)
Lemma str_float_literal (x : pyfloat) :
  float_digits x = true ->
  is_number_literal (str_float x) = is_finite x
  /\ (is_finite x = true -> some_char is_float_mark (str_float x) = true).
Proof.
  destruct x as [negative ds decpt|[|]|]; intros Hx;
    [|split; [reflexivity | discriminate] ..].
  cbn [float_digits] in Hx. apply andb_prop in Hx as [Hne Hd].
  apply negb_true_iff in Hne. apply String.eqb_neq in Hne.
  cbn [is_finite str_float]. cbv zeta.
  destruct ((decpt <=? -4) || (16 <? decpt)) eqn:Ee;
    [|destruct (decpt <=? 0) eqn:E0;
      [|destruct (decpt <? Z.of_nat (String.length ds)) eqn:El]].
  - (* the exponent form *)
    destruct ds as [|c ds0]; [now destruct Hne|].
    cbn [all_digits] in Hd. apply andb_prop in Hd as [Hc Hd0].
    change (split_at 1 (String c ds0)) with (String c "", ds0). cbv iota beta.
    split.
    + apply number_literal_parts.
      * discriminate.
      * cbn [all_digits]. now rewrite Hc.
      * destruct (String.eqb_spec ds0 ""); reflexivity.
      * destruct (String.eqb_spec ds0 "") as [->|Hn0].
        -- cbn [append]. change (String "e" (exponent_text (decpt - 1)))
             with ("e" ++ exponent_text (decpt - 1)).
           unfold is_fraction_exponent.
           change (Ascii.eqb "e" ".") with false. cbv iota.
           apply is_exponent_text.
        -- change (("." ++ ds0) ++ "e" ++ exponent_text (decpt - 1))
             with (String "." (ds0 ++ "e" ++ exponent_text (decpt - 1))).
           cbn [is_fraction_exponent]. rewrite Ascii.eqb_refl.
           rewrite all_digits_all_chars in Hd0.
           rewrite (span_app _ _ _ Hd0); [|reflexivity].
           rewrite is_exponent_text, orb_true_r, andb_true_r.
           destruct ds0; [now destruct Hn0 | reflexivity].
    + intros _. rewrite !some_char_app.
      change (some_char is_float_mark ("e" ++ exponent_text (decpt - 1)))
        with true.
      now rewrite !orb_true_r.
  - (* zeros between the point and the digits *)
    split.
    + change ("0." ++ zeros (Z.to_nat (- decpt)) ++ ds)
        with ("0" ++ String "." (zeros (Z.to_nat (- decpt)) ++ ds)).
      apply number_literal_parts; [discriminate | reflexivity | reflexivity |].
      cbn [is_fraction_exponent]. rewrite Ascii.eqb_refl.
      rewrite span_all
        by now rewrite <- all_digits_all_chars, all_digits_app, all_digits_zeros.
      cbn [String.eqb orb]. rewrite andb_true_r.
      destruct (zeros (Z.to_nat (- decpt))); [|reflexivity].
      destruct ds; [now destruct Hne | reflexivity].
    + intros _. now rewrite some_char_app, orb_true_r.
  - (* the point among the digits *)
    apply Z.leb_gt in E0. apply Z.ltb_lt in El.
    pose proof (split_at_app (Z.to_nat decpt) ds) as Es.
    pose proof (@split_at_length (Z.to_nat decpt) ds ltac:(lia)) as Ea.
    destruct (split_at (Z.to_nat decpt) ds) as [a b]. cbn [fst snd] in *.
    assert (Hlen : String.length ds = (Z.to_nat decpt + String.length b)%nat).
    { rewrite Es at 1. rewrite length_append. lia. }
    rewrite Es, all_digits_app in Hd. apply andb_prop in Hd as [Ha Hb].
    split.
    + apply number_literal_parts.
      * intros ->. cbn in Ea. lia.
      * exact Ha.
      * reflexivity.
      * change ("." ++ b) with (String "." b).
        cbn [is_fraction_exponent]. rewrite Ascii.eqb_refl.
        rewrite span_all by now rewrite <- all_digits_all_chars.
        cbn [String.eqb orb]. rewrite andb_true_r.
        destruct b; [cbn in Hlen; lia | reflexivity].
    + intros _. rewrite !some_char_app. cbn [append some_char].
      change (is_float_mark ".") with true. now rewrite !orb_true_r.
  - (* zeros up to the point *)
    split.
    + rewrite <- (append_assoc ds).
      apply number_literal_parts.
      * destruct ds; [now destruct Hne | discriminate].
      * now rewrite all_digits_app, Hd, all_digits_zeros.
      * reflexivity.
      * reflexivity.
    + intros _. rewrite !some_char_app.
      change (some_char is_float_mark ".0") with true.
      now rewrite !orb_true_r.
Qed.

(** C4, as the code has it.  A scalar value is written as the
    specification renders it: null as [null], a boolean as [true] or
    [false], an integer as its decimal text (an optional sign and digits
    only, which read back as the integer), a float as the text [str()]
    gives for it, which is a number literal with a point or an exponent
    for a finite float and for no other, a string between double quotes
    with each inner double quote after a backslash, a list as its rendered
    elements between brackets and separated by a comma and a space.  The
    mapping with [a] set to 1 and [b] set to the mapping of [c] to true is
    written with [a] before [b], and [c = true] one indentation level, two
    spaces, deeper. *)
Theorem print_hcl_scalar_renders (v : pyval) (f : string)
  (Hv : scalar_value v = true) :
  print_hcl_scalar f v = f ++ render v
  /\ render PNone = "null"
  /\ (forall b, render (PBool b) = if b then "true" else "false")
  /\ (forall z, render (PInt z) = str_int z
                /\ is_decimal_literal (str_int z) = true
                /\ option_map Z.of_int (NilZero.int_of_string (str_int z)) = Some z)
  /\ (forall x, float_digits x = true ->
                print_hcl_scalar f (PFloat (str_float x)) = f ++ str_float x
                /\ is_number_literal (str_float x) = is_finite x
                /\ (is_finite x = true ->
                    some_char is_float_mark (str_float x) = true))
  /\ (forall s, exists e, render (PStr s) = q ++ e ++ q
                /\ quotes_escaped false e = true /\ unescape e = s)
  /\ (forall l, render (PList l) = "[" ++ String.concat ", " (map render l) ++ "]")
  /\ print_hcl (PDict [("a", PInt 1); ("b", PDict [("c", PBool true)])]) "" 0
     = "a = 1" ++ nl
       ++ "b =   {" ++ nl
       ++ "  c = true" ++ nl
       ++ "  }" ++ nl ++ nl ++ nl.
Proof.
  split; [|split; [|split; [|split; [|split; [|split; [|split]]]]]];
    try reflexivity.
  - rewrite print_hcl_scalar_app. f_equal. now apply print_hcl_scalar_render.
  - intros z. split; [reflexivity|].
    split; [apply str_int_decimal | apply str_int_read_back].
  - intros x Hx. split; [reflexivity|]. now apply str_float_literal.
  - intros s. exists (replace_char dquote (String backslash q) s).
    repeat split; [apply escape_quotes_escaped | apply unescape_escape].
Qed.

Lemma print_hcl_scalar_renders_witness :
  print_hcl_scalar "x = "
    (PList [PInt 1; PStr "a"; PFloat "1.5"; PList [PNone; PBool false]])
  = "x = " ++ "[1, " ++ q ++ "a" ++ q ++ ", 1.5, [null, false]]".
Proof.
  exact (proj1 (print_hcl_scalar_renders
                  (PList [PInt 1; PStr "a"; PFloat "1.5";
                          PList [PNone; PBool false]])
                  "x = " eq_refl)).
Defined.

(** C4 fails as stated: a float is a number, and for the infinities and
    for not a number what is written, [inf], [-inf] or [nan], is no
    decimal literal. *)
Lemma float_without_literal :
  scalar_value (PFloat (str_float (Infinity false))) = true
  /\ print_hcl_scalar "x = " (PFloat (str_float (Infinity false))) = "x = inf"
  /\ print_hcl_scalar "x = " (PFloat (str_float (Infinity true))) = "x = -inf"
  /\ print_hcl_scalar "x = " (PFloat (str_float NaN)) = "x = nan"
  /\ is_number_literal "inf" = false
  /\ is_number_literal "-inf" = false
  /\ is_number_literal "nan" = false
  /\ ~ (forall x, float_digits x = true ->
                  is_number_literal (print_hcl_scalar "" (PFloat (str_float x)))
                  = true).
Proof.
  repeat split. intros H. specialize (H NaN eq_refl). discriminate H.
Qed.


(** ** Dictionaries *)

Section DictFacts.

Variable V : Type.
Implicit Types (d b : list (string * V)) (k : string) (v : V).

Lemma get_set_same d k v : Dict.get (Dict.set d k v) k = Some v.
Proof.
  induction d as [|[k' v'] d IH]; simpl.
  - now rewrite String.eqb_refl.
  - destruct (String.eqb_spec k' k) as [->|Hk]; simpl.
    + now rewrite String.eqb_refl.
    + destruct (String.eqb_spec k' k); [contradiction | exact IH].
Qed.

Lemma get_set_other d k k' v :
  k <> k' -> Dict.get (Dict.set d k v) k' = Dict.get d k'.
Proof.
  intros Hk. induction d as [|[k1 v1] d IH]; simpl.
  - destruct (String.eqb_spec k k'); [contradiction | reflexivity].
  - destruct (String.eqb_spec k1 k) as [->|H1]; simpl.
    + destruct (String.eqb_spec k k'); [contradiction | reflexivity].
    + destruct (String.eqb_spec k1 k'); [reflexivity | exact IH].
Qed.

Lemma set_set d k v v' : Dict.set (Dict.set d k v) k v' = Dict.set d k v'.
Proof.
  induction d as [|[k1 v1] d IH]; simpl.
  - now rewrite String.eqb_refl.
  - destruct (String.eqb_spec k1 k) as [->|H1]; simpl.
    + now rewrite String.eqb_refl.
    + destruct (String.eqb_spec k1 k); [contradiction | now rewrite IH].
Qed.

Lemma get_not_in d k : ~ In k (Dict.keys d) -> Dict.get d k = None.
Proof.
  induction d as [|[k1 v1] d IH]; simpl; [reflexivity|].
  intros Hn. destruct (String.eqb_spec k1 k) as [->|H1].
  - destruct Hn. now left.
  - apply IH. intros Hi. apply Hn. now right.
Qed.

Lemma get_update d b k :
  NoDup (Dict.keys b) ->
  Dict.get (Dict.update d b) k =
  match Dict.get b k with Some v => Some v | None => Dict.get d k end.
Proof.
  revert d. induction b as [|[k1 v1] b IH]; intros d Hnd; simpl; [reflexivity|].
  inversion Hnd as [|? ? Hn Hnd']; subst. rewrite IH by assumption.
  destruct (String.eqb_spec k1 k) as [->|H1].
  - now rewrite (@get_not_in b k Hn), get_set_same.
  - now rewrite get_set_other.
Qed.

Lemma get_merge a b k :
  NoDup (Dict.keys a) -> NoDup (Dict.keys b) ->
  Dict.get (Dict.merge a b) k =
  match Dict.get b k with Some v => Some v | None => Dict.get a k end.
Proof.
  intros Ha Hb. unfold Dict.merge. rewrite get_update by assumption.
  destruct (Dict.get b k); [reflexivity|]. rewrite get_update by assumption.
  now destruct (Dict.get a k).
Qed.

Lemma keys_set d k v :
  Dict.keys (Dict.set d k v) =
  if Dict.mem d k then Dict.keys d else (Dict.keys d ++ [k])%list.
Proof.
  unfold Dict.mem. induction d as [|[k1 v1] d IH]; simpl; [reflexivity|].
  destruct (String.eqb_spec k1 k) as [->|H1]; simpl; [reflexivity|].
  rewrite IH. now destruct (Dict.get d k).
Qed.

Lemma get_in_keys d k v : Dict.get d k = Some v -> In k (Dict.keys d).
Proof.
  induction d as [|[k1 v1] d IH]; simpl; [discriminate|].
  destruct (String.eqb_spec k1 k) as [->|H1]; [now left | right; auto].
Qed.

Lemma nodup_set d k v : NoDup (Dict.keys d) -> NoDup (Dict.keys (Dict.set d k v)).
Proof.
  intros Hd. rewrite keys_set. unfold Dict.mem.
  destruct (Dict.get d k) eqn:E; [assumption|].
  induction d as [|[k1 v1] d IH]; simpl in *.
  - constructor; [intros [] | constructor].
  - destruct (String.eqb_spec k1 k) as [->|H1]; [discriminate|].
    inversion Hd as [|? ? Hn Hd']; subst. constructor.
    + rewrite in_app_iff. intros [Hi|[->|[]]]; [contradiction | now destruct H1].
    + now apply IH.
Qed.

Lemma nodup_update d b :
  NoDup (Dict.keys d) -> NoDup (Dict.keys (Dict.update d b)).
Proof.
  revert d. induction b as [|[k v] b IH]; intros d Hd; simpl; [assumption|].
  apply IH. now apply nodup_set.
Qed.

Lemma nodup_merge a b : NoDup (Dict.keys (Dict.merge a b)).
Proof. unfold Dict.merge. apply nodup_update, nodup_update. constructor. Qed.

End DictFacts.

(** ** Values of an unsupported type *)

(** C2, as the code has it.  A value of an unsupported type raises nothing:
    [print_hcl_scalar] writes nothing for it, so its key is followed by the
    line feed alone, and the file holds the marker line and the whole
    mapping.  The one failure [write_config] raises is the formatter's. *)
Theorem write_config_unsupported (content : dict) (filename : string)
  (w : world) (rc : Z) (sh : list Z)
  (Hu : has_unsupported (PDict content) = true)
  (Hsh : shell w = rc :: sh) :
  exists w',
    write_config content filename w
    = (if rc =? 0 then Done tt w'
       else Raised (Exception ("Unable to terraform fmt " ++ filename ++ "!")) w')
    /\ Dict.get (files w') filename
       = Some (print_hcl (PDict content) ("# Written by configure.py" ++ nl ++ nl) 0)
    /\ (forall t f, print_hcl_scalar f (PObject t) = f)
    /\ (forall t k f indent,
          print_hcl_items indent f [(k, PObject t)]
          = f ++ spaces (indent * indent_spaces) ++ k ++ " = " ++ nl).
Proof.
  eexists. split; [|split; [|split]].
  - unfold write_config, write_file, terraform_format, run_shell, bind.
    simpl. rewrite Hsh. destruct (rc =? 0); reflexivity.
  - simpl. apply get_set_same.
  - reflexivity.
  - intros. simpl. now rewrite !append_assoc.
Qed.

Lemma write_config_unsupported_witness :
  exists w',
    write_config [("a", PObject "object")] "terraform.tfvars"
      (mkWorld [] [] [] [0] "" [] [] [])
    = Done tt w'
    /\ Dict.get (files w') "terraform.tfvars"
       = Some ("# Written by configure.py" ++ nl ++ nl ++ "a = " ++ nl ++ nl).
Proof.
  destruct (write_config_unsupported [("a", PObject "object")]
              "terraform.tfvars" (mkWorld [] [] [] [0] "" [] [] [])
              eq_refl eq_refl) as (w' & H1 & H2 & _).
  exists w'. split; [exact H1 | exact H2].
Defined.

(** C2 fails as stated: the mapping of [a] to an object is written without
    any error being raised, and the file holds the marker line and [a = ]. *)
Lemma unsupported_value_raises_nothing :
  has_unsupported (PDict [("a", PObject "object")]) = true
  /\ write_config [("a", PObject "object")] "terraform.tfvars"
       (mkWorld [] [] [] [0] "" [] [] [])
     = Done tt
         (mkWorld [] [] [] [] "" []
            [("terraform.tfvars",
              "# Written by configure.py" ++ nl ++ nl ++ "a = " ++ nl ++ nl)]
            [RunShell ["terraform"; "fmt"; "terraform.tfvars"] "."]).
Proof. split; reflexivity. Qed.

(** ** Seeding a wizard with the configuration of the previous one *)

Lemma own_repositories_eq (c : dict) (name : string) :
  own_repositories c name =
  Dict.set c name
    (PDict (map (fun kv => (fst kv, PStr (fst kv))) repositories)).
Proof.
  unfold own_repositories.
  assert (G : forall (l : list (string * string)) r c,
             Dict.get c name = Some (PDict r) ->
             fold_left
               (fun c (kv : string * string) =>
                  match Dict.get c name with
                  | Some (PDict r) =>
                      Dict.set c name (PDict (Dict.set r (fst kv) (PStr (fst kv))))
                  | _ => c
                  end) l c
             = Dict.set c name
                 (PDict (fold_left
                           (fun r (kv : string * string) =>
                              Dict.set r (fst kv) (PStr (fst kv))) l r))).
  { induction l as [|kv l IH]; intros r c1 Hc; cbn [fold_left].
    - revert Hc. clear. induction c1 as [|[k1 v1] c1 IH]; simpl; [discriminate|].
      destruct (String.eqb_spec k1 name) as [->|H1].
      + now intros [= ->].
      + intros H. f_equal. now apply IH.
    - rewrite Hc, (IH (Dict.set r (fst kv) (PStr (fst kv)))).
      + now rewrite set_set.
      + apply get_set_same. }
  rewrite (G repositories [] (Dict.set c name (PDict []))).
  - now rewrite set_set.
  - apply get_set_same.
Qed.

Lemma nodup_keys_dec (l : list string) : Dict.distinct l = true -> NoDup l.
Proof.
  induction l as [|k l IH]; simpl; [constructor|].
  intros H. apply andb_prop in H as [Hk Hl]. constructor; [|auto].
  intros Hi. apply negb_true_iff in Hk.
  assert (Ht : existsb (String.eqb k) l = true).
  { apply existsb_exists. exists k. split; [assumption | apply String.eqb_refl]. }
  congruence.
Qed.

(** C5, as the code has it.  The merge is shallow and the incoming
    configuration comes last: a key of the incoming configuration starts
    with the incoming value, whole, whether the later wizard has a default
    for it or not; a key only the defaults have keeps its default.  Only
    the repository mapping, assigned after the merge, starts with the
    wizard's own value. *)
Theorem later_wizard_starts_with_incoming (config : dict) (k : string)
  (Hnd : NoDup (Dict.keys config)) :
  Dict.get (FastCicdConfigurator_init config) k
  = match Dict.get config k with
    | Some v => Some v
    | None => Dict.get FastCicdConfigurator_config k
    end
  /\ (k <> "gitlab_repositories" ->
      Dict.get (FastGitlabConfigurator_init config) k
      = match Dict.get config k with
        | Some v => Some v
        | None =>
            match Dict.get FastDialogs_config k with
            | Some v => Some v
            | None => Dict.get FastGitlabConfigurator_config k
            end
        end)
  /\ (k <> "github_repositories" ->
      Dict.get (FastGithubConfigurator_init config) k
      = match Dict.get config k with
        | Some v => Some v
        | None =>
            match Dict.get FastDialogs_config k with
            | Some v => Some v
            | None => Dict.get FastGithubConfigurator_config k
            end
        end)
  /\ Dict.get (FastGitlabConfigurator_init config) "gitlab_repositories"
     = Some (PDict (map (fun kv => (fst kv, PStr (fst kv))) repositories))
  /\ Dict.get (FastGithubConfigurator_init config) "github_repositories"
     = Some (PDict (map (fun kv => (fst kv, PStr (fst kv))) repositories)).
Proof.
  assert (Hsys : forall class_config,
             NoDup (Dict.keys class_config) ->
             Dict.get
               (Dict.merge (FastCicdSystemConfigurator_init class_config config)
                  config) k
             = match Dict.get config k with
               | Some v => Some v
               | None =>
                   match Dict.get FastDialogs_config k with
                   | Some v => Some v
                   | None => Dict.get class_config k
                   end
               end).
  { intros cc Hcc. unfold FastCicdSystemConfigurator_init.
    rewrite !get_merge; try assumption; try apply nodup_merge.
    - now destruct (Dict.get config k).
    - apply nodup_keys_dec. reflexivity. }
  split; [|split; [|split; [|split]]].
  - unfold FastCicdConfigurator_init. apply get_merge; [|assumption].
    apply nodup_keys_dec. reflexivity.
  - intros Hk. unfold FastGitlabConfigurator_init.
    rewrite own_repositories_eq, get_set_other by congruence.
    apply Hsys. apply nodup_keys_dec. reflexivity.
  - intros Hk. unfold FastGithubConfigurator_init.
    rewrite own_repositories_eq, get_set_other by congruence.
    apply Hsys. apply nodup_keys_dec. reflexivity.
  - unfold FastGitlabConfigurator_init.
    rewrite own_repositories_eq. apply get_set_same.
  - unfold FastGithubConfigurator_init.
    rewrite own_repositories_eq. apply get_set_same.
Qed.

Lemma later_wizard_starts_with_incoming_witness :
  Dict.get
    (FastGitlabConfigurator_init
       [("cicd", PStr "gitlab-com");
        ("bootstrap_output_path", PStr "stages/00-bootstrap/terraform.tfvars")])
    "bootstrap_output_path"
  = Some (PStr "stages/00-bootstrap/terraform.tfvars").
Proof.
  refine (proj1 (proj2 (later_wizard_starts_with_incoming
                          [("cicd", PStr "gitlab-com");
                           ("bootstrap_output_path",
                            PStr "stages/00-bootstrap/terraform.tfvars")]
                          "bootstrap_output_path" _)) _).
  - apply nodup_keys_dec. reflexivity.
  - discriminate.
Defined.

(** C5 fails as stated: [git] is a default of [FastCicdConfigurator] and a
    key of the incoming configuration, and the wizard starts with the
    incoming value, not with its own default. *)
Lemma incoming_overwrites_default :
  Dict.get FastCicdConfigurator_config "git" = Some (PStr "ssh")
  /\ Dict.get [("git", PStr "https")] "git" = Some (PStr "https")
  /\ Dict.get (FastCicdConfigurator_init [("git", PStr "https")]) "git"
     = Some (PStr "https").
Proof. repeat split. Qed.

(** ** Module source rewriting *)

Lemma strip_prefix_app (p s r : string) :
  strip_prefix p s = Some r -> s = p ++ r.
Proof.
  revert s. induction p as [|a p IH]; intros s; simpl.
  - now intros [= ->].
  - destruct s as [|b s]; [discriminate|].
    destruct (Ascii.eqb_spec a b) as [->|_]; [|discriminate].
    intros H. now rewrite (IH _ H).
Qed.

Lemma skip_spaces_app (s : string) :
  s = fst (skip_spaces s) ++ snd (skip_spaces s).
Proof.
  induction s as [|c s IH]; [reflexivity|]. simpl.
  destruct (is_space c); [|reflexivity].
  destruct (skip_spaces s) as [w r]. simpl in *. now rewrite IH at 1.
Qed.

Lemma until_quote_app (s g r : string) :
  until_quote s = Some (g, r) -> s = g ++ q ++ r.
Proof.
  revert g. induction s as [|c s IH]; intros g; simpl; [discriminate|].
  destruct (Ascii.eqb_spec c dquote) as [->|_]; [now intros [= <- <-]|].
  destruct (Ascii.eqb c newline); [discriminate|].
  destruct (until_quote s) as [[g' r']|]; [|discriminate].
  intros [= <- <-]. simpl. now rewrite (IH g' eq_refl) at 1.
Qed.

Lemma lazy_group_app (s g r : string) :
  lazy_group s = Some (g, r) -> s = g ++ q ++ r.
Proof.
  destruct s as [|c s]; simpl; [discriminate|].
  destruct (Ascii.eqb c newline); [discriminate|].
  destruct (until_quote s) as [[g' r']|] eqn:E; [|discriminate].
  intros [= <- <-]. simpl. now rewrite (until_quote_app _ E) at 1.
Qed.

Lemma match_source_app (s g1 g2 g3 rest : string) :
  match_source s = Some (g1, g2, g3, rest) -> s = g1 ++ g2 ++ g3 ++ rest.
Proof.
  unfold match_source.
  destruct (strip_prefix "source" s) as [s1|] eqn:E1; [|discriminate].
  pose proof (skip_spaces_app s1) as E2.
  destruct (skip_spaces s1) as [w1 s2]. simpl in E2.
  destruct s2 as [|c2 s3]; [discriminate|].
  destruct (Ascii.eqb_spec c2 "=") as [->|Hc2].
  2:{ destruct c2 as [[] [] [] [] [] [] [] []]; try discriminate.
      now destruct Hc2. }
  pose proof (skip_spaces_app s3) as E3.
  destruct (skip_spaces s3) as [w2 s4]. simpl in E3.
  destruct s4 as [|c s5]; [discriminate|].
  destruct (Ascii.eqb_spec c dquote) as [->|_]; [|discriminate].
  destruct (lazy_group s5) as [[g r]|] eqn:E5; [|discriminate].
  intros [= <- <- <- <-].
  rewrite (strip_prefix_app _ _ E1), E2, E3, (lazy_group_app _ E5).
  unfold q. simpl. repeat (rewrite !append_assoc; simpl). reflexivity.
Qed.

Lemma strip_prefix_app_r (p s r y : string) :
  strip_prefix p s = Some r -> strip_prefix p (s ++ y) = Some (r ++ y).
Proof.
  revert s. induction p as [|a p IH]; intros s; simpl.
  - now intros [= ->].
  - destruct s as [|b s]; [discriminate|]. simpl.
    destruct (Ascii.eqb a b); [apply IH | discriminate].
Qed.

Lemma contains_unfold (sub s : string) :
  contains sub s =
  match strip_prefix sub s with
  | Some _ => true
  | None => match s with
            | EmptyString => false
            | String _ s' => contains sub s'
            end
  end.
Proof. destruct s; reflexivity. Qed.

Lemma contains_app_l (sub x y : string) :
  contains sub x = true -> contains sub (x ++ y) = true.
Proof.
  induction x as [|c x IH]; rewrite (contains_unfold sub (_ ++ y)),
    (contains_unfold sub).
  - destruct (strip_prefix sub "") as [r|] eqn:E; [|discriminate].
    intros _. now rewrite (strip_prefix_app_r _ _ y E).
  - destruct (strip_prefix sub (String c x)) as [r|] eqn:E.
    + intros _. now rewrite (strip_prefix_app_r _ _ y E).
    + intros H. destruct (strip_prefix sub (String c x ++ y)); [reflexivity|].
      simpl. now apply IH.
Qed.

Lemma contains_app_r (sub x y : string) :
  contains sub y = true -> contains sub (x ++ y) = true.
Proof.
  intros H. induction x as [|c x IH]; [exact H|].
  rewrite contains_unfold. destruct (strip_prefix sub (String c x ++ y));
    [reflexivity | exact IH].
Qed.

Lemma contains_false_app (sub x y : string) :
  contains sub (x ++ y) = false ->
  contains sub x = false /\ contains sub y = false.
Proof.
  intros H. split.
  - destruct (contains sub x) eqn:E; [|reflexivity].
    now rewrite (contains_app_l _ _ y E) in H.
  - destruct (contains sub y) eqn:E; [|reflexivity].
    now rewrite (contains_app_r _ x _ E) in H.
Qed.

Lemma re_sub_source_unchanged (target : string) (tag : option string)
  (fuel : nat) (line : string) :
  contains "../modules" line = false ->
  re_sub_source fuel (change_module_source_sub target tag) line = line.
Proof.
  revert line. induction fuel as [|fuel IH]; intros line Hc; [reflexivity|].
  cbn [re_sub_source]. destruct line as [|c line']; [reflexivity|].
  destruct (match_source (String c line')) as [[[[g1 g2] g3] rest]|] eqn:E.
  - pose proof (match_source_app _ E) as El. rewrite El in Hc.
    apply contains_false_app in Hc as [_ Hc].
    apply contains_false_app in Hc as [H2 Hc].
    apply contains_false_app in Hc as [_ Hr].
    rewrite (IH _ Hr). unfold change_module_source_sub. rewrite H2, El.
    now rewrite !append_assoc.
  - f_equal. apply IH. rewrite contains_unfold in Hc.
    destruct (strip_prefix "../modules" (String c line')); [discriminate | exact Hc].
Qed.

Lemma re_sub_source_no_module_path (target : string) (tag : option string)
  (fuel : nat) (line : string) :
  forallb (fun s => negb (contains "../modules" s)) (source_strings fuel line)
  = true ->
  re_sub_source fuel (change_module_source_sub target tag) line = line.
Proof.
  revert line. induction fuel as [|fuel IH]; intros line Hc; [reflexivity|].
  cbn [re_sub_source source_strings] in *.
  destruct line as [|c line']; [reflexivity|].
  destruct (match_source (String c line')) as [[[[g1 g2] g3] rest]|] eqn:E.
  - cbn [forallb] in Hc. apply andb_prop in Hc as [H2 Hr].
    apply negb_true_iff in H2.
    rewrite (IH _ Hr). unfold change_module_source_sub. rewrite H2.
    rewrite (match_source_app _ E). now rewrite !append_assoc.
  - f_equal. now apply IH.
Qed.

(** C7, as the code has it.  The code itself puts [git::] before the
    target repository: for the repository [https://example/repo.git] and
    the tag [v1.2.3] the line becomes the reference expected; with no
    tag, or an empty one, nothing follows the module path.  A line none of
    whose source strings (the text between the quotes of a [source =]
    assignment) contains a [../modules] path is left as it is, whatever
    the rest of the line holds; so is a line with no such assignment. *)
Theorem change_module_source_rewrites (target : string) (tag : option string)
  (line : string) (Hc : no_module_path line = true) :
  rewrite_line target tag line = line
  /\ rewrite_line "https://example/repo.git" (Some "v1.2.3")
       ("source = " ++ q ++ "../modules/network" ++ q)
     = "source = " ++ q
       ++ "git::https://example/repo.git//modules/network?ref=v1.2.3" ++ q
  /\ rewrite_line "https://example/repo.git" None
       ("source = " ++ q ++ "../modules/network" ++ q)
     = "source = " ++ q ++ "git::https://example/repo.git//modules/network" ++ q
  /\ rewrite_line "https://example/repo.git" (Some "")
       ("source = " ++ q ++ "../modules/network" ++ q)
     = "source = " ++ q ++ "git::https://example/repo.git//modules/network" ++ q
  /\ change_module_source
       ("module x {" ++ nl ++ "  source = " ++ q ++ "../modules/network" ++ q ++ nl
        ++ "  name   = " ++ q ++ "source" ++ q ++ nl ++ "}" ++ nl)
       "https://example/repo.git" (Some "v1.2.3")
     = "module x {" ++ nl ++ "  source = " ++ q
       ++ "git::https://example/repo.git//modules/network?ref=v1.2.3" ++ q ++ nl
       ++ "  name   = " ++ q ++ "source" ++ q ++ nl ++ "}" ++ nl
  /\ source_strings (String.length ("source = " ++ q ++ "../modules/network" ++ q))
       ("source = " ++ q ++ "../modules/network" ++ q)
     = ["../modules/network"]
  /\ (contains "../modules" line = false -> no_module_path line = true).
Proof.
  split; [|repeat split].
  - unfold rewrite_line. now apply re_sub_source_no_module_path.
  - clear Hc. unfold no_module_path. generalize (String.length line).
    intros fuel. revert line.
    induction fuel as [|fuel IH]; intros line H; [reflexivity|].
    cbn [source_strings]. destruct line as [|c line']; [reflexivity|].
    destruct (match_source (String c line')) as [[[[g1 g2] g3] rest]|] eqn:E.
    + rewrite (match_source_app _ E) in H.
      apply contains_false_app in H as [_ H].
      apply contains_false_app in H as [H2 H].
      apply contains_false_app in H as [_ Hr].
      cbn [forallb]. now rewrite H2, (IH _ Hr).
    + apply IH. rewrite contains_unfold in H.
      destruct (strip_prefix "../modules" (String c line'));
        [discriminate | exact H].
Qed.

(** A line whose source string is a local path, with a [../modules] path
    in a comment after it, is left as it is. *)
Lemma change_module_source_rewrites_witness :
  contains "../modules"
    ("  source = " ++ q ++ "./local/net" ++ q ++ " # was ../modules/net" ++ nl)
  = true
  /\ source_strings
       (String.length
          ("  source = " ++ q ++ "./local/net" ++ q ++ " # was ../modules/net"
           ++ nl))
       ("  source = " ++ q ++ "./local/net" ++ q ++ " # was ../modules/net" ++ nl)
     = ["./local/net"]
  /\ rewrite_line "https://example/repo.git" (Some "v1.2.3")
       ("  source = " ++ q ++ "./local/net" ++ q ++ " # was ../modules/net" ++ nl)
     = "  source = " ++ q ++ "./local/net" ++ q ++ " # was ../modules/net" ++ nl.
Proof.
  split; [reflexivity|]. split; [reflexivity|].
  exact (proj1 (change_module_source_rewrites "https://example/repo.git"
                  (Some "v1.2.3")
                  ("  source = " ++ q ++ "./local/net" ++ q
                   ++ " # was ../modules/net" ++ nl) eq_refl)).
Defined.

(** C7 fails as stated: with [git::https://example/repo.git] as the target
    repository the reference written starts with [git::git::]. *)
Lemma target_with_git_prefix :
  rewrite_line "git::https://example/repo.git" (Some "v1.2.3")
    ("source = " ++ q ++ "../modules/network" ++ q)
  = "source = " ++ q
    ++ "git::git::https://example/repo.git//modules/network?ref=v1.2.3" ++ q
  /\ rewrite_line "git::https://example/repo.git" (Some "v1.2.3")
       ("source = " ++ q ++ "../modules/network" ++ q)
     <> "source = " ++ q
        ++ "git::https://example/repo.git//modules/network?ref=v1.2.3" ++ q.
Proof. split; [reflexivity | discriminate]. Qed.

(** ** The token steps *)

Lemma select_token_present (variable id title text v : string) (w : world) :
  Dict.get (environ w) variable = Some v -> v <> "" ->
  select_token variable id title text w = Done true w.
Proof.
  intros Hv Hne. unfold select_token, bind at 1, getenv. rewrite Hv.
  cbn [env_missing].
  destruct (String.eqb_spec v ""); [contradiction | reflexivity].
Qed.

Lemma select_token_missing (variable id title text : string) (w : world)
  (a : action) (ops : list action) :
  env_missing (Dict.get (environ w) variable) = true ->
  operator w = a :: ops ->
  a = Previous \/ (exists s, a = Ok s) ->
  select_token variable id title text w
  = Done true
      (after_token_prompt variable (InputDialog id title text "" true) a ops w).
Proof.
  intros Hm Hop Ha. unfold select_token, bind, getenv. rewrite Hm.
  unfold input_dialog, turns. rewrite Hop.
  cbn [List.length input_dialog_loop]. unfold bind, run_app, bind, show.
  cbn [operator with_log]. rewrite Hop.
  destruct Ha as [->|[s ->]].
  - reflexivity.
  - unfold ret, after_token_prompt, with_operator, with_log. cbn.
    destruct (s =? "")%string; reflexivity.
Qed.

Lemma select_token_advances (variable id title text : string) (w w' : world)
  (b : bool) :
  select_token variable id title text w = Done b w' -> b = true.
Proof.
  unfold select_token, bind, getenv.
  destruct (env_missing (Dict.get (environ w) variable)).
  - destruct (input_dialog id title text "" true w) as [c w1| | | |];
      try discriminate.
    destruct (truthy c).
    + destruct c; try discriminate; unfold putenv, ret; now intros [= <- _].
    + unfold ret. now intros [= <- _].
  - unfold ret. now intros [= <- _].
Qed.

Lemma select_token_eq (variable id title text : string) (w : world)
  (a : action) (ops : list action) :
  operator w = a :: ops ->
  a = Previous \/ (exists s, a = Ok s) ->
  select_token variable id title text w
  = (if env_missing (Dict.get (environ w) variable)
     then Done true
            (after_token_prompt variable (InputDialog id title text "" true)
               a ops w)
     else Done true w).
Proof.
  intros Hop Ha.
  destruct (env_missing (Dict.get (environ w) variable)) eqn:E.
  - now apply select_token_missing.
  - destruct (Dict.get (environ w) variable) as [v|] eqn:Ev; [|discriminate].
    apply select_token_present with (v := v); [assumption|].
    intros ->. discriminate.
Qed.

(** C9, as the code has it.  A token step shows no dialog when its
    variable holds a text that is not empty, and leaves the world as it is.
    When the variable is absent or empty the step shows its dialog, a text
    field with the password flag, and a text that is not empty is exported
    to the variable; an empty text or Previous exports nothing. *)
Theorem token_step_prompts (w : world) (a : action) (ops : list action)
  (Hop : operator w = a :: ops)
  (Ha : a = Previous \/ (exists s, a = Ok s)) :
  select_gitlab_token w
  = (if env_missing (Dict.get (environ w) "GITLAB_TOKEN")
     then Done true (after_token_prompt "GITLAB_TOKEN" gitlab_token_prompt a ops w)
     else Done true w)
  /\ select_github_token w
     = (if env_missing (Dict.get (environ w) "GITHUB_TOKEN")
        then Done true (after_token_prompt "GITHUB_TOKEN" github_token_prompt a ops w)
        else Done true w).
Proof.
  split; now apply select_token_eq.
Qed.

Lemma token_step_prompts_witness :
  select_gitlab_token (mkWorld [] [] [Ok "glpat-1"] [] "" [] [] [])
  = Done true
      (mkWorld [("GITLAB_TOKEN", "glpat-1")] [] [] [] "" [] []
         [Show gitlab_token_prompt])
  /\ select_github_token
       (mkWorld [("GITHUB_TOKEN", "ghp-1")] [] [Ok "other"] [] "" [] [] [])
     = Done true
         (mkWorld [("GITHUB_TOKEN", "ghp-1")] [] [Ok "other"] [] "" [] [] []).
Proof.
  split.
  - exact (proj1 (token_step_prompts
                    (mkWorld [] [] [Ok "glpat-1"] [] "" [] [] [])
                    eq_refl (or_intror (ex_intro _ "glpat-1" eq_refl)))).
  - exact (proj2 (token_step_prompts
                    (mkWorld [("GITHUB_TOKEN", "ghp-1")] [] [Ok "other"] [] "" [] [] [])
                    eq_refl (or_intror (ex_intro _ "other" eq_refl)))).
Defined.

(** C9 fails as stated on both halves: with [GITLAB_TOKEN] present and
    empty the dialog is shown; with [GITHUB_TOKEN] absent and an empty
    text entered the dialog is shown and nothing is exported. *)
Lemma token_prompt_with_variable_present :
  Dict.mem [("GITLAB_TOKEN", "")] "GITLAB_TOKEN" = true
  /\ select_gitlab_token
       (mkWorld [("GITLAB_TOKEN", "")] [] [Ok "glpat-1"] [] "" [] [] [])
     = Done true
         (mkWorld [("GITLAB_TOKEN", "glpat-1")] [] [] [] "" [] []
            [Show gitlab_token_prompt])
  /\ Dict.mem (@nil (string * string)) "GITHUB_TOKEN" = false
  /\ select_github_token (mkWorld [] [] [Ok ""] [] "" [] [] [])
     = Done true (mkWorld [] [] [] [] "" [] [] [Show github_token_prompt]).
Proof. repeat split. Qed.

(** C10.  A token step never asks to go back: whenever it returns it
    returns [True].  On Previous, or on Ok with any text, it does return,
    and on Previous or an empty text the environment is as before, so a
    variable that was not set is still not set.  In the wizard, a turn on
    a token step that returns moves the index forward. *)
Theorem token_steps_always_advance (w : world) (a : action) (ops : list action)
  (Hop : operator w = a :: ops)
  (Ha : a = Previous \/ (exists s, a = Ok s)) :
  (exists w', select_gitlab_token w = Done true w'
              /\ (a = Previous \/ a = Ok "" -> environ w' = environ w))
  /\ (exists w', select_github_token w = Done true w'
                 /\ (a = Previous \/ a = Ok "" -> environ w' = environ w))
  /\ (forall w1 w2 b, select_gitlab_token w1 = Done b w2 -> b = true)
  /\ (forall w1 w2 b, select_github_token w1 = Done b w2 -> b = true)
  /\ (forall final i w1 i' w2,
        py_index FastGitlabConfigurator_setup_wizard i = Some "gitlab_token" ->
        wizard_turn FastGitlabConfigurator_setup_wizard
          (FastGitlabConfigurator_select final) i w1 = Done i' w2 ->
        i' = i + 1).
Proof.
  pose proof (select_token_eq "GITLAB_TOKEN" "gitlab_url" "Gitlab access token"
                ("You don't seem to have GITLAB_TOKEN environment variable set."
                 ++ nl ++ nl ++ "Please enter your token below:") w Hop Ha)
    as Hgl.
  pose proof (select_token_eq "GITHUB_TOKEN" "github_token" "GitHub access token"
                ("You don't seem to have GITHUB_TOKEN environment variable set."
                 ++ nl ++ nl ++ "Please enter your token below:") w Hop Ha)
    as Hgh.
  change (select_token "GITLAB_TOKEN" _ _ _) with select_gitlab_token in Hgl.
  change (select_token "GITHUB_TOKEN" _ _ _) with select_github_token in Hgh.
  split; [|split; [|split; [|split]]].
  - rewrite Hgl. clear Hgl Hgh.
    destruct (env_missing (Dict.get (environ w) "GITLAB_TOKEN"));
      eexists; split; try reflexivity.
    intros [->| ->]; reflexivity.
  - rewrite Hgh. clear Hgl Hgh.
    destruct (env_missing (Dict.get (environ w) "GITHUB_TOKEN"));
      eexists; split; try reflexivity.
    intros [->| ->]; reflexivity.
  - intros w1 w2 b. apply select_token_advances.
  - intros w1 w2 b. apply select_token_advances.
  - intros final i w1 i' w2 Hi. unfold wizard_turn. rewrite Hi. unfold bind.
    change (FastGitlabConfigurator_select final "gitlab_token")
      with select_gitlab_token.
    destruct (select_gitlab_token w1) as [b w3| | | |] eqn:E; try discriminate.
    rewrite (select_token_advances _ _ _ _ _ E). unfold ret.
    now intros [= <- _].
Qed.

Lemma token_steps_always_advance_witness :
  exists w',
    select_gitlab_token (mkWorld [] [] [Previous] [] "" [] [] [])
    = Done true w'
    /\ environ w' = [].
Proof.
  destruct (token_steps_always_advance
              (mkWorld [] [] [Previous] [] "" [] [] [])
              eq_refl (or_introl eq_refl)) as ((w' & H1 & H2) & _).
  exists w'. split; [exact H1 | exact (H2 (or_introl eq_refl))].
Defined.

(** ** Running Terraform until it succeeds *)

Lemma run_tasks_eq (cmd : list string) (dir : string) (w : world) (rc : Z)
  (sh : list Z) (a : action) (ops : list action) :
  shell w = rc :: sh -> operator w = a :: ops ->
  run_tasks cmd dir w
  = match a with
    | Ok _ => Done (rc, Some true) (after_run cmd dir sh ops w)
    | Previous => Done (rc, Some false) (after_run cmd dir sh ops w)
    | Quit => Done (rc, None) (after_run cmd dir sh ops w)
    | _ => Stuck (after_run cmd dir sh ops w)
    end.
Proof.
  intros Hsh Hop. unfold run_tasks, bind, putenv, run_shell, run_app, bind, show.
  cbn [shell operator with_environ with_log with_shell]. rewrite Hsh.
  cbn [shell operator with_environ with_log with_shell]. rewrite Hop.
  destruct a; reflexivity.
Qed.

Lemma run_tasks_done (cmd : list string) (dir : string) (w w1 : world)
  (rc : Z) (result : option bool) :
  run_tasks cmd dir w = Done (rc, result) w1 ->
  exists sh a ops,
    shell w = rc :: sh /\ operator w = a :: ops
    /\ w1 = after_run cmd dir sh ops w
    /\ result = match a with
                | Ok _ => Some true
                | Previous => Some false
                | _ => None
                end
    /\ (a = Quit \/ a = Previous \/ exists t, a = Ok t).
Proof.
  destruct (shell w) as [|rc' sh] eqn:Hsh.
  { unfold run_tasks, bind, putenv, run_shell.
    cbn [shell with_environ]. rewrite Hsh. discriminate. }
  destruct (operator w) as [|a ops] eqn:Hop.
  { unfold run_tasks, bind, putenv, run_shell, run_app, bind, show.
    cbn [shell operator with_environ with_log with_shell]. rewrite Hsh.
    cbn [shell operator with_environ with_log with_shell]. rewrite Hop.
    discriminate. }
  rewrite (run_tasks_eq cmd dir w Hsh Hop).
  destruct a; try discriminate; intros [= <- <- <-];
    exists sh; eexists; exists ops; repeat split; eauto.
Qed.

Lemma runs_shift (n : nat) (cmd : list string) (dir : string) (l : list call) :
  (runs n cmd dir ++ Show (TerraformDialog cmd) :: RunShell cmd dir :: l
   = runs (S n) cmd dir ++ l)%list.
Proof.
  induction n as [|n IH]; [reflexivity|].
  change (runs (S n) cmd dir)
    with (Show (TerraformDialog cmd) :: RunShell cmd dir :: runs n cmd dir).
  rewrite <- !app_comm_cons. rewrite IH. reflexivity.
Qed.

Lemma run_terraform_loop_true (cmd : list string) (dir : string) (fuel : nat) :
  forall w w',
    run_terraform_loop fuel cmd dir w = Done true w' ->
    exists failed texts,
      Forall (fun rc => rc <> 0) failed
      /\ shell w = (failed ++ 0 :: shell w')%list
      /\ operator w = (map Ok texts ++ operator w')%list
      /\ List.length texts = S (List.length failed)
      /\ log w' = (runs (S (List.length failed)) cmd dir ++ log w)%list
      /\ config w' = config w.
Proof.
  induction fuel as [|fuel IH]; intros w w'; [discriminate|].
  cbn [run_terraform_loop]. unfold bind at 1.
  destruct (run_tasks cmd dir w) as [[rc result] w1| | | |] eqn:E;
    try discriminate.
  apply run_tasks_done in E as (sh & a & ops & Hsh & Hop & -> & -> & Ha).
  destruct Ha as [->|[->|[t ->]]].
  - (* Quit *)
    unfold bind, maybe_quit, bind, run_app, bind, show.
    cbn [operator with_log after_run].
    destruct ops as [|a1 ops1]; [discriminate|].
    destruct a1; try discriminate.
    rewrite andb_false_r. discriminate.
  - (* Previous *)
    unfold bind, ret. rewrite andb_false_r. discriminate.
  - (* Ok *)
    unfold bind at 1. unfold ret at 1. rewrite andb_true_r. cbn [negb].
    destruct (Z.eqb_spec rc 0) as [->|Hrc].
    + unfold ret. intros [= <-]. exists [], [t]. cbn.
      repeat split; auto.
    + intros H. apply IH in H as (failed & texts & Hf & Hs & Ho & Hl & Hlog & Hc).
      exists (rc :: failed), (t :: texts). cbn in Hs, Ho, Hlog, Hc |- *.
      repeat split; auto.
      * rewrite Hsh, Hs. reflexivity.
      * rewrite Hop, Ho. reflexivity.
      * rewrite Hlog.
        exact (runs_shift (S (List.length failed)) cmd dir (log w)).
Qed.

Lemma dialog_fuel_run_terraform (cmd : list string) (dir : string) (fuel : nat) :
  forall w w',
    (List.length (operator w) < fuel)%nat ->
    run_terraform_loop fuel cmd dir w <> OutOfFuel w'.
Proof.
  induction fuel as [|fuel IH]; intros w w' Hlt; [lia|].
  cbn [run_terraform_loop]. unfold bind at 1.
  destruct (run_tasks cmd dir w) as [[rc result] w1| | | |] eqn:E;
    try discriminate.
  - apply run_tasks_done in E as (sh & a & ops & Hsh & Hop & -> & -> & Ha).
    rewrite Hop in Hlt. cbn in Hlt.
    destruct Ha as [->|[->|[t ->]]].
    + unfold bind, maybe_quit, bind, run_app, bind, show.
      cbn [operator with_log after_run].
      destruct ops as [|a1 ops1]; [discriminate|].
      destruct a1; try discriminate.
      rewrite andb_false_r. discriminate.
    + unfold bind, ret. rewrite andb_false_r. discriminate.
    + unfold bind at 1. unfold ret at 1. rewrite andb_true_r. cbn [negb].
      destruct (rc =? 0); [discriminate|]. apply IH. cbn. lia.
  - exfalso. revert E. unfold run_tasks, bind, putenv, run_shell, run_app, bind, show.
    cbn [shell operator with_environ with_log with_shell].
    destruct (shell w); [discriminate|].
    cbn [shell operator with_environ with_log with_shell].
    destruct (operator w) as [|[]]; discriminate.
Qed.

(** The retry loop by itself: [run_terraform_until_ok] returns [True] only
    after a run of the command that ended with exit code 0 and on which
    the operator pressed Ok; every run before it ended with another exit
    code and was followed by Ok (Retry); all the runs are of the same
    command in the same directory, and the configuration is untouched.
    After an exit code other than 0 and Ok the loop runs the command
    again, on Previous it returns [False], and it never gives up. *)
Lemma run_terraform_until_ok_success (cmd : list string) (dir : string)
  (w w' : world)
  (H : run_terraform_until_ok cmd dir w = Done true w') :
  (exists failed texts,
      Forall (fun rc => rc <> 0) failed
      /\ shell w = (failed ++ 0 :: shell w')%list
      /\ operator w = (map Ok texts ++ operator w')%list
      /\ List.length texts = S (List.length failed)
      /\ log w' = (runs (S (List.length failed)) cmd dir ++ log w)%list
      /\ config w' = config w)
  /\ (forall fuel w1 rc sh t ops,
        shell w1 = rc :: sh -> operator w1 = Ok t :: ops ->
        run_terraform_loop (S fuel) cmd dir w1
        = if rc =? 0 then Done true (after_run cmd dir sh ops w1)
          else run_terraform_loop fuel cmd dir (after_run cmd dir sh ops w1))
  /\ (forall fuel w1 rc sh ops,
        shell w1 = rc :: sh -> operator w1 = Previous :: ops ->
        run_terraform_loop (S fuel) cmd dir w1
        = Done false (after_run cmd dir sh ops w1))
  /\ (forall w1 w2, run_terraform_until_ok cmd dir w1 <> OutOfFuel w2).
Proof.
  split; [|split; [|split]].
  - exact (run_terraform_loop_true cmd dir _ _ H).
  - intros fuel w1 rc sh t ops Hsh Hop. cbn [run_terraform_loop].
    unfold bind at 1. rewrite (run_tasks_eq cmd dir w1 Hsh Hop).
    unfold bind at 1. unfold ret at 1. rewrite andb_true_r. cbn [negb].
    destruct (rc =? 0); reflexivity.
  - intros fuel w1 rc sh ops Hsh Hop. cbn [run_terraform_loop].
    unfold bind at 1. rewrite (run_tasks_eq cmd dir w1 Hsh Hop).
    unfold bind, ret. rewrite andb_false_r. reflexivity.
  - intros w1 w2. unfold run_terraform_until_ok, turns.
    apply dialog_fuel_run_terraform. lia.
Qed.

Example run_terraform_until_ok_retry :
  run_terraform_until_ok ["terraform"; "apply"; "-auto-approve"] "stages/00-cicd"
    (mkWorld [] [] [Ok ""; Ok ""; Previous] [1; 0; 7] "" [] [] [])
  = Done true
      (mkWorld [("TF_IN_AUTOMATION", "1"); ("TF_INPUT", "0");
                ("TF_CLI_ARGS", "-no-color")]
         [] [Previous] [7] "" [] []
         (runs 2 ["terraform"; "apply"; "-auto-approve"] "stages/00-cicd")).
Proof. vm_compute. reflexivity. Qed.

Example dirname_of_output_path :
  dirname "stages/00-bootstrap/terraform.tfvars" = "stages/00-bootstrap"
  /\ basename "outputs/providers/00-cicd-providers.tf" = "00-cicd-providers.tf"
  /\ dirname "terraform.tfvars" = "" /\ dirname "/terraform.tfvars" = "/".
Proof. repeat split. Qed.

(** C8 on the code.  The retry loop keeps its part: it returns [True] only
    for a run that ended with exit code 0 and Ok, and [False] when the
    operator leaves a failed run with Previous.  [select_terraform] does
    not look at that value: with every command failing and the operator
    pressing Previous each time, never Retry and never Quit, the four
    commands are run once each, the step returns [True] and the wizard
    moves from index 0 to index 1. *)
Theorem wizard_advances_past_failing_terraform (select_git : M bool) :
  wizard_turn FastCicdConfigurator_setup_wizard
    (FastCicdConfigurator_select "/fast/outputs" select_git) 0
    (mkWorld []
       [("bootstrap_output_path", PStr "stages/00-bootstrap/terraform.tfvars");
        ("cicd_output_path", PStr "stages/00-cicd/terraform.tfvars")]
       [Yes; Previous; Previous; Previous; Previous] [1; 1; 1; 1] "" [] [] [])
  = Done 1
      (mkWorld [("TF_IN_AUTOMATION", "1"); ("TF_INPUT", "0");
                ("TF_CLI_ARGS", "-no-color")]
         [("bootstrap_output_path", PStr "stages/00-bootstrap/terraform.tfvars");
          ("cicd_output_path", PStr "stages/00-cicd/terraform.tfvars")]
         [] [] "" [] []
         (runs 1 ["terraform"; "apply"; "-auto-approve"] "stages/00-cicd"
          ++ runs 1 ["terraform"; "init"; "-migrate-state"; "-force-copy"]
               "stages/00-cicd"
          ++ runs 1 ["terraform"; "apply"; "-auto-approve"] "stages/00-bootstrap"
          ++ runs 1 ["terraform"; "init"; "-migrate-state"; "-force-copy"]
               "stages/00-bootstrap"
          ++ [Show (YesNoDialog "terraform" "Run Terraform?"
                      "Now that CI/CD is configured, would you like me to run Terraform?")])%list)
  /\ (forall cmd dir fuel w rc sh ops,
        shell w = rc :: sh -> operator w = Previous :: ops ->
        run_terraform_loop (S fuel) cmd dir w
        = Done false (after_run cmd dir sh ops w))
  /\ (forall cmd dir fuel w rc sh t ops,
        shell w = rc :: sh -> operator w = Ok t :: ops ->
        run_terraform_loop (S fuel) cmd dir w
        = if rc =? 0 then Done true (after_run cmd dir sh ops w)
          else run_terraform_loop fuel cmd dir (after_run cmd dir sh ops w)).
Proof.
  split; [vm_compute; reflexivity|]. split.
  - intros cmd dir fuel w rc sh ops Hsh Hop. cbn [run_terraform_loop].
    unfold bind at 1. rewrite (run_tasks_eq cmd dir w Hsh Hop).
    unfold bind, ret. rewrite andb_false_r. reflexivity.
  - intros cmd dir fuel w rc sh t ops Hsh Hop. cbn [run_terraform_loop].
    unfold bind at 1. rewrite (run_tasks_eq cmd dir w Hsh Hop).
    unfold bind at 1. unfold ret at 1. rewrite andb_true_r. cbn [negb].
    destruct (rc =? 0); reflexivity.
Qed.

Lemma wizard_advances_past_failing_terraform_witness :
  run_terraform_loop 1 ["terraform"; "init"; "-migrate-state"; "-force-copy"]
    "stages/00-bootstrap" (mkWorld [] [] [Previous] [1] "" [] [] [])
  = Done false
      (after_run ["terraform"; "init"; "-migrate-state"; "-force-copy"]
         "stages/00-bootstrap" [] [] (mkWorld [] [] [Previous] [1] "" [] [] [])).
Proof.
  exact (proj1 (proj2 (wizard_advances_past_failing_terraform stuck))
           ["terraform"; "init"; "-migrate-state"; "-force-copy"]
           "stages/00-bootstrap" 0%nat
           (mkWorld [] [] [Previous] [1] "" [] [] []) 1 [] [] eq_refl eq_refl).
Defined.

(** ** The wizard driver *)

Section DriverFacts.

Variable setup_wizard : list string.
Variable select : string -> M bool.






End DriverFacts.

Lemma maybe_quit_eq (w : world) (a : action) (ops : list action) :
  operator w = a :: ops ->
  maybe_quit w
  = match a with
    | Yes => Exited (after_confirmation ops w)
    | No => Done tt (after_confirmation ops w)
    | _ => Stuck (after_confirmation ops w)
    end.
Proof.
  intros Hop. unfold maybe_quit, bind, run_app, bind, show.
  cbn [operator with_log]. rewrite Hop. destruct a; reflexivity.
Qed.

Lemma run_app_eq (p : prompt) (w : world) (a : action) (ops : list action) :
  operator w = a :: ops ->
  run_app p w = Done a (with_operator ops (with_log (Show p) w)).
Proof.
  intros Hop. unfold run_app, bind, show. cbn [operator with_log].
  now rewrite Hop.
Qed.

(** ** The dialog loops never run out of turns *)

Ltac dialog_turn Hop :=
  cbn [input_dialog_loop yesno_dialog_loop select_dialog_loop
       multi_input_dialog_loop];
  unfold bind at 1; rewrite (run_app_eq _ _ Hop).

Ltac quit_turn IH p w ops Hlt :=
  let a := fresh "a" in
  let ops' := fresh "ops" in
  unfold bind at 1;
  destruct ops as [|a ops'];
  [unfold maybe_quit, bind, run_app, bind, show; cbn; discriminate
  |rewrite (@maybe_quit_eq (with_operator (a :: ops') (with_log (Show p) w))
              a ops' eq_refl);
   destruct a; try discriminate; apply IH; cbn in Hlt |- *; lia].

Lemma input_dialog_loop_fuel (p : prompt) (fuel : nat) :
  forall w w',
    (List.length (operator w) < fuel)%nat ->
    input_dialog_loop fuel p w <> OutOfFuel w'.
Proof.
  induction fuel as [|fuel IH]; intros w w' Hlt; [lia|].
  destruct (operator w) as [|a ops] eqn:Hop.
  - cbn [input_dialog_loop]. unfold bind, run_app, bind, show.
    cbn [operator with_log]. rewrite Hop. discriminate.
  - dialog_turn Hop. cbn in Hlt. destruct a; try discriminate.
    quit_turn IH p w ops Hlt.
Qed.

Lemma yesno_dialog_loop_fuel (p : prompt) (fuel : nat) :
  forall w w',
    (List.length (operator w) < fuel)%nat ->
    yesno_dialog_loop fuel p w <> OutOfFuel w'.
Proof.
  induction fuel as [|fuel IH]; intros w w' Hlt; [lia|].
  destruct (operator w) as [|a ops] eqn:Hop.
  - cbn [yesno_dialog_loop]. unfold bind, run_app, bind, show.
    cbn [operator with_log]. rewrite Hop. discriminate.
  - dialog_turn Hop. cbn in Hlt. destruct a; try discriminate.
    quit_turn IH p w ops Hlt.
Qed.

Lemma select_dialog_loop_fuel (p : prompt) (fuel : nat) :
  forall w w',
    (List.length (operator w) < fuel)%nat ->
    select_dialog_loop fuel p w <> OutOfFuel w'.
Proof.
  induction fuel as [|fuel IH]; intros w w' Hlt; [lia|].
  destruct (operator w) as [|a ops] eqn:Hop.
  - cbn [select_dialog_loop]. unfold bind, run_app, bind, show.
    cbn [operator with_log]. rewrite Hop. discriminate.
  - dialog_turn Hop. cbn in Hlt. destruct a; try discriminate.
    quit_turn IH p w ops Hlt.
Qed.

Lemma dialogs_never_out_of_fuel (id title text value : string)
  (password : bool) (w w' : world) :
  input_dialog id title text value password w <> OutOfFuel w'
  /\ yesno_dialog id title text w <> OutOfFuel w'.
Proof.
  split.
  - apply input_dialog_loop_fuel. unfold turns. lia.
  - apply yesno_dialog_loop_fuel. unfold turns. lia.
Qed.




(** ** Entering the repositories step a second time *)

Lemma select_repositories_after_pop (key title text : string) (w : world)
  (d : dict) :
  Dict.get (config w) "use_upstream" = Some (PBool true) ->
  Dict.get (config w) key = Some (PDict d) ->
  Dict.get d "modules" = None ->
  select_repositories key title text w = Raised (KeyError "modules") w.
Proof.
  intros Hu Hk Hm. unfold select_repositories.
  unfold bind at 1. unfold config_get at 1. rewrite Hu.
  unfold bind at 1. cbn [truthy]. unfold bind at 1. unfold config_get at 1.
  rewrite Hk.
  assert (Hp : Dict.pop d "modules" = None).
  { clear -Hm. induction d as [|[k v] d IH]; [reflexivity|]. simpl in *.
    destruct (k =? "modules")%string; [discriminate|]. now rewrite IH. }
  now rewrite Hp.
Qed.

Lemma select_repositories_previous (key title text : string) (w : world)
  (d : dict) (values fields : list (string * string)) (ops : list action) :
  Dict.get (config w) "use_upstream" = Some (PBool false) ->
  Dict.get (config w) key = Some (PDict d) ->
  repository_labels d = inr values ->
  text_fields values d = inr fields ->
  operator w = Previous :: ops ->
  select_repositories key title text w
  = Done false
      (with_operator ops
         (with_log (Show (MultiInputDialog key title text values fields)) w)).
Proof.
  intros Hu Hk Hl Hf Hop. unfold select_repositories.
  unfold bind at 1. unfold config_get at 1. rewrite Hu.
  unfold bind at 1. cbn [truthy]. unfold ret at 1.
  unfold bind at 1. unfold config_get at 1. rewrite Hk, Hl.
  unfold bind at 1. unfold multi_input_dialog. rewrite Hf.
  unfold turns. rewrite Hop. cbn [List.length multi_input_dialog_loop].
  unfold bind at 1. now rewrite (run_app_eq _ w Hop).
Qed.

(** C6 on the code.  In the GitLab wizard with the upstream modules chosen,
    the operator presses Previous in the repositories step and confirms the
    group again: the second entry into the repositories step raises
    [KeyError] for [modules], which the first entry has popped from the
    mapping of the configuration.  The same holds for any world in which
    [modules] is no longer a key of the repositories.  Without the
    upstream modules the step does what the claim says: the fields of its
    form start with the names the configuration holds. *)
Theorem reentering_repositories_step_fails (final : M bool) :
  exception_of
    (run_wizard FastGitlabConfigurator_setup_wizard
       (FastGitlabConfigurator_select final) 7
       (mkWorld [("GITLAB_TOKEN", "glpat-1")]
          (FastGitlabConfigurator_init
             [("cicd", PStr "gitlab-com"); ("domain", PStr "example.com")])
          [Yes; Ok "fast"; Previous; Ok "fast"] [] "v30.0.0"
          [("fast", "FAST")] [] []))
  = Some (KeyError "modules")
  /\ (forall w d,
        Dict.get (config w) "use_upstream" = Some (PBool true) ->
        Dict.get (config w) "gitlab_repositories" = Some (PDict d) ->
        Dict.get d "modules" = None ->
        select_gitlab_repositories w = Raised (KeyError "modules") w)
  /\ (forall w d,
        Dict.get (config w) "use_upstream" = Some (PBool true) ->
        Dict.get (config w) "github_repositories" = Some (PDict d) ->
        Dict.get d "modules" = None ->
        select_github_repositories w = Raised (KeyError "modules") w)
  /\ (forall w d values fields ops,
        Dict.get (config w) "use_upstream" = Some (PBool false) ->
        Dict.get (config w) "gitlab_repositories" = Some (PDict d) ->
        repository_labels d = inr values ->
        text_fields values d = inr fields ->
        operator w = Previous :: ops ->
        exists w',
          select_gitlab_repositories w = Done false w'
          /\ config w' = config w
          /\ exists id title text,
               log w' = Show (MultiInputDialog id title text values fields)
                        :: log w).
Proof.
  split; [vm_compute; reflexivity|].
  split; [|split]; try (intros w d; apply select_repositories_after_pop).
  intros w d values fields ops Hu Hk Hl Hf Hop.
  unfold select_gitlab_repositories.
  rewrite (select_repositories_previous _ _ _ w Hu Hk Hl Hf Hop).
  eexists. split; [reflexivity|]. split; [reflexivity|].
  do 3 eexists. reflexivity.
Qed.

Lemma reentering_repositories_step_fails_witness :
  select_gitlab_repositories
    (mkWorld [] [("use_upstream", PBool true);
                 ("gitlab_repositories", PDict [("bootstrap", PStr "bootstrap")])]
       [] [] "" [] [] [])
  = Raised (KeyError "modules")
      (mkWorld [] [("use_upstream", PBool true);
                   ("gitlab_repositories", PDict [("bootstrap", PStr "bootstrap")])]
         [] [] "" [] [] []).
Proof.
  exact (proj1 (proj2 (reentering_repositories_step_fails stuck))
           (mkWorld [] [("use_upstream", PBool true);
                        ("gitlab_repositories",
                         PDict [("bootstrap", PStr "bootstrap")])]
              [] [] "" [] [] [])
           [("bootstrap", PStr "bootstrap")] eq_refl eq_refl eq_refl).
Defined.

(** ** The text of a mapping *)

Lemma print_hcl_app (v : pyval) :
  forall f indent, print_hcl v f indent = f ++ print_hcl v "" indent.
Proof.
  induction v using pyval_induction; intros f indent;
    try (rewrite !print_hcl_not_dict by discriminate;
         rewrite print_hcl_scalar_app, append_assoc; reflexivity).
  rewrite !print_hcl_dict. cbv zeta.
  assert (G : forall g h,
             print_hcl_items indent (g ++ h) d
             = g ++ print_hcl_items indent h d).
  { induction H as [|[k v] d Hv Hd IH]; intros g h; [reflexivity|].
    cbn [print_hcl_items]. cbn [snd] in Hv.
    rewrite (Hv ((((g ++ h) ++ spaces (indent * indent_spaces)) ++ k ++ " = "))).
    rewrite (Hv (((h ++ spaces (indent * indent_spaces)) ++ k ++ " = "))).
    rewrite !append_assoc. rewrite <- !append_assoc. rewrite !append_assoc.
    rewrite <- (append_assoc h). rewrite <- (append_assoc (h ++ _)).
    rewrite <- (append_assoc ((h ++ _) ++ _)).
    apply IH. }
  destruct (Nat.eqb indent 0).
  - rewrite (G f (spaces (indent * indent_spaces))).
    change ("" ++ spaces (indent * indent_spaces))
      with (spaces (indent * indent_spaces)).
    now rewrite !append_assoc.
  - rewrite (append_assoc f), (G f).
    change (("" ++ spaces (indent * indent_spaces)) ++ "{" ++ nl)
      with (spaces (indent * indent_spaces) ++ "{" ++ nl).
    now rewrite !append_assoc.
Qed.

Lemma print_hcl_items_app (indent : nat) (d : dict) (g h : string) :
  print_hcl_items indent (g ++ h) d = g ++ print_hcl_items indent h d.
Proof.
  revert g h. induction d as [|[k v] d IH]; intros g h; [reflexivity|].
  cbn [print_hcl_items].
  rewrite (print_hcl_app v (((g ++ h) ++ _) ++ _)).
  rewrite (print_hcl_app v ((h ++ _) ++ _)).
  rewrite !append_assoc. rewrite <- (append_assoc h).
  rewrite <- (append_assoc (h ++ _)). rewrite <- (append_assoc ((h ++ _) ++ _)).
  apply IH.
Qed.

Lemma print_hcl_items_cons (indent : nat) (k : string) (v : pyval) (d : dict) :
  print_hcl_items indent "" ((k, v) :: d)
  = spaces (indent * indent_spaces) ++ k ++ " = "
    ++ print_hcl v "" (S indent) ++ print_hcl_items indent "" d.
Proof.
  cbn [print_hcl_items]. rewrite print_hcl_app.
  rewrite <- (append_nil_r (_ ++ print_hcl v "" (S indent))).
  rewrite print_hcl_items_app. simpl ("" ++ _). now rewrite !append_assoc.
Qed.

Lemma print_hcl_nested (d : dict) (indent : nat) :
  print_hcl (PDict d) "" (S indent)
  = spaces (S indent * indent_spaces) ++ "{" ++ nl
    ++ print_hcl_items (S indent) "" d
    ++ spaces (S indent * indent_spaces) ++ "}" ++ nl ++ nl.
Proof.
  rewrite print_hcl_dict. cbv zeta. cbn [Nat.eqb].
  change ("" ++ spaces (S indent * indent_spaces))
    with (spaces (S indent * indent_spaces)).
  rewrite <- (append_nil_r (spaces (S indent * indent_spaces) ++ "{" ++ nl)).
  rewrite print_hcl_items_app. now rewrite !append_assoc.
Qed.

Lemma print_hcl_top (d : dict) :
  print_hcl (PDict d) "" 0 = print_hcl_items 0 "" d ++ nl.
Proof.
  rewrite print_hcl_dict. cbv zeta. cbn [Nat.eqb Nat.mul spaces].
  simpl ("" ++ ""). now rewrite append_nil_r.
Qed.

(** ** The target format reads back what the serializer writes *)

Lemma span_spec (p : ascii -> bool) (s : string) :
  s = fst (span p s) ++ snd (span p s)
  /\ all_chars p (fst (span p s)) = true.
Proof.
  induction s as [|c s [IH1 IH2]]; [now split|]. cbn [span].
  destruct (p c) eqn:Hc; [|now split].
  destruct (span p s) as [t r]. cbn [fst snd append all_chars] in *.
  split; [now rewrite <- IH1 | now rewrite Hc].
Qed.

Lemma digit_is_number_char (c : ascii) :
  is_digit c = true -> is_number_char c = true.
Proof. intros H. unfold is_number_char. now rewrite H. Qed.

Lemma digits_number_chars (t : string) :
  all_digits t = true -> all_chars is_number_char t = true.
Proof.
  rewrite all_digits_all_chars. apply all_chars_impl, digit_is_number_char.
Qed.

Lemma exponent_chars (t : string) :
  is_exponent t = true -> all_chars is_number_char t = true.
Proof.
  destruct t as [|c t']; [discriminate|]. cbn [is_exponent all_chars].
  intros H. apply andb_prop in H as [Hc Ht].
  assert (Hn : is_number_char c = true).
  { unfold is_number_char. apply orb_prop in Hc as [Hc|Hc]; rewrite Hc;
      now rewrite ?orb_true_r. }
  rewrite Hn. cbn [andb].
  destruct t' as [|s d]; [discriminate|].
  destruct (Ascii.eqb s "+" || Ascii.eqb s "-") eqn:Hs.
  - apply andb_prop in Ht as [_ Hd]. cbn [all_chars].
    rewrite (digits_number_chars _ Hd), andb_true_r.
    unfold is_number_char. apply orb_prop in Hs as [Hs|Hs]; rewrite Hs;
      now rewrite ?orb_true_r.
  - now apply digits_number_chars.
Qed.

Lemma fraction_exponent_chars (t : string) :
  is_fraction_exponent t = true -> all_chars is_number_char t = true.
Proof.
  destruct t as [|c t']; [reflexivity|]. cbn [is_fraction_exponent].
  destruct (Ascii.eqb_spec c ".") as [->|_]; [|apply exponent_chars].
  destruct (span_spec is_digit t') as [E Hd].
  destruct (span is_digit t') as [fr rest]. cbn [fst snd] in *.
  intros H. apply andb_prop in H as [_ H]. rewrite E.
  cbn [all_chars]. rewrite all_chars_app.
  rewrite (all_chars_impl _ is_number_char _ digit_is_number_char Hd).
  change (is_number_char ".") with true. cbn [andb].
  apply orb_prop in H as [H|H].
  - apply String.eqb_eq in H. now subst rest.
  - now apply exponent_chars.
Qed.

(** A number literal is made of characters of a number, one at least. *)
Lemma number_literal_chars (t : string) :
  is_number_literal t = true ->
  t <> "" /\ all_chars is_number_char t = true.
Proof.
  assert (G : forall u,
             (let (ds, rest) := span is_digit u in
              negb (ds =? "")%string && is_fraction_exponent rest) = true ->
             u <> "" /\ all_chars is_number_char u = true).
  { intros u. destruct (span_spec is_digit u) as [E Hd].
    destruct (span is_digit u) as [ds rest]. cbn [fst snd] in *.
    intros H. apply andb_prop in H as [Hne Hfe].
    apply negb_true_iff, String.eqb_neq in Hne. split.
    - rewrite E. destruct ds; [now destruct Hne | discriminate].
    - rewrite E, all_chars_app, (fraction_exponent_chars _ Hfe), andb_true_r.
      exact (all_chars_impl _ is_number_char _ digit_is_number_char Hd). }
  unfold is_number_literal. destruct t as [|c t']; [discriminate|].
  destruct (Ascii.eqb_spec c "-") as [->|Hc]; [|apply G].
  intros H. apply G in H as [_ H]. split; [discriminate | exact H].
Qed.

(** The decimal text of an integer is a number literal with no point and
    no exponent. *)
Lemma decimal_number_literal (t : string) :
  is_decimal_literal t = true ->
  is_number_literal t = true /\ some_char is_float_mark t = false.
Proof.
  assert (M : forall u, all_digits u = true -> some_char is_float_mark u = false).
  { induction u as [|c u IH]; [reflexivity|]. cbn [all_digits some_char].
    intros H. apply andb_prop in H as [Hc Hu]. rewrite (IH Hu), orb_false_r.
    destruct c as [[|] [|] [|] [|] [|] [|] [|] [|]];
      try discriminate Hc; reflexivity. }
  assert (G : forall u, u <> "" -> all_digits u = true ->
                        (let (ds, rest) := span is_digit u in
                         negb (ds =? "")%string && is_fraction_exponent rest)
                        = true).
  { intros u Hne Hd. rewrite all_digits_all_chars in Hd.
    rewrite (span_all _ _ Hd). destruct u; [now destruct Hne | reflexivity]. }
  unfold is_decimal_literal, is_number_literal.
  destruct t as [|c t']; [discriminate|].
  destruct (Ascii.eqb_spec c "-") as [->|Hc].
  - intros H. apply andb_prop in H as [Hne Hd].
    apply negb_true_iff, String.eqb_neq in Hne. split; [now apply G|].
    cbn [some_char]. now rewrite (M _ Hd).
  - intros Hd. split; [apply G; [discriminate | exact Hd] | now apply M].
Qed.

Lemma number_char_facts (c : ascii) :
  is_number_char c = true ->
  Ascii.eqb c "n" = false /\ Ascii.eqb c "t" = false /\ Ascii.eqb c "f" = false
  /\ Ascii.eqb c dquote = false /\ is_blank c = false
  /\ Ascii.eqb c "{" = false /\ Ascii.eqb c "}" = false
  /\ Ascii.eqb c "[" = false /\ Ascii.eqb c "]" = false.
Proof.
  destruct c as [[|] [|] [|] [|] [|] [|] [|] [|]];
    try discriminate; intros _; repeat split.
Qed.

Lemma read_number_token (t rest : string) (c : ascii) (t' : string) :
  t = String c t' -> is_number_char c = true ->
  read_atom (t ++ rest) = read_number (t ++ rest).
Proof.
  intros -> Hc. destruct (number_char_facts c Hc) as (Hn & Ht & Hf & Hq & _).
  unfold read_atom. cbn [append strip_prefix].
  rewrite (Ascii.eqb_sym "n"), Hn, (Ascii.eqb_sym "t"), Ht,
    (Ascii.eqb_sym "f"), Hf, Hq.
  reflexivity.
Qed.

(** A number literal followed by a character that is not of a number is
    read as the literal. *)
Lemma read_number_literal (t rest : string) :
  is_number_literal t = true -> stops is_number_char rest ->
  read_atom (t ++ rest)
  = if some_char is_float_mark t then Some (PFloat t, rest)
    else match NilZero.int_of_string t with
         | Some d => Some (PInt (Z.of_int d), rest)
         | None => None
         end.
Proof.
  intros Hl Hr. destruct (number_literal_chars t Hl) as [Hne Hall].
  destruct t as [|c t'] eqn:E; [now destruct Hne|].
  rewrite (@read_number_token (String c t') rest c t' eq_refl).
  2:{ cbn [all_chars] in Hall. now apply andb_prop in Hall as [Hc _]. }
  unfold read_number. rewrite (span_app _ _ _ Hall Hr). now rewrite Hl.
Qed.

Lemma escape_starts_template (c : ascii) (s rest : string) :
  starts_template c s = false ->
  starts_template c (replace_char dquote (String backslash q) s ++ q ++ rest)
  = false.
Proof.
  unfold starts_template. destruct (Ascii.eqb c "$" || Ascii.eqb c "%");
    [|reflexivity].
  cbn [andb]. destruct s as [|c' s']; [reflexivity|]. cbn [replace_char].
  destruct (Ascii.eqb_spec c' dquote) as [->|_]; [reflexivity|].
  now cbn [append].
Qed.

Lemma read_string_escape (s rest : string) :
  plain_text s = true ->
  read_string (replace_char dquote (String backslash q) s ++ q ++ rest)
  = Some (s, rest).
Proof.
  induction s as [|c s IH]; intros Hs; [reflexivity|].
  cbn [plain_text] in Hs. apply andb_prop in Hs as [Hs Ht].
  apply andb_prop in Hs as [Hs Htpl]. apply andb_prop in Hs as [Hp Hb].
  apply negb_true_iff in Hb, Htpl. cbn [replace_char].
  destruct (Ascii.eqb_spec c dquote) as [->|Hq].
  - change (read_string
              (String backslash (String dquote
                 (replace_char dquote (String backslash q) s ++ q ++ rest)))
            = Some (String dquote s, rest)).
    cbn [read_string]. change (Ascii.eqb backslash dquote) with false.
    rewrite Ascii.eqb_refl. cbv iota.
    change (escape_sequence dquote) with (Some dquote).
    now rewrite (IH Ht).
  - change (read_string
              (String c (replace_char dquote (String backslash q) s ++ q ++ rest))
            = Some (String c s, rest)).
    cbn [read_string]. destruct (Ascii.eqb_spec c dquote); [contradiction|].
    rewrite Hb, (escape_starts_template _ _ _ Htpl), Hp. now rewrite (IH Ht).
Qed.

Lemma str_int_literal (z : Z) :
  is_number_literal (str_int z) = true
  /\ some_char is_float_mark (str_int z) = false.
Proof. apply decimal_number_literal, str_int_decimal. Qed.

Lemma read_atom_render (v : pyval) (rest : string) :
  plain_atom v = true -> stops is_number_char rest ->
  read_atom (render v ++ rest) = Some (v, rest).
Proof.
  intros Hv Hr. destruct v as [|b|z|r|s|l|d|t]; try discriminate Hv.
  - reflexivity.
  - destruct b; reflexivity.
  - cbn [render]. destruct (str_int_literal z) as [Hl Hm].
    rewrite (read_number_literal _ _ Hl Hr), Hm.
    pose proof (str_int_read_back z) as Hb.
    destruct (NilZero.int_of_string (str_int z)) as [d|]; [|discriminate].
    simpl in Hb. now injection Hb as ->.
  - cbn [render plain_atom] in *. apply andb_prop in Hv as [Hl Hm].
    now rewrite (read_number_literal _ _ Hl Hr), Hm.
  - cbn [render plain_atom] in *. unfold q at 1.
    change (String dquote "" ++ replace_char dquote (String backslash q) s ++ q)
      with (String dquote (replace_char dquote (String backslash q) s ++ q)).
    cbn [append]. unfold read_atom. cbn [strip_prefix].
    change (Ascii.eqb "n" dquote) with false.
    change (Ascii.eqb "t" dquote) with false.
    change (Ascii.eqb "f" dquote) with false. cbv iota.
    rewrite Ascii.eqb_refl, append_assoc. now rewrite read_string_escape.
Qed.

Lemma render_atom_starts (v : pyval) (rest : string) :
  plain_atom v = true -> starts_token (render v ++ rest).
Proof.
  intros Hv. destruct v as [|b|z|r|s|l|d|t]; try discriminate Hv.
  - repeat split.
  - destruct b; repeat split.
  - cbn [render]. destruct (str_int_literal z) as [Hl _].
    destruct (number_literal_chars _ Hl) as [Hne Hall].
    destruct (str_int z) as [|c t']; [now destruct Hne|].
    cbn [all_chars] in Hall. apply andb_prop in Hall as [Hn _].
    destruct (number_char_facts c Hn) as (_ & _ & _ & _ & H1 & H2 & H3 & H4 & H5).
    now repeat split.
  - cbn [render plain_atom] in *. apply andb_prop in Hv as [Hl _].
    destruct (number_literal_chars _ Hl) as [Hne Hall].
    destruct r as [|c t']; [now destruct Hne|].
    cbn [all_chars] in Hall. apply andb_prop in Hall as [Hn _].
    destruct (number_char_facts c Hn) as (_ & _ & _ & _ & H1 & H2 & H3 & H4 & H5).
    now repeat split.
  - repeat split.
Qed.

Lemma not_blank_not_hspace (c : ascii) :
  is_blank c = false -> is_hspace c = false.
Proof. unfold is_blank. now intros H%orb_false_elim. Qed.

Lemma skip_hspace_token (s : string) : starts_token s -> skip_hspace s = s.
Proof.
  destruct s as [|c s]; [intros []|]. intros (Hb & _). cbn [skip_hspace].
  now rewrite (not_blank_not_hspace _ Hb).
Qed.

Lemma concat_render_tail (x : pyval) (l : list pyval) :
  String.concat ", " (map render (x :: l))
  = render x ++ fold_right (fun v t => ", " ++ render v ++ t) "" l.
Proof.
  revert x. induction l as [|y l IH]; intros x.
  - simpl. now rewrite append_nil_r.
  - change (String.concat ", " (map render (x :: y :: l)))
      with (render x ++ ", " ++ String.concat ", " (map render (y :: l))).
    now rewrite IH.
Qed.

Lemma tail_stops (l : list pyval) (rest : string) :
  stops is_number_char
    (fold_right (fun v t => ", " ++ render v ++ t) "" l ++ "]" ++ rest).
Proof. destruct l; reflexivity. Qed.

Lemma read_elems_tail (l : list pyval) :
  forall fuel rest,
    forallb plain_atom l = true -> (List.length l < fuel)%nat ->
    read_elems fuel
      (fold_right (fun v t => ", " ++ render v ++ t) "" l ++ "]" ++ rest)
    = Some (l, rest).
Proof.
  induction l as [|x l IH]; intros fuel rest Hl Hf;
    (destruct fuel as [|fuel]; [cbn in Hf; lia|]).
  - reflexivity.
  - cbn [forallb] in Hl. apply andb_prop in Hl as [Hx Hl].
    cbn [fold_right].
    change ((", " ++ render x
             ++ fold_right (fun v t => ", " ++ render v ++ t) "" l)
            ++ "]" ++ rest)
      with (String "," (String " "
              ((render x
                ++ fold_right (fun v t => ", " ++ render v ++ t) "" l)
               ++ "]" ++ rest))).
    rewrite append_assoc. cbn [read_elems skip_hspace].
    change (is_hspace ",") with false. cbv iota.
    change (Ascii.eqb "," "]") with false. cbv iota.
    rewrite Ascii.eqb_refl.
    change (skip_hspace (String " " ?t)) with (skip_hspace t).
    rewrite (skip_hspace_token _ (render_atom_starts x _ Hx)).
    rewrite (read_atom_render x _ Hx (tail_stops l rest)).
    rewrite IH; [reflexivity | assumption | cbn in Hf; lia].
Qed.

Lemma plain_atom_scalar (v : pyval) : plain_atom v = true -> scalar_value v = true.
Proof. destruct v; try discriminate; reflexivity. Qed.

Lemma plain_list_scalar (l : list pyval) :
  forallb plain_atom l = true -> forallb scalar_value l = true.
Proof.
  induction l as [|x l IH]; [reflexivity|]. cbn [forallb].
  intros H. apply andb_prop in H as [Hx Hl].
  now rewrite (plain_atom_scalar x Hx), IH.
Qed.

(** A plain value that is not a mapping is written as rendered, and read
    back. *)
Lemma read_scalar_render (v : pyval) (fuel : nat) (rest : string) :
  plain_value v = true -> (forall d, v <> PDict d) ->
  (weight v <= fuel)%nat -> stops is_number_char rest ->
  read_scalar fuel (render v ++ rest) = Some (v, rest)
  /\ match render v ++ rest with
     | String c _ => is_blank c = false /\ Ascii.eqb c "{" = false
     | EmptyString => False
     end
  /\ print_hcl_scalar "" v = render v.
Proof.
  intros Hv Hd Hw Hr.
  destruct v as [|b|z|r|s|l|d|t];
    try (now destruct (Hd d)); try discriminate Hv.
  1-5: (split;
        [|split;
          [pose proof (@render_atom_starts _ rest Hv) as Hs;
           destruct (render _ ++ rest); [now destruct Hs|];
           now destruct Hs as (H1 & H2 & _)
          | reflexivity]];
        pose proof (@render_atom_starts _ rest Hv) as Hs;
        unfold read_scalar;
        destruct (render _ ++ rest) as [|c r'] eqn:E; [now destruct Hs|];
        destruct Hs as (_ & _ & _ & H4 & _); rewrite H4, <- E;
        now apply read_atom_render).
  cbn [plain_value] in Hv. split; [|split].
  - destruct l as [|x l]; [reflexivity|].
    cbn [render]. rewrite concat_render_tail.
    cbn [forallb] in Hv. apply andb_prop in Hv as [Hx Hl].
    change (("[" ++ (render x
                     ++ fold_right (fun v t => ", " ++ render v ++ t) "" l)
             ++ "]") ++ rest)
      with (String "["
              (((render x
                 ++ fold_right (fun v t => ", " ++ render v ++ t) "" l)
                ++ "]") ++ rest)).
    rewrite !append_assoc. unfold read_scalar. rewrite Ascii.eqb_refl.
    pose proof (@render_atom_starts x
                  (fold_right (fun v t => ", " ++ render v ++ t) "" l
                   ++ "]" ++ rest) Hx) as Hs.
    rewrite (skip_hspace_token _ Hs).
    destruct (render x ++ _) as [|c r'] eqn:E; [now destruct Hs|].
    destruct Hs as (_ & _ & _ & _ & H5). rewrite H5, <- E.
    rewrite (read_atom_render x _ Hx (tail_stops l rest)).
    rewrite read_elems_tail; [reflexivity | assumption | cbn in Hw; lia].
  - cbn [render]. repeat split.
  - apply print_hcl_scalar_render. cbn [scalar_value].
    now apply plain_list_scalar.
Qed.

Lemma skip_blanks_spaces (n : nat) (s : string) :
  skip_blanks (spaces n ++ s) = skip_blanks s.
Proof. induction n as [|n IH]; [reflexivity | exact IH]. Qed.

Lemma skip_hspace_spaces (n : nat) (s : string) :
  skip_hspace (spaces n ++ s) = skip_hspace s.
Proof. induction n as [|n IH]; [reflexivity | exact IH]. Qed.

Lemma skip_blanks_token (c : ascii) (s : string) :
  is_blank c = false -> skip_blanks (String c s) = String c s.
Proof. intros Hc. cbn [skip_blanks]. now rewrite Hc. Qed.

Lemma end_of_line_nl (s : string) : end_of_line (nl ++ s) = Some s.
Proof. reflexivity. Qed.

Lemma read_items_blank (fuel : nat) (c : ascii) (s : string) :
  is_blank c = true -> read_items fuel (String c s) = read_items fuel s.
Proof.
  intros Hc. destruct fuel as [|fuel]; [reflexivity|].
  cbn [read_items skip_blanks]. now rewrite Hc.
Qed.

Lemma read_items_spaces (fuel n : nat) (s : string) :
  read_items fuel (spaces n ++ s) = read_items fuel s.
Proof.
  induction n as [|n IH]; [reflexivity|].
  cbn [spaces append]. now rewrite read_items_blank.
Qed.

Lemma id_start_facts (c : ascii) :
  is_id_start c = true -> is_blank c = false /\ Ascii.eqb c "}" = false.
Proof.
  destruct c as [[|] [|] [|] [|] [|] [|] [|] [|]];
    try discriminate; intros _; split; reflexivity.
Qed.

Lemma weight_pos (v : pyval) : (1 <= weight v)%nat.
Proof. destruct v; simpl; lia. Qed.

Lemma read_items_end (fuel : nat) (rest : string) :
  block_end rest -> read_items (S fuel) rest = Some ([], skip_blanks rest).
Proof.
  unfold block_end. cbn [read_items].
  destruct (skip_blanks rest) as [|c s]; [reflexivity|]. now intros ->.
Qed.

(** Once the key and the equals sign are read, the value decides. *)
Lemma read_items_key (fuel : nat) (k rest : string) :
  plain_key k = true ->
  read_items (S fuel) (k ++ " = " ++ rest)
  = match skip_hspace rest with
    | EmptyString => None
    | String c2 r2 =>
        if Ascii.eqb c2 "{" then
          match end_of_line r2 with
          | Some r3 =>
              match read_items fuel r3 with
              | Some (d, String c4 r4) =>
                  if Ascii.eqb c4 "}" && block_keys d then
                    match end_of_line r4 with
                    | Some r5 =>
                        match read_items fuel r5 with
                        | Some (d', rest') => Some ((k, PDict d) :: d', rest')
                        | None => None
                        end
                    | None => None
                    end
                  else None
              | _ => None
              end
          | None => None
          end
        else
          match read_scalar fuel (String c2 r2) with
          | Some (v, r3) =>
              match end_of_line r3 with
              | Some r4 =>
                  match read_items fuel r4 with
                  | Some (d', rest') => Some ((k, v) :: d', rest')
                  | None => None
                  end
              | None => None
              end
          | None => None
          end
    end.
Proof.
  intros Hk. unfold plain_key in Hk. pose proof Hk as Hid.
  unfold is_identifier in Hk.
  destruct k as [|c k']; [discriminate|].
  apply andb_prop in Hk as [Hc Hall].
  destruct (id_start_facts c Hc) as [Hb Hbr].
  cbn [read_items]. cbn [append skip_blanks]. rewrite Hb, Hbr.
  change (span is_key_char
            (String c (k' ++ String " " (String "=" (String " " rest)))))
    with (span is_key_char (String c k' ++ " = " ++ rest)).
  rewrite (span_app is_key_char (String c k') (" = " ++ rest) Hall);
    [|reflexivity].
  rewrite Hid. reflexivity.
Qed.

Lemma read_items_text (v : pyval) :
  forall d, v = PDict d ->
  forallb (fun kv => plain_key (fst kv) && plain_value (snd kv)) d = true ->
  forall indent fuel rest,
    (weight v <= fuel)%nat -> block_end rest ->
    read_items fuel (print_hcl_items indent "" d ++ rest)
    = Some (d, skip_blanks rest).
Proof.
  induction v using pyval_induction; intros d0 E; try discriminate E.
  injection E as <-. intros Hp.
  induction H as [|[k v] d Hv Hd IH]; intros indent fuel rest Hw Hend.
  - destruct fuel as [|fuel]; [cbn in Hw; lia|]. now apply read_items_end.
  - cbn [forallb fst snd] in Hp, Hv.
    apply andb_prop in Hp as [Hkv Hp]. apply andb_prop in Hkv as [Hk Hpv].
    specialize (IH Hp).
    assert (Hw' : (weight v + weight (PDict d) <= fuel)%nat).
    { cbn [weight fold_right snd] in Hw |- *. lia. }
    pose proof (weight_pos v) as Hv1. pose proof (weight_pos (PDict d)) as Hd1.
    destruct fuel as [|fuel]; [lia|].
    rewrite print_hcl_items_cons, !append_assoc, read_items_spaces.
    rewrite (@read_items_key fuel k _ Hk).
    destruct v as [| | | | | |dv|];
      try (destruct (@read_scalar_render _ fuel
                       (nl ++ print_hcl_items indent "" d ++ rest) Hpv
                       ltac:(discriminate) ltac:(lia) eq_refl)
             as (Hread & Hstart & Hren);
           rewrite print_hcl_not_dict by discriminate;
           rewrite Hren, !append_assoc;
           destruct (render _ ++ _) as [|c2 r2] eqn:E2; [now destruct Hstart|];
           destruct Hstart as [Hb Hbrace];
           cbn [skip_hspace]; rewrite (not_blank_not_hspace _ Hb), Hbrace, Hread;
           rewrite end_of_line_nl;
           rewrite IH by (assumption || lia); reflexivity).
    (* a nested mapping *)
    cbn [plain_value] in Hpv. apply andb_prop in Hpv as [Hkeys Hitems].
    rewrite print_hcl_nested, !append_assoc, skip_hspace_spaces.
    change (skip_hspace ("{" ++ nl ++ _)) with
      (String "{" (nl ++ print_hcl_items (S indent) "" dv
                   ++ spaces (S indent * indent_spaces) ++ "}" ++ nl ++ nl
                   ++ print_hcl_items indent "" d ++ rest)).
    cbv iota. rewrite Ascii.eqb_refl, end_of_line_nl.
    rewrite (Hv dv eq_refl Hitems (S indent) fuel); [|lia|].
    2:{ unfold block_end. rewrite skip_blanks_spaces. reflexivity. }
    rewrite skip_blanks_spaces.
    change ("}" ++ nl ++ nl ++ print_hcl_items indent "" d ++ rest)
      with (String "}" (nl ++ nl ++ print_hcl_items indent "" d ++ rest)).
    rewrite (@skip_blanks_token "}" _ eq_refl).
    rewrite Ascii.eqb_refl, Hkeys. cbn [andb]. rewrite end_of_line_nl.
    unfold nl at 1. cbn [append].
    rewrite read_items_blank by reflexivity.
    rewrite IH by (assumption || lia). reflexivity.
Qed.

Lemma print_hcl_elems_length (l : list pyval) :
  forall g b,
    (String.length g + List.length l
     <= String.length (print_hcl_elems g b l) + (if b then 1 else 0))%nat.
Proof.
  induction l as [|v l IH]; intros g b; cbn [print_hcl_elems List.length].
  - lia.
  - specialize (IH (print_hcl_scalar (if b then g else g ++ ", ") v) false).
    assert (E : String.length (print_hcl_scalar (if b then g else g ++ ", ") v)
                = (String.length (if b then g else g ++ ", ")
                   + String.length (print_hcl_scalar "" v))%nat).
    { rewrite (print_hcl_scalar_app v (if b then g else g ++ ", ")).
      apply length_append. }
    rewrite E in IH. clear E.
    destruct b; [|rewrite length_append in IH; simpl in IH]; lia.
Qed.

Lemma weight_length (v : pyval) :
  forall indent, (weight v <= String.length (print_hcl v "" indent))%nat.
Proof.
  induction v using pyval_induction; intros indent;
    try (rewrite print_hcl_not_dict by discriminate;
         rewrite length_append; simpl; lia).
  - rewrite print_hcl_not_dict by discriminate.
    rewrite print_hcl_scalar_list, !length_append.
    pose proof (print_hcl_elems_length l ("" ++ "[") true) as Hl.
    cbn [weight]. simpl in *. lia.
  - assert (G : forall g,
               (String.length g
                + fold_right (fun kv n => (weight (snd kv) + n)%nat) O d
                <= String.length (print_hcl_items indent g d))%nat).
    { induction H as [|[k v] d Hv Hd IH]; intros g; cbn [print_hcl_items fold_right].
      - lia.
      - cbn [snd] in *. specialize (IH (print_hcl v
                                          ((g ++ spaces (indent * indent_spaces))
                                           ++ k ++ " = ") (S indent))).
        rewrite (print_hcl_app v ((g ++ _) ++ _)) in IH |- *.
        rewrite !length_append in IH.
        specialize (Hv (S indent)). lia. }
    rewrite print_hcl_dict. cbv zeta. cbn [weight].
    destruct (Nat.eqb indent 0).
    + specialize (G ("" ++ spaces (indent * indent_spaces))).
      rewrite !length_append. simpl String.length at 3. lia.
    + specialize (G (("" ++ spaces (indent * indent_spaces)) ++ "{" ++ nl)).
      rewrite !length_append. simpl String.length at 4. lia.
Qed.

(** The text of a finite float is the text of a plain value. *)
Lemma str_float_plain (x : pyfloat) :
  float_digits x = true -> is_finite x = true ->
  plain_atom (PFloat (str_float x)) = true.
Proof.
  intros Hx Hf. destruct (str_float_literal x Hx) as [Hl Hm].
  cbn [plain_atom]. now rewrite Hl, Hf, (Hm Hf).
Qed.

(** C3, as the code has it.  For a configuration whose keys are
    identifiers, distinct at each level, the first key of a nested mapping
    not being [for], and whose values are null, booleans, integers, finite
    floats, strings of printable characters with no backslash and no
    template sequence, lists of those, and nested mappings of the same
    kind, the parser of the target format reads the text [print_hcl]
    writes back as the same mapping, keys in the same order; so two such
    configurations with the same text are equal.  The text of every finite
    float is the text of such a value. *)
Theorem print_hcl_round_trip (c : dict) (Hc : plain_config c = true) :
  parse_hcl (print_hcl (PDict c) "" 0) = Some c
  /\ (forall c',
        plain_config c' = true ->
        print_hcl (PDict c') "" 0 = print_hcl (PDict c) "" 0 ->
        c' = c)
  /\ (forall x, float_digits x = true -> is_finite x = true ->
                plain_atom (PFloat (str_float x)) = true).
Proof.
  assert (R : forall c0, plain_config c0 = true ->
                         parse_hcl (print_hcl (PDict c0) "" 0) = Some c0).
  { intros c0 H0. unfold plain_config in H0.
    apply andb_prop in H0 as [Hk H0].
    pose proof (weight_length (PDict c0) 0) as Hw.
    rewrite print_hcl_top in Hw |- *. unfold parse_hcl.
    rewrite (@read_items_text (PDict c0) c0 eq_refl H0 0
               (S (String.length (print_hcl_items 0 "" c0 ++ nl))) nl);
      [now rewrite Hk | lia | reflexivity]. }
  split; [now apply R|]. split; [|apply str_float_plain].
  intros c' Hc' E. apply R in Hc'. rewrite E, (R c Hc) in Hc'.
  now injection Hc'.
Qed.

Lemma print_hcl_round_trip_witness :
  parse_hcl
    (print_hcl
       (PDict [("prefix", PStr "fast");
               ("organization",
                PDict [("id", PInt 1234567890); ("domain", PStr "example.com");
                       ("customer_id", PNone)]);
               ("allowed_audiences", PList [PStr "https://gitlab.example.com"]);
               ("timeout", PFloat "1.5e-07");
               ("shared_runners_enabled", PBool true)]) "" 0)
  = Some [("prefix", PStr "fast");
          ("organization",
           PDict [("id", PInt 1234567890); ("domain", PStr "example.com");
                  ("customer_id", PNone)]);
          ("allowed_audiences", PList [PStr "https://gitlab.example.com"]);
          ("timeout", PFloat "1.5e-07");
          ("shared_runners_enabled", PBool true)].
Proof.
  exact (proj1 (print_hcl_round_trip
                  [("prefix", PStr "fast");
                   ("organization",
                    PDict [("id", PInt 1234567890);
                           ("domain", PStr "example.com");
                           ("customer_id", PNone)]);
                   ("allowed_audiences",
                    PList [PStr "https://gitlab.example.com"]);
                   ("timeout", PFloat "1.5e-07");
                   ("shared_runners_enabled", PBool true)] eq_refl)).
Defined.

(** C3 fails as stated.  Keys are written as they are, so the mapping of
    [a] to 1 and [b] to 2 and the mapping with the one key made of
    [a = 1], a line feed and [b], set to 2, both with integer values only,
    are written as the same text: no parser gives back both.  And the
    parser of the target format does not give back: a key that starts
    with a digit, a nested mapping whose first key is [for], a string that
    ends with a backslash (the closing quote is read as escaped), a string
    with a line feed or with a template sequence, an infinite float; a
    string of two backslashes is read back as one; an attribute set twice
    is refused. *)
Lemma text_not_read_back :
  forallb (fun kv => scalar_value (snd kv)) [("a", PInt 1); ("b", PInt 2)] = true
  /\ forallb (fun kv => scalar_value (snd kv)) [("a = 1" ++ nl ++ "b", PInt 2)]
     = true
  /\ print_hcl (PDict [("a", PInt 1); ("b", PInt 2)]) "" 0
     = print_hcl (PDict [("a = 1" ++ nl ++ "b", PInt 2)]) "" 0
  /\ [("a", PInt 1); ("b", PInt 2)] <> [("a = 1" ++ nl ++ "b", PInt 2)]
  /\ ~ (exists parse : string -> option dict,
          parse (print_hcl (PDict [("a", PInt 1); ("b", PInt 2)]) "" 0)
          = Some [("a", PInt 1); ("b", PInt 2)]
          /\ parse (print_hcl (PDict [("a = 1" ++ nl ++ "b", PInt 2)]) "" 0)
             = Some [("a = 1" ++ nl ++ "b", PInt 2)])
  /\ parse_hcl (print_hcl (PDict [("0a", PInt 1)]) "" 0) = None
  /\ parse_hcl (print_hcl (PDict [("a", PDict [("for", PInt 1)])]) "" 0) = None
  /\ parse_hcl (print_hcl (PDict [("a", PStr (String backslash ""))]) "" 0)
     = None
  /\ parse_hcl
       (print_hcl (PDict [("a", PStr (String backslash (String backslash "")))])
          "" 0)
     = Some [("a", PStr (String backslash ""))]
  /\ parse_hcl (print_hcl (PDict [("a", PStr ("x" ++ nl ++ "y"))]) "" 0) = None
  /\ parse_hcl (print_hcl (PDict [("a", PStr "${b}")]) "" 0) = None
  /\ parse_hcl
       (print_hcl (PDict [("a", PFloat (str_float (Infinity false)))]) "" 0)
     = None
  /\ parse_hcl (print_hcl (PDict [("a", PInt 1); ("a", PInt 2)]) "" 0) = None.
Proof.
  assert (E : print_hcl (PDict [("a", PInt 1); ("b", PInt 2)]) "" 0
              = print_hcl (PDict [("a = 1" ++ nl ++ "b", PInt 2)]) "" 0)
    by reflexivity.
  repeat split; try exact E; try (vm_compute; reflexivity).
  - discriminate.
  - intros (parse & H1 & H2). rewrite E, H2 in H1. discriminate H1.
Qed.

(** * Further properties of the code *)

(** ** What the dialogs do to the world *)

Lemma same_state_refl (w : world) : same_state w w.
Proof. repeat split. Qed.

Lemma same_state_trans (w1 w2 w3 : world) :
  same_state w1 w2 -> same_state w2 w3 -> same_state w1 w3.
Proof.
  intros (E1 & C1 & S1 & F1) (E2 & C2 & S2 & F2).
  repeat split; congruence.
Qed.

Lemma run_app_done (p : prompt) (w w' : world) (a : action) :
  run_app p w = Done a w' ->
  operator w = a :: operator w' /\ log w' = Show p :: log w /\ same_state w w'.
Proof.
  destruct (operator w) as [|a0 ops] eqn:Hop.
  - unfold run_app, bind, show. cbn [operator with_log]. rewrite Hop.
    discriminate.
  - rewrite (run_app_eq p w Hop). intros [= <- <-]. repeat split.
Qed.

Lemma maybe_quit_done (w w' : world) :
  maybe_quit w = Done tt w' ->
  operator w = No :: operator w'
  /\ log w' = Show QuitConfirmation :: log w /\ same_state w w'.
Proof.
  destruct (operator w) as [|a ops] eqn:Hop.
  - unfold maybe_quit, bind, run_app, bind, show. cbn [operator with_log].
    rewrite Hop. discriminate.
  - rewrite (maybe_quit_eq w Hop). destruct a; try discriminate.
    intros [= <-]. repeat split.
Qed.

Lemma input_dialog_loop_done (p : prompt) (fuel : nat) :
  forall w v w',
    input_dialog_loop fuel p w = Done v w' ->
    exists n a,
      operator w = (declined_quits n ++ a :: operator w')%list
      /\ ((a = Previous /\ v = PBool false) \/ (exists t, a = Ok t /\ v = PStr t))
      /\ log w' = Show p :: declined_log n p (log w)
      /\ same_state w w'.
Proof.
  induction fuel as [|fuel IH]; intros w v w'; [discriminate|].
  cbn [input_dialog_loop]. unfold bind at 1.
  destruct (run_app p w) as [a w1| | | |] eqn:Hrun; try discriminate.
  apply run_app_done in Hrun as (Hop & Hlog & Hs).
  destruct a; try discriminate.
  - unfold ret. intros [= <- <-]. exists 0%nat, (Ok text).
    repeat split; try apply Hs; try assumption. right. now exists text.
  - unfold ret. intros [= <- <-]. exists 0%nat, Previous.
    repeat split; try apply Hs; try assumption. now left.
  - unfold bind at 1.
    destruct (maybe_quit w1) as [[] w2| | | |] eqn:Hq; try discriminate.
    apply maybe_quit_done in Hq as (Hop2 & Hlog2 & Hs2).
    intros H. apply IH in H as (n & a & Hop3 & Ha & Hlog3 & Hs3).
    exists (S n), a. split; [|split; [exact Ha|split]].
    + rewrite Hop, Hop2, Hop3. reflexivity.
    + rewrite Hlog3, Hlog2, Hlog. reflexivity.
    + exact (same_state_trans Hs (same_state_trans Hs2 Hs3)).
Qed.

Lemma quit_confirmations_declined (n : nat) (id title text value : string)
  (password : bool) (l : list call) :
  quit_confirmations
    (declined_log n (InputDialog id title text value password) l)
  = (n + quit_confirmations l)%nat.
Proof.
  revert l. induction n as [|n IH]; intros l; [reflexivity|].
  cbn [declined_log]. rewrite IH. cbn [quit_confirmations]. lia.
Qed.

(** X1.  When [input_dialog] returns, the operator has pressed Quit and
    declined the confirmation some number [n] of times and then pressed
    Previous, which gives [False], or Ok, which gives the text; exactly
    [n] confirmations have been shown, and the environment, the
    configuration, the exit codes to come and the files are as before. *)
Theorem input_dialog_returns (id title text value : string) (password : bool)
  (w w' : world) (v : pyval)
  (H : input_dialog id title text value password w = Done v w') :
  exists n a,
    operator w = (declined_quits n ++ a :: operator w')%list
    /\ ((a = Previous /\ v = PBool false) \/ (exists t, a = Ok t /\ v = PStr t))
    /\ quit_confirmations (log w') = (n + quit_confirmations (log w))%nat
    /\ same_state w w'.
Proof.
  apply input_dialog_loop_done in H as (n & a & Hop & Ha & Hlog & Hs).
  exists n, a. repeat split; try apply Hs; try assumption.
  rewrite Hlog. cbn [quit_confirmations]. apply quit_confirmations_declined.
Qed.

Lemma input_dialog_returns_witness :
  exists n a,
    [Quit; No; Quit; No; Ok "abcd"; Yes]
    = (declined_quits n ++ a :: [Yes])%list
    /\ ((a = Previous /\ PStr "abcd" = PBool false)
        \/ (exists t, a = Ok t /\ PStr "abcd" = PStr t))
    /\ 2%nat = (n + 0)%nat.
Proof.
  pose (w0 := mkWorld [] [] [Quit; No; Quit; No; Ok "abcd"; Yes] [] "" [] [] []).
  pose (p := InputDialog "prefix" "Resource prefix" "" "exam" false).
  pose (w1 := mkWorld [] [] [Yes] [] "" [] []
                [Show p; Show QuitConfirmation; Show p; Show QuitConfirmation;
                 Show p]).
  assert (H : input_dialog "prefix" "Resource prefix" "" "exam" false w0
              = Done (PStr "abcd") w1) by (vm_compute; reflexivity).
  destruct (input_dialog_returns _ _ _ _ _ _ H) as (n & a & H1 & H2 & H3 & _).
  exists n, a. repeat split; assumption.
Defined.

Lemma preserves_ret (A : Type) (a : A) : preserves (ret a).
Proof. intros w. apply same_state_refl. Qed.

Lemma preserves_stuck (A : Type) : preserves (@stuck A).
Proof. intros w. apply same_state_refl. Qed.

Lemma preserves_quit (A : Type) : preserves (@quit A).
Proof. intros w. apply same_state_refl. Qed.

Lemma preserves_raise (A : Type) (e : py_exception) : preserves (@raise A e).
Proof. intros w. apply same_state_refl. Qed.

Lemma preserves_out_of_fuel (A : Type) : preserves (@out_of_fuel A).
Proof. intros w. apply same_state_refl. Qed.

Lemma preserves_bind (A B : Type) (m : M A) (k : A -> M B) :
  preserves m -> (forall a, preserves (k a)) -> preserves (bind m k).
Proof.
  intros Hm Hk w. unfold bind. specialize (Hm w).
  destruct (m w) as [a w1| | | |]; try exact Hm.
  specialize (Hk a w1).
  destruct (k a w1); exact (same_state_trans Hm Hk).
Qed.

Lemma preserves_run_app (p : prompt) : preserves (run_app p).
Proof.
  intros w. unfold run_app, bind, show. cbn [operator with_log].
  destruct (operator w); repeat split.
Qed.

Lemma preserves_maybe_quit : preserves maybe_quit.
Proof.
  unfold maybe_quit. apply preserves_bind; [apply preserves_run_app|].
  intros []; auto using preserves_ret, preserves_stuck, preserves_quit.
Qed.

Create HintDb frame.

#[local] Hint Resolve preserves_ret preserves_stuck preserves_quit
  preserves_raise preserves_out_of_fuel preserves_run_app
  preserves_maybe_quit : frame.

Ltac frame_loop IH :=
  apply preserves_bind; [auto with frame|];
  let a := fresh "a" in
  intros a; destruct a; auto with frame;
  apply preserves_bind; [auto with frame | intros _; apply IH].

Lemma preserves_input_dialog_loop (p : prompt) (fuel : nat) :
  preserves (input_dialog_loop fuel p).
Proof. induction fuel as [|fuel IH]; cbn; [auto with frame | frame_loop IH]. Qed.

Lemma preserves_yesno_dialog_loop (p : prompt) (fuel : nat) :
  preserves (yesno_dialog_loop fuel p).
Proof. induction fuel as [|fuel IH]; cbn; [auto with frame | frame_loop IH]. Qed.

Lemma preserves_select_dialog_loop (p : prompt) (fuel : nat) :
  preserves (select_dialog_loop fuel p).
Proof. induction fuel as [|fuel IH]; cbn; [auto with frame | frame_loop IH]. Qed.

Lemma preserves_multi_input_dialog_loop (p : prompt)
  (fields : list (string * string)) (fuel : nat) :
  preserves (multi_input_dialog_loop fuel p fields).
Proof. induction fuel as [|fuel IH]; cbn; [auto with frame | frame_loop IH]. Qed.

Lemma preserves_input_dialog (id title text value : string) (password : bool) :
  preserves (input_dialog id title text value password).
Proof. intros w. apply preserves_input_dialog_loop. Qed.

Lemma preserves_yesno_dialog (id title text : string) :
  preserves (yesno_dialog id title text).
Proof. intros w. apply preserves_yesno_dialog_loop. Qed.

Lemma preserves_select_dialog (id title text : string)
  (values : list (string * string)) (value : pyval) :
  preserves (select_dialog id title text values value).
Proof. intros w. apply preserves_select_dialog_loop. Qed.

Lemma preserves_select_with_input_dialog (id title text new_text : string)
  (values : list (string * string)) (value : pyval) :
  preserves (select_with_input_dialog id title text new_text values value).
Proof. intros w. apply preserves_select_dialog_loop. Qed.

Lemma preserves_multi_input_dialog (id title text : string)
  (values : list (string * string)) (value : dict) :
  preserves (multi_input_dialog id title text values value).
Proof.
  unfold multi_input_dialog. destruct (text_fields values value).
  - apply preserves_raise.
  - intros w. apply preserves_multi_input_dialog_loop.
Qed.

#[local] Hint Resolve preserves_input_dialog preserves_yesno_dialog
  preserves_select_dialog preserves_select_with_input_dialog
  preserves_multi_input_dialog : frame.

Lemma preserves_done (A : Type) (m : M A) (w w' : world) (a : A) :
  preserves m -> m w = Done a w' -> same_state w w'.
Proof. intros Hm H. specialize (Hm w). now rewrite H in Hm. Qed.

(** ** Leaving the Terraform dialog *)

(** X2.  In the Terraform dialog a Quit that the operator then declines
    does not run the dialog again, as the other dialogs do: the loop ends
    with [False], whatever the exit code of the command was, even 0; a
    Quit that is confirmed ends the process.  Either way the command has
    been run once and one confirmation has been shown. *)
Theorem run_terraform_quit (cmd : list string) (dir : string) (fuel : nat)
  (w : world) (rc : Z) (sh : list Z) (answer : action) (ops : list action)
  (Hsh : shell w = rc :: sh)
  (Hop : operator w = Quit :: answer :: ops)
  (Ha : answer = Yes \/ answer = No) :
  run_terraform_loop (S fuel) cmd dir w
  = match answer with
    | Yes => Exited (after_confirmation ops (after_run cmd dir sh (answer :: ops) w))
    | _ => Done false (after_confirmation ops (after_run cmd dir sh (answer :: ops) w))
    end.
Proof.
  cbn [run_terraform_loop]. unfold bind at 1.
  rewrite (run_tasks_eq cmd dir w Hsh Hop). unfold bind at 1.
  rewrite (@maybe_quit_eq (after_run cmd dir sh (answer :: ops) w) answer ops
             eq_refl).
  destruct Ha as [-> | ->]; [reflexivity|].
  rewrite andb_false_r. reflexivity.
Qed.

Lemma run_terraform_quit_witness :
  run_terraform_loop 1 ["terraform"; "plan"] "stages/00-cicd"
    (mkWorld [] [] [Quit; No] [0] "" [] [] [])
  = Done false
      (after_confirmation []
         (after_run ["terraform"; "plan"] "stages/00-cicd" [] [No]
            (mkWorld [] [] [Quit; No] [0] "" [] [] []))).
Proof.
  exact (run_terraform_quit ["terraform"; "plan"] "stages/00-cicd" 0
           (mkWorld [] [] [Quit; No] [0] "" [] [] []) eq_refl eq_refl
           (or_intror eq_refl)).
Defined.

Lemma terraform_environ_set (env : list (string * string)) :
  terraform_environ
    (Dict.set (Dict.set (Dict.set env "TF_IN_AUTOMATION" "1") "TF_INPUT" "0")
       "TF_CLI_ARGS" "-no-color").
Proof.
  repeat split.
  - rewrite !get_set_other by discriminate. apply get_set_same.
  - rewrite get_set_other by discriminate. apply get_set_same.
  - apply get_set_same.
Qed.

Lemma run_terraform_loop_environ (cmd : list string) (dir : string)
  (fuel : nat) :
  forall w b w',
    run_terraform_loop fuel cmd dir w = Done b w' ->
    terraform_environ (environ w').
Proof.
  induction fuel as [|fuel IH]; intros w b w'; [discriminate|].
  cbn [run_terraform_loop]. unfold bind at 1.
  destruct (run_tasks cmd dir w) as [[rc result] w1| | | |] eqn:E;
    try discriminate.
  apply run_tasks_done in E as (sh & a & ops & Hsh & Hop & -> & -> & Ha).
  assert (He : terraform_environ (environ (after_run cmd dir sh ops w)))
    by apply terraform_environ_set.
  destruct Ha as [->|[->|[t ->]]].
  - unfold bind at 1.
    destruct (maybe_quit (after_run cmd dir sh ops w)) as [[] w2| | | |] eqn:Hq;
      try discriminate.
    apply maybe_quit_done in Hq as (_ & _ & (Henv & _)).
    rewrite andb_false_r. cbn [negb]. unfold ret. intros [= _ <-].
    now rewrite Henv.
  - unfold bind, ret. rewrite andb_false_r. cbn [negb]. now intros [= _ <-].
  - unfold bind at 1. unfold ret at 1. rewrite andb_true_r. cbn [negb].
    destruct (rc =? 0).
    + unfold ret. now intros [= _ <-].
    + apply IH.
Qed.

(** X3.  Whenever [run_terraform_until_ok] returns, with [True] or with
    [False], the three variables it exports for Terraform are set in the
    environment of the process, and stay set for what follows. *)
Theorem run_terraform_exports (cmd : list string) (dir : string)
  (w w' : world) (b : bool)
  (H : run_terraform_until_ok cmd dir w = Done b w') :
  Dict.get (environ w') "TF_IN_AUTOMATION" = Some "1"
  /\ Dict.get (environ w') "TF_INPUT" = Some "0"
  /\ Dict.get (environ w') "TF_CLI_ARGS" = Some "-no-color".
Proof. exact (run_terraform_loop_environ cmd dir _ _ H). Qed.

Lemma run_terraform_exports_witness :
  Dict.get
    [("TF_INPUT", "0"); ("HOME", "/root"); ("TF_IN_AUTOMATION", "1");
     ("TF_CLI_ARGS", "-no-color")] "TF_INPUT"
  = Some "0".
Proof.
  pose (cmd := ["terraform"; "init"; "-migrate-state"; "-force-copy"]).
  pose (w0 := mkWorld [("TF_INPUT", "1"); ("HOME", "/root")] [] [Previous] [1]
                "" [] [] []).
  pose (w1 := mkWorld
                [("TF_INPUT", "0"); ("HOME", "/root"); ("TF_IN_AUTOMATION", "1");
                 ("TF_CLI_ARGS", "-no-color")]
                [] [] [] "" [] [] (runs 1 cmd "stages/00-bootstrap")).
  assert (H : run_terraform_until_ok cmd "stages/00-bootstrap" w0 = Done false w1)
    by (vm_compute; reflexivity).
  exact (proj1 (proj2 (run_terraform_exports cmd "stages/00-bootstrap" w0 H))).
Defined.

(** ** The text of a mapping, entry by entry *)

Lemma concat_cons (x : string) (l : list string) :
  String.concat "" (x :: l) = x ++ String.concat "" l.
Proof. destruct l; simpl; [now rewrite append_nil_r | reflexivity]. Qed.

Lemma concat_app (l1 l2 : list string) :
  String.concat "" (l1 ++ l2)%list
  = String.concat "" l1 ++ String.concat "" l2.
Proof.
  induction l1 as [|x l1 IH]; [reflexivity|].
  change ((x :: l1) ++ l2)%list with (x :: (l1 ++ l2))%list.
  now rewrite !concat_cons, IH, append_assoc.
Qed.

Lemma print_hcl_items_entries (indent : nat) (d : dict) :
  print_hcl_items indent "" d = String.concat "" (map (entry_text indent) d).
Proof.
  induction d as [|[k v] d IH]; [reflexivity|].
  rewrite print_hcl_items_cons. cbn [map]. rewrite concat_cons, IH.
  unfold entry_text. cbn [fst snd]. now rewrite !append_assoc.
Qed.

(** X4.  The serializer writes at the end of what the file holds, and the
    text of a mapping is the texts of its entries one after the other, in
    the order of the mapping: at depth 0 they are followed by one line
    feed, at any other depth they stand between the two lines of the
    braces.  So the text of a mapping with more entries starts with the
    entries of the shorter one. *)
Theorem print_hcl_entries (d : dict) (f : string) (indent : nat) :
  print_hcl (PDict d) f 0
  = f ++ String.concat "" (map (entry_text 0) d) ++ nl
  /\ print_hcl (PDict d) f (S indent)
     = f ++ spaces (S indent * indent_spaces) ++ "{" ++ nl
       ++ String.concat "" (map (entry_text (S indent)) d)
       ++ spaces (S indent * indent_spaces) ++ "}" ++ nl ++ nl
  /\ forall d', String.concat "" (map (entry_text indent) (d ++ d')%list)
                = String.concat "" (map (entry_text indent) d)
                  ++ String.concat "" (map (entry_text indent) d').
Proof.
  split; [|split].
  - now rewrite print_hcl_app, print_hcl_top, print_hcl_items_entries.
  - now rewrite print_hcl_app, print_hcl_nested, print_hcl_items_entries.
  - intros d'. now rewrite map_app, concat_app.
Qed.

(** ** Mappings inside a list *)

Lemma print_hcl_elems_unwritten (l1 l2 : list pyval) (d d' : dict) :
  forall g b,
    print_hcl_elems g b (l1 ++ PDict d :: l2)%list
    = print_hcl_elems g b (l1 ++ PDict d' :: l2)%list.
Proof.
  induction l1 as [|v l1 IH]; intros g b; [reflexivity|].
  cbn [app print_hcl_elems]. apply IH.
Qed.

(** X5.  A mapping that is an element of a list is written as nothing,
    whatever it holds: the list keeps its brackets and its separators, and
    two lists that differ only by what such a mapping holds have the same
    text. *)
Theorem print_hcl_list_mapping (f : string) (l1 l2 : list pyval) (d d' : dict) :
  print_hcl_scalar f (PList (l1 ++ PDict d :: l2))
  = print_hcl_scalar f (PList (l1 ++ PDict d' :: l2))
  /\ print_hcl_scalar f (PList [PDict d]) = f ++ "[]"
  /\ print_hcl_scalar f (PList [PDict d; PDict d']) = f ++ "[, ]".
Proof.
  split; [|split].
  - rewrite !print_hcl_scalar_list. f_equal. apply print_hcl_elems_unwritten.
  - simpl. now rewrite !append_assoc.
  - simpl. now rewrite !append_assoc.
Qed.

(** ** Files that hold no relative module source *)

Lemma read_text_unix (s : string) : unix_text s = true -> read_text s = s.
Proof.
  unfold unix_text. induction s as [|c s IH]; [reflexivity|].
  cbn [all_chars read_text]. intros H. apply andb_prop in H as [Hc Hs].
  apply negb_true_iff in Hc. rewrite Hc. f_equal. now apply IH.
Qed.

Lemma concat_readlines (s : string) : String.concat "" (readlines s) = s.
Proof.
  induction s as [|c s IH]; [reflexivity|]. cbn [readlines].
  destruct (Ascii.eqb c newline).
  - now rewrite concat_cons, IH.
  - destruct (readlines s) as [|line lines].
    + simpl in IH. now rewrite <- IH.
    + rewrite concat_cons in IH. rewrite concat_cons. simpl. now rewrite IH.
Qed.

Lemma contains_false_concat (sub : string) (l : list string) :
  contains sub (String.concat "" l) = false ->
  Forall (fun line => contains sub line = false) l.
Proof.
  induction l as [|x l IH]; intros H; [constructor|].
  rewrite concat_cons in H. apply contains_false_app in H as [Hx Hl].
  constructor; [exact Hx | now apply IH].
Qed.

Lemma change_module_source_unchanged (content target : string)
  (tag : option string) :
  contains "../modules" content = false ->
  change_module_source content target tag = content.
Proof.
  intros H. unfold change_module_source.
  rewrite <- (concat_readlines content) in H.
  apply contains_false_concat in H.
  rewrite <- (concat_readlines content) at 2. f_equal.
  induction H as [|line lines Hline Hlines IH]; [reflexivity|].
  cbn [map]. rewrite IH. f_equal. unfold rewrite_line.
  now apply re_sub_source_unchanged.
Qed.

(** X6.  A file in which [../modules] does not occur and which holds no
    carriage return is left as it is, byte for byte, whatever the target
    repository and the tag: cutting the text into lines and writing the
    lines one after the other gives the text back.  (A carriage return is
    read as a line feed, and written as one.) *)
Theorem change_module_source_keeps_file (held target : string)
  (tag : option string)
  (Hm : contains "../modules" held = false)
  (Hu : unix_text held = true) :
  change_module_source_file held target tag = held.
Proof.
  unfold change_module_source_file. rewrite (read_text_unix held Hu).
  now apply change_module_source_unchanged.
Qed.

Lemma change_module_source_keeps_file_witness :
  change_module_source_file
    ("variable " ++ q ++ "source" ++ q ++ " {" ++ nl ++ "  default = "
     ++ q ++ "./modules" ++ q ++ nl ++ "}")
    "https://example/repo.git" (Some "v1.2.3")
  = "variable " ++ q ++ "source" ++ q ++ " {" ++ nl ++ "  default = "
    ++ q ++ "./modules" ++ q ++ nl ++ "}".
Proof.
  apply (change_module_source_keeps_file
           ("variable " ++ q ++ "source" ++ q ++ " {" ++ nl ++ "  default = "
            ++ q ++ "./modules" ++ q ++ nl ++ "}")
           "https://example/repo.git" (Some "v1.2.3")); reflexivity.
Defined.

(** ** Relative module sources of any depth *)

Lemma skip_spaces_blank (ws : string) (c : ascii) (s : string) :
  blank ws = true -> is_space c = false ->
  skip_spaces (ws ++ String c s) = (ws, String c s).
Proof.
  unfold blank. intros Hws Hc. induction ws as [|a ws IH].
  - cbn [append skip_spaces]. now rewrite Hc.
  - cbn [all_chars] in Hws. apply andb_prop in Hws as [Ha Hws].
    cbn [append skip_spaces]. rewrite Ha, (IH Hws). reflexivity.
Qed.

Lemma until_quote_quotable (g r : string) :
  quotable g = true -> until_quote (g ++ q ++ r) = Some (g, r).
Proof.
  unfold quotable. induction g as [|c g IH]; intros Hg; [reflexivity|].
  cbn [all_chars] in Hg. apply andb_prop in Hg as [Hc Hg].
  apply andb_prop in Hc as [Hq Hn]. apply negb_true_iff in Hq, Hn.
  cbn [append until_quote]. rewrite Hq, Hn, (IH Hg). reflexivity.
Qed.

Lemma lazy_group_quotable (c : ascii) (g r : string) :
  quotable (String c g) = true ->
  lazy_group (String c g ++ q ++ r) = Some (String c g, r).
Proof.
  unfold quotable. cbn [all_chars]. intros Hg.
  apply andb_prop in Hg as [Hc Hg]. apply andb_prop in Hc as [_ Hn].
  apply negb_true_iff in Hn. cbn [append lazy_group]. rewrite Hn.
  now rewrite (until_quote_quotable g r Hg).
Qed.

Lemma match_source_assignment (ws1 ws2 : string) (c : ascii) (g rest : string) :
  blank ws1 = true -> blank ws2 = true -> quotable (String c g) = true ->
  match_source
    ("source" ++ ws1 ++ "=" ++ ws2 ++ q ++ String c g ++ q ++ rest)
  = Some ("source" ++ ws1 ++ "=" ++ ws2 ++ q, String c g, q, rest).
Proof.
  intros H1 H2 Hg. unfold match_source.
  change (strip_prefix "source"
            ("source" ++ ws1 ++ "=" ++ ws2 ++ q ++ String c g ++ q ++ rest))
    with (Some (ws1 ++ String "=" (ws2 ++ q ++ String c g ++ q ++ rest))).
  cbv beta iota.
  rewrite (skip_spaces_blank ws1 "=" _ H1 eq_refl).
  change (q ++ String c g ++ q ++ rest)
    with (String dquote (String c g ++ q ++ rest)).
  rewrite (skip_spaces_blank ws2 dquote _ H2 eq_refl).
  rewrite Ascii.eqb_refl, (lazy_group_quotable c g rest Hg). reflexivity.
Qed.

Lemma match_source_space (c : ascii) (s : string) :
  is_space c = true -> match_source (String c s) = None.
Proof.
  intros Hc. unfold match_source. cbn [strip_prefix].
  destruct (Ascii.eqb_spec "s" c) as [<-|_]; [discriminate | reflexivity].
Qed.

Lemma re_sub_source_blank (repl : string -> string -> string -> string)
  (lead s : string) :
  blank lead = true ->
  forall fuel,
    re_sub_source (String.length lead + fuel) repl (lead ++ s)
    = lead ++ re_sub_source fuel repl s.
Proof.
  unfold blank. intros Hl fuel. induction lead as [|c lead IH]; [reflexivity|].
  cbn [all_chars] in Hl. apply andb_prop in Hl as [Hc Hl].
  cbn [String.length Nat.add append re_sub_source].
  change (String c (lead ++ s)) with (String c lead ++ s) at 1.
  cbn [append]. rewrite (@match_source_space c (lead ++ s) Hc).
  now rewrite (IH Hl).
Qed.

Lemma remove_dotdotslash_dotdots (n : nat) (s : string) :
  remove_dotdotslash (dotdots n ++ s) = remove_dotdotslash s.
Proof. induction n as [|n IH]; [reflexivity | exact IH]. Qed.

Lemma contains_dotdots_modules (n : nat) (s : string) :
  contains "../modules" (dotdots (S n) ++ "modules" ++ s) = true.
Proof.
  induction n as [|n IH]; [reflexivity|].
  change (dotdots (S (S n)) ++ "modules" ++ s)
    with ("../" ++ (dotdots (S n) ++ "modules" ++ s)).
  now apply contains_app_r.
Qed.

Lemma quotable_dotdots (n : nat) : quotable (dotdots n) = true.
Proof. induction n as [|n IH]; [reflexivity | exact IH]. Qed.

(** X7.  An assignment of [source] to a relative path of any depth into
    [modules], indented and spaced in any way, is rewritten to the remote
    reference: all the steps up are dropped, [git::], the target
    repository and two slashes come before [modules/], and [?ref=] and the
    tag follow when a tag that is not empty is given; the rest of the line
    is kept when [../modules] does not occur in it. *)
Theorem rewrite_line_relative_module (target : string) (tag : option string)
  (lead ws1 ws2 name rest : string) (n : nat)
  (Hlead : blank lead = true) (Hws1 : blank ws1 = true)
  (Hws2 : blank ws2 = true) (Hname : quotable name = true)
  (Hrest : contains "../modules" rest = false) :
  rewrite_line target tag
    (lead ++ "source" ++ ws1 ++ "=" ++ ws2 ++ q
     ++ (dotdots (S n) ++ "modules/" ++ name) ++ q ++ rest)
  = lead ++ "source" ++ ws1 ++ "=" ++ ws2 ++ q
    ++ ("git::" ++ target ++ "//" ++ "modules/" ++ remove_dotdotslash name
        ++ ref_suffix tag)
    ++ q ++ rest.
Proof.
  unfold rewrite_line. rewrite length_append.
  rewrite (re_sub_source_blank _ lead _ Hlead). f_equal.
  assert (Hq : quotable (dotdots (S n) ++ "modules/" ++ name) = true).
  { unfold quotable. rewrite !all_chars_app.
    fold (quotable (dotdots (S n))). fold (quotable name).
    now rewrite quotable_dotdots, Hname. }
  change (dotdots (S n) ++ "modules/" ++ name)
    with (String "." (String "." (String "/" (dotdots n ++ "modules/" ++ name))))
    in *.
  pose proof (@match_source_assignment ws1 ws2 "." _ rest Hws1 Hws2 Hq) as Hm.
  change (String.length
            ("source" ++ ws1 ++ "=" ++ ws2 ++ q
             ++ String "." (String "." (String "/" (dotdots n ++ "modules/" ++ name)))
             ++ q ++ rest))
    with (S (String.length
               ("ource" ++ ws1 ++ "=" ++ ws2 ++ q
                ++ String "." (String "." (String "/" (dotdots n ++ "modules/" ++ name)))
                ++ q ++ rest))).
  cbn [re_sub_source].
  change ("source" ++ ws1 ++ "=" ++ ws2 ++ q
          ++ String "." (String "." (String "/" (dotdots n ++ "modules/" ++ name)))
          ++ q ++ rest)
    with (String "s" ("ource" ++ ws1 ++ "=" ++ ws2 ++ q
          ++ String "." (String "." (String "/" (dotdots n ++ "modules/" ++ name)))
          ++ q ++ rest)) in Hm |- *.
  rewrite Hm. rewrite (re_sub_source_unchanged target tag _ rest Hrest).
  unfold change_module_source_sub.
  change (String "." (String "." (String "/" (dotdots n ++ "modules/" ++ name))))
    with (dotdots (S n) ++ "modules" ++ String "/" name).
  rewrite contains_dotdots_modules, remove_dotdotslash_dotdots.
  change (remove_dotdotslash ("modules" ++ String "/" name))
    with ("modules/" ++ remove_dotdotslash name).
  assert (Ht : (if tag_given tag
                then ("git::" ++ target ++ "//" ++ "modules/" ++ remove_dotdotslash name)
                     ++ "?ref=" ++ match tag with Some t => t | None => "" end
                else "git::" ++ target ++ "//" ++ "modules/" ++ remove_dotdotslash name)
               = "git::" ++ target ++ "//" ++ "modules/" ++ remove_dotdotslash name
                 ++ ref_suffix tag).
  { unfold tag_given, ref_suffix. destruct tag as [t|].
    - destruct (t =? "")%string; cbn [negb].
      + now rewrite !append_nil_r.
      + rewrite !append_assoc. reflexivity.
    - now rewrite !append_nil_r. }
  rewrite Ht. rewrite !append_assoc. reflexivity.
Qed.

Lemma rewrite_line_relative_module_witness :
  rewrite_line "https://github.com/GoogleCloudPlatform/cloud-foundation-fabric.git"
    (Some "v30.0.0")
    ("  source     = " ++ q ++ "../../../modules/net-vpc" ++ q ++ nl)
  = "  source     = " ++ q
    ++ "git::https://github.com/GoogleCloudPlatform/cloud-foundation-fabric.git//modules/net-vpc?ref=v30.0.0"
    ++ q ++ nl.
Proof.
  exact (rewrite_line_relative_module
           "https://github.com/GoogleCloudPlatform/cloud-foundation-fabric.git"
           (Some "v30.0.0") "  " "     " " " "net-vpc" nl 2
           eq_refl eq_refl eq_refl eq_refl eq_refl).
Defined.

(** ** Steps that are left by Previous *)

Lemma select_upstream_modules_back (w w' : world) :
  select_upstream_modules w = Done false w' -> same_state w w'.
Proof.
  unfold select_upstream_modules. unfold bind at 1. cbv beta iota.
  unfold bind at 1.
  match goal with
  | |- context [yesno_dialog ?i ?t ?x w] =>
      pose proof (@preserves_yesno_dialog i t x w) as Hp;
      destruct (yesno_dialog i t x w) as [[got choice] w1| | | |];
      try discriminate
  end.
  destruct got; [discriminate|].
  unfold ret. now intros [= <-].
Qed.

Lemma config_get_done (k : string) (w w' : world) (v : pyval) :
  config_get k w = Done v w' -> Dict.get (config w) k = Some v /\ w' = w.
Proof.
  unfold config_get. destruct (Dict.get (config w) k); [|discriminate].
  now intros [= <- <-].
Qed.

Lemma select_gitlab_url_back (w w' : world) :
  select_gitlab_url w = Done false w' -> same_state w w'.
Proof.
  unfold select_gitlab_url. unfold bind at 1.
  destruct (config_get "cicd" w) as [cicd w1| | | |] eqn:E1; try discriminate.
  apply config_get_done in E1 as [_ ->].
  destruct (is_str cicd "gitlab-ce"); [|discriminate].
  unfold bind at 1.
  destruct (config_get "domain" w) as [domain w1| | | |] eqn:E2;
    try discriminate.
  apply config_get_done in E2 as [_ ->]. unfold bind at 1.
  match goal with
  | |- context [input_dialog ?i ?t ?x ?v ?p w] =>
      pose proof (@preserves_input_dialog i t x v p w) as Hp;
      destruct (input_dialog i t x v p w) as [choice w1| | | |];
      try discriminate
  end.
  destruct (truthy choice); [discriminate|].
  unfold ret. now intros [= <-].
Qed.

Lemma select_gitlab_group_back (w w' : world) :
  select_gitlab_group w = Done false w' -> same_state w w'.
Proof.
  unfold select_gitlab_group. unfold bind at 1.
  destruct (config_get "gitlab_url" w) as [url w1| | | |] eqn:E1;
    try discriminate.
  apply config_get_done in E1 as [_ ->]. unfold bind at 1.
  unfold environ_get at 1.
  destruct (Dict.get (environ w) "GITLAB_TOKEN"); [|discriminate].
  unfold bind at 1. cbv beta iota. unfold bind at 1.
  destruct (config_get "gitlab_group" w) as [current w1| | | |] eqn:E2;
    try discriminate.
  apply config_get_done in E2 as [_ ->]. unfold bind at 1.
  match goal with
  | |- context [select_with_input_dialog ?i ?t ?x ?n ?vs ?v w] =>
      pose proof (@preserves_select_with_input_dialog i t x n vs v w) as Hp;
      destruct (select_with_input_dialog i t x n vs v w)
        as [[got choice] w1| | | |];
      try discriminate
  end.
  destruct got.
  - unfold bind, config_set, ret.
    destruct (match choice with
              | PStr c =>
                  Dict.mem
                    (Dict.set (group_values (gitlab_groups w)) "_"
                       "New group (enter name below)") c
              | _ => false
              end); discriminate.
  - unfold ret. now intros [= <-].
Qed.

(** X8.  A step of the GitLab wizard that returns [False], so that the
    wizard goes back, has changed nothing: the configuration, the
    environment and the files are as they were when the step was entered;
    only dialogs have been shown.  This holds for the steps
    [upstream_modules], [gitlab_url] and [gitlab_group]. *)
Theorem step_back_keeps_state (step : M bool) (w w' : world)
  (Hstep : In step
             [select_upstream_modules; select_gitlab_url; select_gitlab_group])
  (H : step w = Done false w') :
  same_state w w'.
Proof.
  destruct Hstep as [<-|[<-|[<-|[]]]].
  - now apply select_upstream_modules_back.
  - now apply select_gitlab_url_back.
  - now apply select_gitlab_group_back.
Qed.

Lemma step_back_keeps_state_witness :
  same_state
    (mkWorld [("GITLAB_TOKEN", "glpat-1")]
       [("gitlab_url", PStr "https://gitlab.com"); ("gitlab_group", PNone)]
       [Quit; No; Previous] [] "v30.0.0" [("fast", "FAST")] [] [])
    (mkWorld [("GITLAB_TOKEN", "glpat-1")]
       [("gitlab_url", PStr "https://gitlab.com"); ("gitlab_group", PNone)]
       [] [] "v30.0.0" [("fast", "FAST")] []
       (let p :=
          SelectWithInputDialog "gitlab_group"
            "Select Gitlab group for repositories"
            "Select existing Gitlab group for repositories, or specify a new one."
            "New group name:"
            [("fast", "FAST"); ("_", "New group (enter name below)")] PNone in
        [Show p; Show QuitConfirmation; Show p])).
Proof.
  apply (@step_back_keeps_state select_gitlab_group).
  - right. right. left. reflexivity.
  - vm_compute. reflexivity.
Defined.

(** ** The roles granted by [select_prerequisites] *)

Lemma set_role_table (f : string -> bool) (r : string) :
  required r = true ->
  Dict.set (role_table f) r true
  = role_table (fun x => (x =? r)%string || f x).
Proof.
  unfold required, role_table, Dict.mem, has_bindings.
  cbn [map fst Dict.get Dict.set].
  destruct (String.eqb_spec "roles/billing.admin" r) as [<-|H1];
    [reflexivity|].
  destruct (String.eqb_spec "roles/logging.admin" r) as [<-|H2];
    [reflexivity|].
  destruct (String.eqb_spec "roles/iam.organizationRoleAdmin" r) as [<-|H3];
    [reflexivity|].
  destruct (String.eqb_spec "roles/resourcemanager.projectCreator" r)
    as [<-|H4]; [reflexivity | discriminate].
Qed.

Lemma mem_role_table (f : string -> bool) (r : string) :
  Dict.mem (role_table f) r = required r.
Proof.
  unfold required, role_table, Dict.mem, has_bindings.
  cbn [map fst Dict.get].
  repeat match goal with
         | |- context [(?k =? r)%string] => destruct (k =? r)%string
         end; reflexivity.
Qed.

Lemma role_table_ext (f g : string -> bool) :
  (forall r, required r = true -> f r = g r) -> role_table f = role_table g.
Proof.
  intros H. unfold role_table, has_bindings. cbn [map fst].
  rewrite !H by reflexivity. reflexivity.
Qed.

Lemma bindings_loop_eq (u : string) (bindings : list binding) :
  forall f g,
    bindings_loop u bindings (role_table f) (role_table g)
    = (map (grant u) bindings,
       role_table (fun r => has_role r bindings || f r),
       role_table (fun r => lacks u r bindings || g r)).
Proof.
  induction bindings as [|b bs IH]; intros f g; [reflexivity|].
  cbn [bindings_loop map]. rewrite mem_role_table.
  assert (Hg : grant u b
               = if required (role b) && negb (member u (members b))
                 then mkBinding (role b) (members b ++ [u]) (others b)
                 else b) by reflexivity.
  destruct (required (role b)) eqn:Hr; cbn [andb] in Hg.
  - rewrite (set_role_table f (role b) Hr).
    destruct (member u (members b)) eqn:Hm; cbn [negb role] in Hg |- *.
    + rewrite IH, Hg.
      f_equal; [f_equal|]; apply role_table_ext; intros r _;
        unfold has_role, lacks; cbn [existsb]; rewrite ?Hm;
        rewrite ?(String.eqb_sym r (role b));
        destruct (role b =? r)%string; cbn [andb orb negb];
        repeat match goal with
               | |- context [existsb ?p bs] => destruct (existsb p bs)
               end; reflexivity.
    + rewrite (set_role_table g (role b) Hr), IH, Hg.
      f_equal; [f_equal|]; apply role_table_ext; intros r _;
        unfold has_role, lacks; cbn [existsb]; rewrite ?Hm;
        rewrite ?(String.eqb_sym r (role b));
        destruct (role b =? r)%string; cbn [andb orb negb];
        repeat match goal with
               | |- context [existsb ?p bs] => destruct (existsb p bs)
               end; reflexivity.
  - rewrite IH, Hg.
    f_equal; [f_equal|]; apply role_table_ext; intros r Hreq;
      unfold has_role, lacks; cbn [existsb];
      destruct (String.eqb_spec (role b) r) as [<-|_];
      try congruence; reflexivity.
Qed.

Lemma required_in (r : string) :
  required r = true -> In (r, false) has_bindings.
Proof.
  unfold required, Dict.mem, has_bindings. cbn [Dict.get In].
  destruct (String.eqb_spec "roles/billing.admin" r) as [<-|H1]; [tauto|].
  destruct (String.eqb_spec "roles/logging.admin" r) as [<-|H2]; [tauto|].
  destruct (String.eqb_spec "roles/iam.organizationRoleAdmin" r) as [<-|H3];
    [tauto|].
  destruct (String.eqb_spec "roles/resourcemanager.projectCreator" r)
    as [<-|H4]; [tauto | discriminate].
Qed.

Lemma in_required (r : string) (v : bool) :
  In (r, v) has_bindings -> required r = true.
Proof.
  unfold has_bindings. cbn [In].
  intros [[= <- <-]|[[= <- <-]|[[= <- <-]|[[= <- <-]|[]]]]]; reflexivity.
Qed.

Lemma prerequisite_bindings_fst (user_account : string)
  (bindings : list binding) :
  fst (prerequisite_bindings user_account bindings)
  = (map (grant (user_account_iam user_account)) bindings
     ++ new_bindings (user_account_iam user_account) bindings)%list.
Proof.
  unfold prerequisite_bindings.
  change has_bindings with (role_table (fun _ => false)) at 1 2.
  rewrite bindings_loop_eq.
  unfold role_table at 1, new_bindings, has_bindings.
  cbn [map fst snd filter]. rewrite !orb_false_r.
  destruct (has_role "roles/billing.admin" bindings),
    (has_role "roles/logging.admin" bindings),
    (has_role "roles/iam.organizationRoleAdmin" bindings),
    (has_role "roles/resourcemanager.projectCreator" bindings);
    cbn [roles_loop negb fst map]; rewrite <- ?app_assoc, ?app_nil_r; reflexivity.
Qed.

Lemma member_last (u : string) (l : list string) :
  member u (l ++ [u]) = true.
Proof.
  unfold member. rewrite existsb_app. cbn [existsb].
  now rewrite String.eqb_refl, orb_true_r.
Qed.

Lemma role_grant (u : string) (b : binding) : role (grant u b) = role b.
Proof. unfold grant. now destruct (_ && _). Qed.

Lemma granted_all (user_account : string) (bindings : list binding)
  (b : binding) :
  In b (fst (prerequisite_bindings user_account bindings)) ->
  required (role b) = true ->
  member (user_account_iam user_account) (members b) = true.
Proof.
  rewrite prerequisite_bindings_fst. intros Hin Hr.
  apply in_app_or in Hin as [Hin|Hin].
  - apply in_map_iff in Hin as (b0 & <- & _). rewrite role_grant in Hr.
    unfold grant. rewrite Hr. cbn [andb].
    destruct (member _ (members b0)) eqn:Hm; cbn [negb members];
      [exact Hm | apply member_last].
  - apply in_map_iff in Hin as (kv & <- & _). unfold member.
    cbn [members existsb]. now rewrite String.eqb_refl.
Qed.

Lemma bound_all (user_account : string) (bindings : list binding)
  (r : string) :
  required r = true ->
  exists b,
    In b (fst (prerequisite_bindings user_account bindings)) /\ role b = r.
Proof.
  intros Hr. rewrite prerequisite_bindings_fst.
  destruct (has_role r bindings) eqn:Hh.
  - apply existsb_exists in Hh as (b & Hb & Heq).
    apply String.eqb_eq in Heq.
    exists (grant (user_account_iam user_account) b). split.
    + apply in_or_app. left. now apply in_map.
    + now rewrite role_grant.
  - exists (mkBinding r [user_account_iam user_account] []). split; [|reflexivity].
    apply in_or_app. right. unfold new_bindings.
    apply (in_map (fun kv : string * bool =>
                     mkBinding (fst kv) [user_account_iam user_account] [])
             _ (r, false)).
    apply filter_In. split; [now apply required_in|].
    cbn [fst]. now rewrite Hh.
Qed.

(** X9.  The two loops of [select_prerequisites] leave a policy in which
    every role asked for has a binding and every binding of such a role
    has the user among its members; no binding and no member is taken
    away, and a binding of any other role is one the organization already
    had. *)
Theorem prerequisites_grant_roles (user_account : string)
  (bindings : list binding) :
  let u := user_account_iam user_account in
  let policy := fst (prerequisite_bindings user_account bindings) in
  (forall r, required r = true -> exists b, In b policy /\ role b = r)
  /\ (forall b, In b policy -> required (role b) = true ->
                member u (members b) = true)
  /\ (forall b, In b bindings ->
        exists b', In b' policy /\ role b' = role b
                   /\ others b' = others b
                   /\ forall m, In m (members b) -> In m (members b'))
  /\ (forall b, In b policy -> required (role b) = false -> In b bindings).
Proof.
  cbv zeta. split; [|split; [|split]].
  - intros r Hr. now apply bound_all.
  - intros b Hb Hr. now apply (@granted_all user_account bindings).
  - intros b Hb. exists (grant (user_account_iam user_account) b).
    rewrite prerequisite_bindings_fst. split; [|split; [|split]].
    + apply in_or_app. left. now apply in_map.
    + apply role_grant.
    + unfold grant. now destruct (_ && _).
    + intros m Hm. unfold grant. destruct (_ && _); [|exact Hm].
      cbn [members]. apply in_or_app. now left.
  - intros b Hb Hr. rewrite prerequisite_bindings_fst in Hb.
    apply in_app_or in Hb as [Hb|Hb].
    + apply in_map_iff in Hb as (b0 & <- & Hb0). rewrite role_grant in Hr.
      unfold grant. rewrite Hr. exact Hb0.
    + apply in_map_iff in Hb as ([r v] & <- & Hkv).
      apply filter_In in Hkv as [Hkv _]. apply in_required in Hkv.
      cbn [role fst] in Hr. congruence.
Qed.

(** X10.  The two loops are idempotent: run on the policy they have made,
    they change no binding and mark no role to add, so the text of the
    confirmation lists no role, [anything_to_add] stays [False], and
    [select_prerequisites] asks nothing and sets no policy. *)
Theorem prerequisites_idempotent (user_account : string)
  (bindings : list binding) (text : string) :
  let policy := fst (prerequisite_bindings user_account bindings) in
  prerequisite_bindings user_account policy = (policy, has_bindings)
  /\ roles_text (snd (prerequisite_bindings user_account policy)) text false
     = (text, false).
Proof.
  cbv zeta.
  assert (E : prerequisite_bindings user_account
                (fst (prerequisite_bindings user_account bindings))
              = (fst (prerequisite_bindings user_account bindings),
                 has_bindings)).
  { set (policy := fst (prerequisite_bindings user_account bindings)).
    unfold prerequisite_bindings.
    change has_bindings with (role_table (fun _ => false)) at 1 2.
    rewrite bindings_loop_eq.
    assert (E1 : map (grant (user_account_iam user_account)) policy = policy).
    { rewrite <- (map_id policy) at 2. apply map_ext_in. intros b Hb.
      unfold grant. destruct (required (role b)) eqn:Hr; [|reflexivity].
      now rewrite (granted_all user_account bindings b Hb Hr). }
    assert (E2 : role_table (fun r => has_role r policy || false)
                 = role_table (fun _ => true)).
    { apply role_table_ext. intros r Hr. rewrite orb_false_r.
      destruct (bound_all user_account bindings r Hr) as (b & Hb & Heq).
      apply existsb_exists. exists b. split; [exact Hb|].
      now apply String.eqb_eq. }
    assert (E3 : role_table
                   (fun r => lacks (user_account_iam user_account) r policy
                             || false)
                 = role_table (fun _ => false)).
    { apply role_table_ext. intros r Hr. rewrite orb_false_r.
      destruct (lacks _ r policy) eqn:Hl; [|reflexivity].
      apply existsb_exists in Hl as (b & Hb & Hc).
      apply andb_prop in Hc as [Heq Hm]. apply String.eqb_eq in Heq.
      subst r. now rewrite (granted_all user_account bindings b Hb Hr) in Hm. }
    rewrite E1, E2, E3. reflexivity. }
  split; [exact E|]. rewrite E. reflexivity.
Qed.

(** ** Where [select_git] copies the outputs *)

Lemma has_slash_basename (p : string) : has_slash (basename p) = false.
Proof.
  induction p as [|c p IH]; [reflexivity|]. cbn [basename].
  destruct (has_slash p) eqn:Hp; [exact IH|].
  destruct (Ascii.eqb c "/") eqn:Hc; [exact Hp|].
  cbn [has_slash]. now rewrite Hc, Hp.
Qed.

Lemma has_slash_app (a b : string) :
  has_slash (a ++ b) = has_slash a || has_slash b.
Proof.
  induction a as [|c a IH]; [reflexivity|].
  cbn [append has_slash]. now rewrite IH, orb_assoc.
Qed.

Lemma basename_app (p n : string) :
  has_slash n = false -> basename (p ++ "/" ++ n) = n.
Proof.
  intros Hn. induction p as [|c p IH].
  - cbn [append basename]. now rewrite Hn.
  - cbn [append basename]. rewrite has_slash_app. cbn [has_slash append].
    rewrite Ascii.eqb_refl, orb_true_r. exact IH.
Qed.

Lemma basename_follows (name : string) :
  follows_last_slash name (basename name).
Proof.
  split; [apply has_slash_basename|].
  induction name as [|c p IH]; [now left|]. cbn [basename].
  destruct (has_slash p) eqn:Hp.
  - destruct IH as [E|(p0 & E)].
    + rewrite E, has_slash_basename in Hp. discriminate Hp.
    + right. exists (String c p0).
      change (String c p = String c (p0 ++ "/" ++ basename p)). now f_equal.
  - destruct (Ascii.eqb_spec c "/") as [->|Hc]; [|now left].
    right. now exists "".
Qed.

(** What follows the last slash is determined by the name. *)
Lemma follows_last_slash_unique (name id id' : string) :
  follows_last_slash name id -> follows_last_slash name id' -> id = id'.
Proof.
  assert (B : forall n i, follows_last_slash n i -> i = basename n).
  { intros n i [Hi [->|(p & ->)]].
    - induction i as [|c i IH]; [reflexivity|].
      cbn [has_slash] in Hi. apply orb_false_elim in Hi as [Hc Hi].
      cbn [basename]. now rewrite Hi, Hc.
    - now rewrite basename_app. }
  intros H H'. now rewrite (B _ _ H), (B _ _ H').
Qed.

Lemma under_not_beside (dir name n : string) :
  has_slash n = false -> dir ++ n <> dir ++ "/" ++ name.
Proof.
  intros Hn. induction dir as [|c dir IH].
  - cbn [append]. intros ->. discriminate.
  - cbn [append]. intros [= H]. exact (IH H).
Qed.

Lemma copied_beside_refl (dir : string) (w : world) : copied_beside dir w w.
Proof. split; auto. Qed.

Lemma copied_beside_trans (dir : string) (w1 w2 w3 : world) :
  copied_beside dir w1 w2 -> copied_beside dir w2 w3 ->
  copied_beside dir w1 w3.
Proof.
  intros [H1 H2] [H3 H4]. split.
  - auto.
  - intros name. now rewrite H4, H2.
Qed.

Lemma mem_set (V : Type) (d : list (string * V)) (k k' : string) (v : V) :
  Dict.mem d k' = true -> Dict.mem (Dict.set d k v) k' = true.
Proof.
  unfold Dict.mem. intros H. destruct (String.eqb_spec k k') as [->|Hk].
  - now rewrite get_set_same.
  - now rewrite get_set_other.
Qed.

Lemma copy_if_exists_beside (path dir n : string) (w : world) :
  has_slash n = false ->
  exists w',
    copy_if_exists path (dir ++ n) w = Done tt w'
    /\ copied_beside dir w w'
    /\ (Dict.mem (files w) path = true ->
        Dict.mem (files w') (dir ++ n) = true).
Proof.
  intros Hn. unfold copy_if_exists, bind, path_exists, copy_file, Dict.mem.
  destruct (Dict.get (files w) path) as [text|] eqn:E; cbv beta iota;
    rewrite ?E.
  - eexists. split; [reflexivity|]. cbn [files with_files]. split; [split|].
    + intros p Hp. now apply mem_set.
    + intros name. apply get_set_other. now apply under_not_beside.
    + intros _. unfold Dict.mem. now rewrite get_set_same.
  - exists w. split; [reflexivity|]. split; [apply copied_beside_refl|].
    discriminate.
Qed.

Lemma for_each_beside (A : Type) (dir : string) (body : A -> M unit)
  (l : list A) :
  (forall x w, exists w', body x w = Done tt w' /\ copied_beside dir w w') ->
  forall w,
    exists w', for_each l body w = Done tt w' /\ copied_beside dir w w'.
Proof.
  intros Hb. induction l as [|x l IH]; intros w.
  - exists w. split; [reflexivity | apply copied_beside_refl].
  - cbn [for_each]. unfold bind.
    destruct (Hb x w) as (w1 & -> & H1).
    destruct (IH w1) as (w2 & -> & H2).
    exists w2. split; [reflexivity|]. exact (copied_beside_trans H1 H2).
Qed.

Lemma copy_dependencies_beside (outputs_path temp_dir repository : string)
  (w : world) :
  Dict.mem repository_dependencies repository = true ->
  exists w',
    copy_dependencies outputs_path temp_dir repository w = Done tt w'
    /\ copied_beside temp_dir w w'.
Proof.
  unfold copy_dependencies, Dict.mem.
  destruct (Dict.get repository_dependencies repository) as [stages|];
    [intros _ | discriminate].
  apply for_each_beside. intros dependencies w1.
  apply for_each_beside. intros dependency w2.
  destruct (@copy_if_exists_beside
              (outputs_path ++ "/tfvars/" ++ dependency ++ ".auto.tfvars.json")
              temp_dir
              (basename
                 (outputs_path ++ "/tfvars/" ++ dependency
                  ++ ".auto.tfvars.json"))
              w2 (has_slash_basename _)) as (w3 & H & Hb & _).
  now exists w3.
Qed.

(** X11.  The outputs that [select_git] copies for a repository are not
    put into the directory it has made for the stage: the target of each
    copy is the name of the directory followed at once by the name of the
    file, without a slash between them.  So with the globals file among
    the outputs, the copy is the file named by the directory and
    [globals.auto.tfvars.json] joined, and nothing under the directory is
    written or changed. *)
Theorem copy_outputs_beside (outputs_path temp_dir stage repository : string)
  (w : world) (text : string)
  (Hrepo : Dict.mem repository_dependencies repository = true)
  (Hglobals : Dict.get (files w)
                (outputs_path ++ "/tfvars/globals.auto.tfvars.json")
              = Some text) :
  exists w',
    copy_outputs outputs_path temp_dir stage repository w = Done tt w'
    /\ Dict.mem (files w') (temp_dir ++ "globals.auto.tfvars.json") = true
    /\ forall name,
         Dict.get (files w') (temp_dir ++ "/" ++ name)
         = Dict.get (files w) (temp_dir ++ "/" ++ name).
Proof.
  unfold copy_outputs.
  destruct (@copy_if_exists_beside
              (outputs_path ++ "/providers/" ++ stage ++ "-providers.tf")
              temp_dir
              (basename
                 (outputs_path ++ "/providers/" ++ stage ++ "-providers.tf"))
              w (has_slash_basename _)) as (w1 & E1 & H1 & _).
  unfold bind at 1. rewrite E1.
  destruct (@copy_if_exists_beside
              (outputs_path ++ "/tfvars/globals.auto.tfvars.json")
              temp_dir
              (basename (outputs_path ++ "/tfvars/globals.auto.tfvars.json"))
              w1 (has_slash_basename _)) as (w2 & E2 & H2 & G2).
  unfold bind at 1. rewrite E2.
  destruct (@copy_if_exists_beside
              (outputs_path ++ "/workflows/" ++ repository ++ "-workflow.yaml")
              temp_dir ".gitlab-ci.yml" w2 eq_refl) as (w3 & E3 & H3 & _).
  unfold bind at 1. rewrite E3.
  destruct (copy_dependencies_beside outputs_path temp_dir repository w3 Hrepo)
    as (w4 & E4 & H4).
  exists w4. split; [exact E4|].
  pose proof (copied_beside_trans H3 H4) as H34.
  split.
  - apply (proj1 H34).
    assert (Eb : basename (outputs_path ++ "/tfvars/globals.auto.tfvars.json")
                 = "globals.auto.tfvars.json").
    { change (outputs_path ++ "/tfvars/globals.auto.tfvars.json")
        with (outputs_path ++ "/tfvars" ++ "/" ++ "globals.auto.tfvars.json").
      rewrite <- append_assoc. now apply basename_app. }
    rewrite Eb in G2. apply G2. apply (proj1 H1). unfold Dict.mem. now rewrite Hglobals.
  - exact (proj2 (copied_beside_trans H1 (copied_beside_trans H2 H34))).
Qed.

Lemma copy_outputs_beside_witness :
  exists w',
    copy_outputs "/work/outputs" "/tmp/00-cicdx1" "00-cicd" "cicd"
      (mkWorld [] [] [] [] "" []
         [("/work/outputs/tfvars/globals.auto.tfvars.json", "{}")] [])
    = Done tt w'
    /\ Dict.mem (files w') "/tmp/00-cicdx1globals.auto.tfvars.json" = true
    /\ forall name,
         Dict.get (files w') ("/tmp/00-cicdx1" ++ "/" ++ name)
         = Dict.get
             (files
                (mkWorld [] [] [] [] "" []
                   [("/work/outputs/tfvars/globals.auto.tfvars.json", "{}")]
                   []))
             ("/tmp/00-cicdx1" ++ "/" ++ name).
Proof.
  exact (@copy_outputs_beside "/work/outputs" "/tmp/00-cicdx1" "00-cicd" "cicd"
           (mkWorld [] [] [] [] "" []
              [("/work/outputs/tfvars/globals.auto.tfvars.json", "{}")] [])
           "{}" eq_refl eq_refl).
Defined.

Lemma for_each_nothing (A : Type) (body : A -> M unit) (l : list A)
  (w : world) :
  (forall x, In x l -> body x w = Done tt w) ->
  for_each l body w = Done tt w.
Proof.
  induction l as [|x l IH]; intros H; [reflexivity|].
  cbn [for_each]. unfold bind. rewrite (H x (or_introl eq_refl)).
  apply IH. intros y Hy. apply H. now right.
Qed.

Lemma characters_one (s x : string) :
  In x (characters s) -> exists c, x = String c "".
Proof.
  induction s as [|c s IH]; [intros []|].
  cbn [characters In]. intros [<-|H]; [now exists c | now apply IH].
Qed.

(** X12.  The loop over the dependencies of a repository goes through the
    characters of the name of each stage it depends on, and looks for the
    variables file of each character.  So when the outputs hold no
    variables file named by one character, nothing is copied for the
    dependencies, whatever variables files of the earlier stages the
    outputs hold. *)
Theorem copy_dependencies_by_character
  (outputs_path temp_dir repository : string) (w : world)
  (Hrepo : Dict.mem repository_dependencies repository = true)
  (Hone : forall c,
      Dict.mem (files w)
        (outputs_path ++ "/tfvars/" ++ String c "" ++ ".auto.tfvars.json")
      = false) :
  copy_dependencies outputs_path temp_dir repository w = Done tt w.
Proof.
  unfold copy_dependencies, Dict.mem in *.
  destruct (Dict.get repository_dependencies repository) as [stages|];
    [|discriminate].
  apply for_each_nothing. intros dependencies _.
  apply for_each_nothing. intros dependency Hd.
  apply characters_one in Hd as (c & ->).
  unfold copy_if_exists, bind, path_exists, Dict.mem.
  specialize (Hone c).
  destruct (Dict.get (files w)
              (outputs_path ++ "/tfvars/" ++ String c "" ++ ".auto.tfvars.json"));
    [discriminate | reflexivity].
Qed.

Lemma copy_dependencies_by_character_witness :
  copy_dependencies "out" "/tmp/01-resmanx1" "resman"
    (mkWorld [] [] [] [] "" []
       [("out/tfvars/00-bootstrap.auto.tfvars.json", "{}")] [])
  = Done tt
      (mkWorld [] [] [] [] "" []
         [("out/tfvars/00-bootstrap.auto.tfvars.json", "{}")] []).
Proof.
  apply (@copy_dependencies_by_character "out" "/tmp/01-resmanx1" "resman"
           (mkWorld [] [] [] [] "" []
              [("out/tfvars/00-bootstrap.auto.tfvars.json", "{}")] [])).
  - reflexivity.
  - intros [[] [] [] [] [] [] [] []]; reflexivity.
Defined.

(** ** Writing the CI/CD configuration *)

Lemma config_get_eq (k : string) (w : world) (v : pyval) :
  Dict.get (config w) k = Some v -> config_get k w = Done v w.
Proof. intros H. unfold config_get. now rewrite H. Qed.

Lemma bind_done (A B : Type) (m : M A) (k : A -> M B) (w w' : world) (a : A) :
  m w = Done a w' -> bind m k w = k a w'.
Proof. intros H. unfold bind. now rewrite H. Qed.

Lemma run_shell_eq (cmd : list string) (dir : string) (w : world) (rc : Z)
  (sh : list Z) :
  shell w = rc :: sh ->
  run_shell cmd dir w = Done rc (with_shell sh (with_log (RunShell cmd dir) w)).
Proof. intros H. unfold run_shell. now rewrite H. Qed.

Lemma bind_raised (A B : Type) (m : M A) (k : A -> M B) (w w' : world)
  (e : py_exception) :
  m w = Raised e w' -> bind m k w = Raised e w'.
Proof. intros H. unfold bind. now rewrite H. Qed.

Lemma cicd_repositories_loop_raises (provider ns : string)
  (create_group : M pyval) (items : dict) (w : world) (e : py_exception) :
  first_unknown items = Some e ->
  Dict.mem (config w) ns = true ->
  (exists v, create_group w = Done v w) ->
  forall cicd_config,
    cicd_repositories_loop provider ns create_group items cicd_config w
    = Raised e w.
Proof.
  intros He Hns [cg Hcg]. unfold Dict.mem in Hns.
  destruct (Dict.get (config w) ns) as [namespace|] eqn:En; [|discriminate].
  induction items as [|[k v] items IH]; intros cicd_config; [discriminate|].
  cbn [cicd_repositories_loop first_unknown] in *.
  rewrite (@bind_done _ _ _ _ _ _ _ (config_get_eq _ _ En)).
  destruct (repository_description v) as [e'|description].
  - injection He as ->. reflexivity.
  - cbn [lift]. unfold bind at 1, ret at 1.
    rewrite (@bind_done _ _ _ _ _ _ _ Hcg). now apply IH.
Qed.

Lemma write_cicd_config_github_loop (outputs_path filename : string)
  (w : world) (d : dict) (org : pyval) :
  Dict.get (config w) "cicd" = Some (PStr "github") ->
  Dict.get (config w) "github_organization" = Some org ->
  Dict.get (config w) "github_repositories" = Some (PDict d) ->
  write_cicd_config outputs_path filename w
  = bind
      (cicd_repositories_loop "github" "github_organization"
         (create_group_of "github") d
         (cicd_content outputs_path "github" (modules_first d)))
      (fun cicd_config => write_config cicd_config filename)
      (before_repositories "github" filename org w).
Proof.
  intros Hc Eo Hr.
  unfold write_cicd_config.
  rewrite (@bind_done _ _ _ _ _ _ _
             (eq_refl : write_file filename "" w
                        = Done tt (with_files (fun fs => Dict.set fs filename "") w))).
  set (w1 := with_files (fun fs => Dict.set fs filename "") w).
  assert (Hc1 : Dict.get (config w1) "cicd" = Some (PStr "github")) by exact Hc.
  rewrite (@bind_done _ _ _ _ _ _ _ (config_get_eq _ _ Hc1)).
  cbn [py_in lift].
  change (contains "gitlab" "github") with false.
  unfold bind at 1, ret at 1. unfold bind at 1, ret at 1.
  rewrite (@bind_done _ _ _ _ _ _ _ (config_get_eq _ _ Hc1)).
  change (is_str (PStr "github") "github") with true. cbv iota.
  assert (Ho1 : Dict.get (config w1) "github_organization" = Some org)
    by exact Eo.
  unfold bind at 1.
  rewrite (@bind_done _ _ _ _ _ _ _ (config_get_eq _ _ Ho1)).
  rewrite (@bind_done _ _ _ _ _ _ _
             (eq_refl : config_set "bootstrap_identity_providers"
                          (identity_providers "github" org PNone) w1
                        = Done tt _)).
  rewrite (@bind_done _ _ _ _ _ _ _
             (eq_refl : config_set "bootstrap_repositories"
                          (bootstrap_repositories "github") _
                        = Done tt _)).
  fold w1. change (with_config _ (with_config _ w1))
    with (before_repositories "github" filename org w).
  assert (Hr2 : Dict.get (config (before_repositories "github" filename org w))
                  "github_repositories" = Some (PDict d)).
  { unfold before_repositories. cbn [config with_config with_files].
    rewrite !get_set_other by discriminate. exact Hr. }
  rewrite (@bind_done _ _ _ _ _ _ _ (config_get_eq _ _ Hr2)).
  unfold modules_entry. cbn [py_in lift]. unfold bind at 3, ret at 1.
  unfold bind at 2, ret at 1.
  unfold cicd_content, modules_first. destruct (Dict.mem d "modules");
    reflexivity.
Qed.

Lemma write_cicd_config_gitlab_com_loop (outputs_path filename : string)
  (w : world) (d : dict) (group : pyval) :
  Dict.get (config w) "cicd" = Some (PStr "gitlab-com") ->
  Dict.get (config w) "gitlab_group" = Some group ->
  Dict.get (config w) "gitlab_repositories" = Some (PDict d) ->
  exists after : dict -> M unit,
    write_cicd_config outputs_path filename w
    = bind
        (cicd_repositories_loop "gitlab" "gitlab_group"
           (create_group_of "gitlab-com") d
           (cicd_content outputs_path "gitlab-com" (modules_first d)))
        after
        (before_repositories "gitlab-com" filename group w)
    /\ forall cicd_config,
         after cicd_config (before_repositories "gitlab-com" filename group w)
         = write_config cicd_config filename
             (before_repositories "gitlab-com" filename group w).
Proof.
  intros Hc Eg Hr.
  assert (Hc3 : Dict.get (config (before_repositories "gitlab-com" filename group w))
                  "cicd" = Some (PStr "gitlab-com")).
  { unfold before_repositories. cbn [config with_config with_files].
    rewrite !get_set_other by discriminate. exact Hc. }
  assert (Hr3 : Dict.get (config (before_repositories "gitlab-com" filename group w))
                  "gitlab_repositories" = Some (PDict d)).
  { unfold before_repositories. cbn [config with_config with_files].
    rewrite !get_set_other by discriminate. exact Hr. }
  eexists. split.
  - unfold write_cicd_config.
    rewrite (@bind_done _ _ _ _ _ _ _
               (eq_refl : write_file filename "" w
                          = Done tt (with_files (fun fs => Dict.set fs filename "") w))).
    set (w1 := with_files (fun fs => Dict.set fs filename "") w).
    assert (Hc1 : Dict.get (config w1) "cicd" = Some (PStr "gitlab-com"))
      by exact Hc.
    rewrite (@bind_done _ _ _ _ _ _ _ (config_get_eq _ _ Hc1)).
    cbn [py_in lift].
    change (contains "gitlab" "gitlab-com") with true.
    unfold bind at 1, ret at 1. cbv iota.
    assert (Hg1 : Dict.get (config w1) "gitlab_group" = Some group) by exact Eg.
    set (w2 := with_config
                 (fun c => Dict.set c "bootstrap_identity_providers"
                             (identity_providers "gitlab" group PNone)) w1).
    assert (Hc2 : Dict.get (config w2) "cicd" = Some (PStr "gitlab-com")).
    { unfold w2, w1. cbn [config with_config with_files].
      rewrite !get_set_other by discriminate. exact Hc. }
    unfold bind at 1.
    rewrite (@bind_done _ _ _ _ _ _ _ (config_get_eq _ _ Hg1)).
    rewrite (@bind_done _ _ _ _ _ _ _
               (eq_refl : config_set "bootstrap_identity_providers"
                            (identity_providers "gitlab" group PNone) w1
                          = Done tt w2)).
    rewrite (@bind_done _ _ _ _ _ _ _ (config_get_eq _ _ Hc2)).
    change (is_str (PStr "gitlab-com") "gitlab-ce") with false. cbv iota.
    unfold bind at 1, ret at 1.
    rewrite (@bind_done _ _ _ _ _ _ _
               (eq_refl : config_set "bootstrap_repositories"
                            (bootstrap_repositories "gitlab") w2
                          = Done tt (before_repositories "gitlab-com" filename
                                       group w))).
    rewrite (@bind_done _ _ _ _ _ _ _ (config_get_eq _ _ Hc3)).
    change (is_str (PStr "gitlab-com") "gitlab-com") with true. cbv iota.
    unfold bind at 1, ret at 1.
    rewrite (@bind_done _ _ _ _ _ _ _ (config_get_eq _ _ Hr3)).
    unfold modules_entry. cbn [py_in lift]. unfold bind at 2, ret at 1.
    unfold bind at 1, ret at 1.
    match goal with
    | |- context [cicd_repositories_loop _ _ _ d ?acc _] =>
        assert (Eacc : acc = cicd_content outputs_path "gitlab-com" (modules_first d))
          by (unfold cicd_content, modules_first; destruct (Dict.mem d "modules");
              reflexivity);
        rewrite Eacc; clear Eacc
    end.
    change (config_get "gitlab_group_create")
      with (create_group_of "gitlab-com").
    unfold bind at 1. reflexivity.
  - intros cicd_config. cbv beta.
    rewrite (config_get_eq _ _ Hc3). reflexivity.
Qed.

Lemma write_cicd_config_github (outputs_path filename : string) (w : world)
  (d : dict) (e : py_exception) :
  Dict.get (config w) "cicd" = Some (PStr "github") ->
  Dict.mem (config w) "github_organization" = true ->
  Dict.get (config w) "github_repositories" = Some (PDict d) ->
  first_unknown d = Some e ->
  exists w',
    write_cicd_config outputs_path filename w = Raised e w'
    /\ Dict.get (files w') filename = Some ""
    /\ Dict.get (config w') "bootstrap_repositories"
       = Some (bootstrap_repositories "github")
    /\ log w' = log w.
Proof.
  intros Hc Ho Hr He. unfold Dict.mem in Ho.
  destruct (Dict.get (config w) "github_organization") as [org|] eqn:Eo;
    [|discriminate].
  exists (before_repositories "github" filename org w).
  split; [|split; [|split]].
  - rewrite (write_cicd_config_github_loop outputs_path filename w Hc Eo Hr).
    apply bind_raised.
    apply cicd_repositories_loop_raises; [exact He| |now exists (PBool false)].
    unfold Dict.mem, before_repositories. cbn [config with_config with_files].
    rewrite !get_set_other by discriminate. now rewrite Eo.
  - unfold before_repositories. cbn [files with_config with_files].
    apply get_set_same.
  - unfold before_repositories. cbn [config with_config]. apply get_set_same.
  - reflexivity.
Qed.

Lemma write_cicd_config_gitlab_com (outputs_path filename : string) (w : world)
  (d : dict) (e : py_exception) :
  Dict.get (config w) "cicd" = Some (PStr "gitlab-com") ->
  Dict.mem (config w) "gitlab_group" = true ->
  Dict.mem (config w) "gitlab_group_create" = true ->
  Dict.get (config w) "gitlab_repositories" = Some (PDict d) ->
  first_unknown d = Some e ->
  exists w',
    write_cicd_config outputs_path filename w = Raised e w'
    /\ Dict.get (files w') filename = Some ""
    /\ Dict.get (config w') "bootstrap_repositories"
       = Some (bootstrap_repositories "gitlab")
    /\ log w' = log w.
Proof.
  intros Hc Hg Hgc Hr He. unfold Dict.mem in Hg, Hgc.
  destruct (Dict.get (config w) "gitlab_group") as [group|] eqn:Eg;
    [|discriminate].
  destruct (Dict.get (config w) "gitlab_group_create") as [create|] eqn:Ec;
    [|discriminate].
  exists (before_repositories "gitlab-com" filename group w).
  split; [|split; [|split]].
  - destruct (write_cicd_config_gitlab_com_loop outputs_path filename w Hc Eg Hr)
      as (after & -> & _).
    apply bind_raised.
    apply cicd_repositories_loop_raises; [exact He| |].
    + unfold Dict.mem, before_repositories. cbn [config with_config with_files].
      rewrite !get_set_other by discriminate. now rewrite Eg.
    + exists create. apply config_get_eq.
      unfold before_repositories. cbn [config with_config with_files].
      rewrite !get_set_other by discriminate. exact Ec.
  - unfold before_repositories. cbn [files with_config with_files].
    apply get_set_same.
  - unfold before_repositories. cbn [config with_config]. apply get_set_same.
  - reflexivity.
Qed.

(** X13.  The description of a repository is looked up by the name the
    operator has given to it, not by its stage.  So when a name in the
    form has been changed to anything that is not the key of a stage, an
    empty name included, [write_cicd_config] raises a [KeyError] with that
    name, for GitHub as for gitlab.com: the file, opened before, is left
    empty, the formatter is not run, and the configuration already holds
    the repositories of the bootstrap stage. *)
Theorem write_cicd_config_unknown_name (outputs_path filename cicd : string)
  (w : world) (d : dict) (e : py_exception)
  (Hsystem : cicd = "github" \/ cicd = "gitlab-com")
  (Hcicd : Dict.get (config w) "cicd" = Some (PStr cicd))
  (Hnamespace : Dict.mem (config w) (namespace_key cicd) = true)
  (Hcreate : cicd = "gitlab-com" ->
             Dict.mem (config w) "gitlab_group_create" = true)
  (Hrepos : Dict.get (config w) (repositories_key cicd) = Some (PDict d))
  (Hname : first_unknown d = Some e) :
  exists w',
    write_cicd_config outputs_path filename w = Raised e w'
    /\ Dict.get (files w') filename = Some ""
    /\ Dict.get (config w') "bootstrap_repositories"
       = Some (bootstrap_repositories (provider_of cicd))
    /\ log w' = log w.
Proof.
  destruct Hsystem as [-> | ->].
  - now apply write_cicd_config_github with (d := d).
  - apply write_cicd_config_gitlab_com with (d := d); auto.
Qed.

Lemma write_cicd_config_unknown_name_witness :
  exists w',
    write_cicd_config "/work/outputs" "stages/00-cicd/terraform.tfvars"
      (mkWorld []
         [("cicd", PStr "github"); ("github_organization", PStr "acme");
          ("github_repositories",
           PDict [("bootstrap", PStr "bootstrap"); ("cicd", PStr "");
                  ("resman", PStr "fast-resman")])]
         [] [] "" []
         [("stages/00-cicd/terraform.tfvars", "prefix = 1")] [])
    = Raised (KeyError "") w'
    /\ Dict.get (files w') "stages/00-cicd/terraform.tfvars" = Some "".
Proof.
  destruct (@write_cicd_config_unknown_name "/work/outputs"
              "stages/00-cicd/terraform.tfvars" "github"
              (mkWorld []
                 [("cicd", PStr "github"); ("github_organization", PStr "acme");
                  ("github_repositories",
                   PDict [("bootstrap", PStr "bootstrap"); ("cicd", PStr "");
                          ("resman", PStr "fast-resman")])]
                 [] [] "" []
                 [("stages/00-cicd/terraform.tfvars", "prefix = 1")] [])
              [("bootstrap", PStr "bootstrap"); ("cicd", PStr "");
               ("resman", PStr "fast-resman")]
              (KeyError ""))
    as (w' & H1 & H2 & _);
    [left; reflexivity | reflexivity | reflexivity | discriminate
    | reflexivity | reflexivity |].
  exists w'. split; [exact H1 | exact H2].
Defined.

Lemma in_keys_get (V : Type) (d : list (string * V)) (k : string) :
  In k (Dict.keys d) -> exists v, Dict.get d k = Some v.
Proof.
  induction d as [|[k' v'] d IH]; [intros []|].
  cbn [Dict.keys map fst In Dict.get]. intros H.
  destruct (String.eqb_spec k' k) as [->|Hk]; [now exists v'|].
  destruct H as [H|H]; [contradiction | now apply IH].
Qed.

Lemma cicd_repositories_loop_done (provider ns : string)
  (create_group : M pyval) (outputs_path cicd : string) (w : world)
  (namespace create : pyval) (items : dict) :
  Dict.get (config w) ns = Some namespace ->
  create_group w = Done create w ->
  first_unknown items = None ->
  forall r,
    NoDup (Dict.keys r ++ Dict.keys items) ->
    exists r',
      cicd_repositories_loop provider ns create_group items
        (cicd_content outputs_path cicd r) w
      = Done (cicd_content outputs_path cicd r') w
      /\ Dict.keys r' = (Dict.keys r ++ Dict.keys items)%list
      /\ (forall k, ~ In k (Dict.keys items) -> Dict.get r' k = Dict.get r k)
      /\ (forall k v,
            In (k, v) items ->
            exists entry description,
              Dict.get r' k = Some (PDict entry)
              /\ repository_description v = inr description
              /\ Dict.get entry "name"
                 = Some (PStr (py_format namespace ++ "/" ++ py_format v))
              /\ Dict.get entry "description" = Some (PStr description)).
Proof.
  intros Hns Hcg. induction items as [|[k v] items IH]; intros Hknown r Hnd.
  - exists r. cbn [cicd_repositories_loop Dict.keys map].
    rewrite app_nil_r. repeat split; auto. intros k v [].
  - cbn [first_unknown] in Hknown.
    destruct (repository_description v) as [e|description] eqn:Ed;
      [discriminate|].
    cbn [Dict.keys map fst] in Hnd. fold (Dict.keys items) in Hnd.
    assert (Hk : ~ In k (Dict.keys r)).
    { intros Hin. apply NoDup_remove_2 in Hnd. apply Hnd.
      apply in_or_app. now left. }
    assert (Hk' : ~ In k (Dict.keys items)).
    { intros Hin. apply NoDup_remove_2 in Hnd. apply Hnd.
      apply in_or_app. now right. }
    set (entry :=
           [("branch", PStr "main");
            ("identity_provider", PStr provider);
            ("name", PStr (py_format namespace ++ "/" ++ py_format v));
            ("description", PStr description);
            ("type", PStr provider);
            ("create", PBool true);
            ("create_group", create)]).
    assert (Hkeys1 : Dict.keys (Dict.set r k (PDict entry))
                     = (Dict.keys r ++ [k])%list).
    { rewrite keys_set. unfold Dict.mem. now rewrite (get_not_in _ _ Hk). }
    destruct (IH Hknown (Dict.set r k (PDict entry))) as (r' & Hr & Hkeys & Hold & Hnew).
    { rewrite Hkeys1, <- app_assoc. exact Hnd. }
    exists r'. split; [|split; [|split]].
    + cbn [cicd_repositories_loop].
      rewrite (@bind_done _ _ _ _ _ _ _ (config_get_eq _ _ Hns)).
      rewrite Ed. cbn [lift]. unfold bind at 1, ret at 1.
      rewrite (@bind_done _ _ _ _ _ _ _ Hcg).
      exact Hr.
    + rewrite Hkeys, Hkeys1, <- app_assoc. reflexivity.
    + intros k0 Hk0. cbn [Dict.keys map fst In] in Hk0.
      rewrite Hold by (intros Hin; apply Hk0; now right).
      apply get_set_other. intros ->. apply Hk0. now left.
    + intros k0 v0 [[= <- <-]|Hin].
      * exists entry, description. rewrite (Hold k Hk'), get_set_same.
        repeat split. exact Ed.
      * now apply Hnew.
Qed.

(** X20.  When every name in the form is the key of a stage,
    [write_cicd_config] writes, for GitHub as for gitlab.com, one entry
    for each repository of the configuration, in the order of the form;
    they come after an entry [modules] holding [null] when the
    repositories have no [modules], which is the case once the step of
    the repositories has run with the upstream modules in use.  The name
    of each entry is the group or organization, a slash and the name
    given in the form, and its description is the one of the stage that
    has this name as its key, whatever stage the entry is for.  The one
    failure left is the formatter's. *)
Theorem write_cicd_config_entries (outputs_path filename cicd : string)
  (w : world) (d : dict) (namespace : pyval) (rc : Z) (sh : list Z)
  (Hsystem : cicd = "github" \/ cicd = "gitlab-com")
  (Hcicd : Dict.get (config w) "cicd" = Some (PStr cicd))
  (Hnamespace : Dict.get (config w) (namespace_key cicd) = Some namespace)
  (Hcreate : cicd = "gitlab-com" ->
             Dict.mem (config w) "gitlab_group_create" = true)
  (Hrepos : Dict.get (config w) (repositories_key cicd) = Some (PDict d))
  (Hknown : first_unknown d = None)
  (Hkeys : NoDup (Dict.keys d))
  (Hsh : shell w = rc :: sh) :
  exists r w',
    write_cicd_config outputs_path filename w
    = (if rc =? 0 then Done tt w'
       else Raised (Exception ("Unable to terraform fmt " ++ filename ++ "!")) w')
    /\ Dict.get (files w') filename
       = Some (print_hcl (PDict (cicd_content outputs_path cicd r))
                 ("# Written by configure.py" ++ nl ++ nl) 0)
    /\ Dict.keys r = (Dict.keys (modules_first d) ++ Dict.keys d)%list
    /\ (Dict.mem d "modules" = false -> Dict.get r "modules" = Some PNone)
    /\ (forall k v,
          In (k, v) d ->
          exists entry description,
            Dict.get r k = Some (PDict entry)
            /\ repository_description v = inr description
            /\ Dict.get entry "name"
               = Some (PStr (py_format namespace ++ "/" ++ py_format v))
            /\ Dict.get entry "description" = Some (PStr description)).
Proof.
  set (W := before_repositories cicd filename namespace w).
  assert (Hnd : NoDup (Dict.keys (modules_first d) ++ Dict.keys d)).
  { unfold modules_first. destruct (Dict.mem d "modules") eqn:Em; [exact Hkeys|].
    cbn [Dict.keys map fst app]. constructor; [|exact Hkeys].
    intros Hin. apply in_keys_get in Hin as (v & Hv).
    unfold Dict.mem in Em. now rewrite Hv in Em. }
  assert (HnsW : Dict.get (config W) (namespace_key cicd) = Some namespace).
  { unfold W, before_repositories. cbn [config with_config with_files].
    destruct Hsystem as [-> | ->]; rewrite !get_set_other by discriminate;
      exact Hnamespace. }
  assert (Hcg : exists create, create_group_of cicd W = Done create W).
  { destruct Hsystem as [-> | ->].
    - now exists (PBool false).
    - specialize (Hcreate eq_refl). unfold Dict.mem in Hcreate.
      destruct (Dict.get (config w) "gitlab_group_create") as [create|] eqn:Ec;
        [|discriminate].
      exists create. apply config_get_eq.
      unfold W, before_repositories. cbn [config with_config with_files].
      rewrite !get_set_other by discriminate. exact Ec. }
  destruct Hcg as (create & Hcg).
  destruct (@cicd_repositories_loop_done (provider_of cicd) (namespace_key cicd)
              (create_group_of cicd) outputs_path cicd W namespace create d
              HnsW Hcg Hknown (modules_first d) Hnd)
    as (r & Hloop & Hr & Hold & Hnew).
  assert (Hwrite : write_cicd_config outputs_path filename w
                   = write_config (cicd_content outputs_path cicd r) filename W).
  { destruct Hsystem as [-> | ->].
    - rewrite (write_cicd_config_github_loop outputs_path filename w
                 Hcicd Hnamespace Hrepos).
      exact (@bind_done _ _ _ _ _ _ _ Hloop).
    - destruct (write_cicd_config_gitlab_com_loop outputs_path filename w
                  Hcicd Hnamespace Hrepos) as (after & -> & Hafter).
      rewrite (@bind_done _ _ _ _ _ _ _ Hloop). apply Hafter. }
  exists r. eexists. split; [|split; [|split; [|split]]].
  - rewrite Hwrite. unfold write_config.
    match goal with
    | |- context [write_file filename ?text] =>
        rewrite (@bind_done _ _ _ _ _ _ _
                   (eq_refl : write_file filename text W
                              = Done tt
                                  (with_files (fun fs => Dict.set fs filename text)
                                     W)))
    end.
    unfold terraform_format.
    match goal with
    | |- context [bind (run_shell ?c ?dir) ?k ?w3] =>
        rewrite (@bind_done _ _ _ _ _ _ _
                   (@run_shell_eq c dir w3 rc sh Hsh))
    end.
    destruct (rc =? 0); reflexivity.
  - cbn [files with_files with_shell with_log]. apply get_set_same.
  - exact Hr.
  - intros Em. rewrite Hold.
    + unfold modules_first. now rewrite Em.
    + intros Hin. apply in_keys_get in Hin as (v & Hv).
      unfold Dict.mem in Em. now rewrite Hv in Em.
  - exact Hnew.
Qed.

Lemma write_cicd_config_entries_witness :
  exists r w',
    write_cicd_config "/work/outputs" "stages/00-cicd/terraform.tfvars"
      (mkWorld []
         [("cicd", PStr "github"); ("github_organization", PStr "acme");
          ("github_repositories",
           PDict [("bootstrap", PStr "cicd"); ("resman", PStr "resman")])]
         [] [0] "" [] [] [])
    = Done tt w'
    /\ Dict.keys r = ["modules"; "bootstrap"; "resman"]
    /\ exists entry,
         Dict.get r "bootstrap" = Some (PDict entry)
         /\ Dict.get entry "name" = Some (PStr "acme/cicd")
         /\ Dict.get entry "description" = Some (PStr "CI/CD setup stage").
Proof.
  destruct (@write_cicd_config_entries "/work/outputs"
              "stages/00-cicd/terraform.tfvars" "github"
              (mkWorld []
                 [("cicd", PStr "github"); ("github_organization", PStr "acme");
                  ("github_repositories",
                   PDict [("bootstrap", PStr "cicd"); ("resman", PStr "resman")])]
                 [] [0] "" [] [] [])
              [("bootstrap", PStr "cicd"); ("resman", PStr "resman")]
              (PStr "acme") 0 [])
    as (r & w' & H1 & _ & H2 & _ & H3);
    [left; reflexivity | reflexivity | reflexivity | discriminate
    | reflexivity | reflexivity
    | repeat constructor; cbn; intuition discriminate
    | reflexivity |].
  exists r, w'. split; [exact H1|]. split; [exact H2|].
  destruct (H3 "bootstrap" (PStr "cicd") (or_introl eq_refl))
    as (entry & description & Hg & Hd & Hn & Hdesc).
  exists entry. injection Hd as <-. now repeat split.
Defined.


(** ** The path typed in the last step *)

Lemma input_dialog_ok (id title text value : string) (password : bool)
  (w : world) (t : string) (ops : list action) :
  operator w = Ok t :: ops ->
  input_dialog id title text value password w
  = Done (PStr t)
      (with_operator ops
         (with_log (Show (InputDialog id title text value password)) w)).
Proof.
  intros Hop. unfold input_dialog, turns. rewrite Hop.
  cbn [List.length input_dialog_loop].
  now rewrite (@bind_done _ _ _ _ _ _ _ (run_app_eq _ _ Hop)).
Qed.

Lemma input_dialog_previous (id title text value : string) (password : bool)
  (w : world) (ops : list action) :
  operator w = Previous :: ops ->
  input_dialog id title text value password w
  = Done (PBool false)
      (with_operator ops
         (with_log (Show (InputDialog id title text value password)) w)).
Proof.
  intros Hop. unfold input_dialog, turns. rewrite Hop.
  cbn [List.length input_dialog_loop].
  now rewrite (@bind_done _ _ _ _ _ _ _ (run_app_eq _ _ Hop)).
Qed.

Lemma truthy_text (t : string) : t <> "" -> truthy (PStr t) = true.
Proof.
  intros Ht. cbn [truthy]. destruct (String.eqb_spec t ""); [contradiction|].
  reflexivity.
Qed.



(** ** The resource prefix *)

Lemma all_chars_replace_dot (s : string) :
  all_chars (fun c => negb (Ascii.eqb c ".")) (replace_char "." "" s) = true.
Proof.
  induction s as [|c s IH]; [reflexivity|]. cbn [replace_char].
  destruct (Ascii.eqb c ".") eqn:Hc; [exact IH|].
  cbn [all_chars]. now rewrite Hc, IH.
Qed.

Lemma all_chars_substring (p : ascii -> bool) (n : nat) :
  forall s, all_chars p s = true -> all_chars p (substring 0 n s) = true.
Proof.
  induction n as [|n IH]; intros [|c s]; try reflexivity.
  cbn [all_chars substring]. intros H. apply andb_prop in H as [Hc Hs].
  now rewrite Hc, (IH s Hs).
Qed.

Lemma length_substring (n : nat) :
  forall s, (String.length (substring 0 n s) <= n)%nat.
Proof.
  induction n as [|n IH]; intros [|c s]; cbn [substring String.length];
    try lia.
  specialize (IH s). lia.
Qed.

(** X15.  The prefix offered by [select_prefix] is made of the first
    characters of the domain that are not dots: it has at most four
    characters and no dot.  What the operator enters instead is stored as
    it is, whatever its length, unless it is empty: an empty text sends
    the wizard back, as Previous does, and leaves the configuration as it
    was. *)
Theorem select_prefix_default (w : world) (domain : string) (a : action)
  (ops : list action)
  (Hdomain : Dict.get (config w) "domain" = Some (PStr domain))
  (Hop : operator w = a :: ops)
  (Ha : a = Previous \/ exists t, a = Ok t) :
  exists w',
    select_prefix w
    = Done match a with Ok t => negb (t =? "")%string | _ => false end w'
    /\ log w'
       = Show (InputDialog "prefix" "Resource prefix"
                 "Select your own short organization resource prefix (eg. 4 letters):"
                 (default_prefix domain) false) :: log w
    /\ (String.length (default_prefix domain) <= 4)%nat
    /\ all_chars (fun c => negb (Ascii.eqb c ".")) (default_prefix domain) = true
    /\ config w'
       = match a with
         | Ok t => if (t =? "")%string then config w
                   else Dict.set (config w) "prefix" (PStr t)
         | _ => config w
         end.
Proof.
  unfold select_prefix.
  rewrite (@bind_done _ _ _ _ _ _ _ (config_get_eq _ _ Hdomain)).
  assert (Hl : (String.length (default_prefix domain) <= 4)%nat)
    by apply length_substring.
  assert (Hc : all_chars (fun c => negb (Ascii.eqb c "."))
                 (default_prefix domain) = true)
    by apply all_chars_substring, all_chars_replace_dot.
  destruct Ha as [->|[t ->]].
  - rewrite (@bind_done _ _ _ _ _ _ _ (input_dialog_previous _ _ _ _ _ _ Hop)).
    eexists. split; [reflexivity|]. repeat split; assumption.
  - rewrite (@bind_done _ _ _ _ _ _ _ (input_dialog_ok _ _ _ _ _ _ Hop)).
    cbn [truthy]. destruct (t =? "")%string; cbn [negb].
    + eexists. split; [reflexivity|]. repeat split; assumption.
    + eexists. split; [reflexivity|]. repeat split; assumption.
Qed.

Lemma select_prefix_default_witness :
  exists w',
    select_prefix
      (mkWorld [] [("domain", PStr "a.b.example.com")] [Ok "a-long-prefix"]
         [] "" [] [] [])
    = Done true w'
    /\ log w'
       = [Show (InputDialog "prefix" "Resource prefix"
                  "Select your own short organization resource prefix (eg. 4 letters):"
                  "abex" false)]
    /\ config w'
       = [("domain", PStr "a.b.example.com"); ("prefix", PStr "a-long-prefix")].
Proof.
  destruct (@select_prefix_default
              (mkWorld [] [("domain", PStr "a.b.example.com")]
                 [Ok "a-long-prefix"] [] "" [] [] [])
              "a.b.example.com" (Ok "a-long-prefix") [] eq_refl eq_refl
              (or_intror (ex_intro _ "a-long-prefix" eq_refl)))
    as (w' & H1 & H2 & _ & _ & H3).
  exists w'. split; [exact H1|]. split; [exact H2 | exact H3].
Defined.

(** ** Runs of the wizards *)

Lemma py_index_nth (A : Type) (l : list A) (n : nat) (x : A) :
  nth_error l n = Some x -> py_index l (Z.of_nat n) = Some x.
Proof.
  intros H. unfold py_index.
  assert (Hn : (n < List.length l)%nat)
    by (apply nth_error_Some; congruence).
  destruct (Z.of_nat n <? - Z.of_nat (List.length l)) eqn:E1;
    [apply Z.ltb_lt in E1; lia|].
  destruct (Z.of_nat (List.length l) <=? Z.of_nat n) eqn:E2;
    [apply Z.leb_le in E2; lia|].
  cbn [orb]. destruct (Z.of_nat n <? 0) eqn:E3; [apply Z.ltb_lt in E3; lia|].
  now rewrite Nat2Z.id.
Qed.

Lemma wizard_turn_eq (setup_wizard : list string) (select : string -> M bool)
  (i : Z) (dialog : string) (w w' : world) (b : bool) :
  py_index setup_wizard i = Some dialog ->
  select dialog w = Done b w' ->
  wizard_turn setup_wizard select i w
  = Done (if b then i + 1 else i - 1) w'.
Proof.
  intros Hi Hs. unfold wizard_turn. rewrite Hi.
  now rewrite (@bind_done _ _ _ _ _ _ _ Hs).
Qed.

Lemma run_wizard_loop_straight (setup_wizard : list string)
  (select : string -> M bool) (inv : world -> Prop) :
  (forall dialog w, In dialog setup_wizard -> inv w ->
                    exists w', select dialog w = Done true w' /\ inv w') ->
  forall k n w,
    inv w ->
    (n + S k = List.length setup_wizard)%nat ->
    exists w',
      run_wizard_loop setup_wizard select (S k) (Z.of_nat n) w
      = Done (config w') w' /\ inv w'.
Proof.
  intros Hall. induction k as [|k IH]; intros n w Hw Hn.
  - destruct (nth_error setup_wizard n) as [dialog|] eqn:E.
    2:{ apply nth_error_None in E. lia. }
    destruct (Hall dialog w (nth_error_In _ _ E) Hw) as (w' & Hs & Hw').
    exists w'. split; [|exact Hw']. cbn [run_wizard_loop].
    rewrite (@bind_done _ _ _ _ _ _ _
               (@wizard_turn_eq setup_wizard select _ _ _ _ _ (py_index_nth _ _ E) Hs)).
    replace (Z.of_nat n + 1 =? Z.of_nat (List.length setup_wizard)) with true
      by (symmetry; apply Z.eqb_eq; lia).
    reflexivity.
  - destruct (nth_error setup_wizard n) as [dialog|] eqn:E.
    2:{ apply nth_error_None in E. lia. }
    destruct (Hall dialog w (nth_error_In _ _ E) Hw) as (w1 & Hs & Hw1).
    destruct (IH (S n) w1 Hw1 ltac:(lia)) as (w' & Hw' & Hi').
    exists w'. split; [|exact Hi'].
    change (run_wizard_loop setup_wizard select (S (S k)) (Z.of_nat n) w)
      with (bind (wizard_turn setup_wizard select (Z.of_nat n))
              (fun dialog_index =>
                 if dialog_index =? Z.of_nat (List.length setup_wizard)
                 then (fun w => Done (config w) w)
                 else run_wizard_loop setup_wizard select (S k) dialog_index)
              w).
    rewrite (@bind_done _ _ _ _ _ _ _
               (@wizard_turn_eq setup_wizard select _ _ _ _ _ (py_index_nth _ _ E) Hs)).
    replace (Z.of_nat n + 1 =? Z.of_nat (List.length setup_wizard)) with false
      by (symmetry; apply Z.eqb_neq; lia).
    replace (Z.of_nat n + 1) with (Z.of_nat (S n)) by lia.
    exact Hw'.
Qed.

(** X16.  A wizard whose steps all return [True], as long as some
    condition on the state holds that each of them keeps, ends: one turn
    for each step is enough, and what [run_wizard] returns is the
    configuration as the last step has left it.  A wizard without steps
    does not end so: its first turn raises [IndexError]. *)
Theorem run_wizard_straight (setup_wizard : list string)
  (select : string -> M bool) (inv : world -> Prop) (w : world)
  (Hsteps : setup_wizard <> [])
  (Hall : forall dialog w, In dialog setup_wizard -> inv w ->
                           exists w', select dialog w = Done true w' /\ inv w')
  (Hw : inv w) :
  (exists w',
     run_wizard setup_wizard select (List.length setup_wizard) w
     = Done (config w') w' /\ inv w')
  /\ forall fuel, run_wizard [] select (S fuel) w = Raised IndexError w.
Proof.
  split; [|reflexivity].
  destruct setup_wizard as [|dialog steps]; [contradiction|].
  unfold run_wizard. cbn [List.length].
  apply (@run_wizard_loop_straight (dialog :: steps) select inv Hall
           (List.length steps) O w Hw).
  reflexivity.
Qed.

Lemma run_wizard_straight_witness :
  exists w',
    run_wizard ["gitlab_token"; "github_token"]
      (fun dialog =>
         if (dialog =? "gitlab_token")%string then select_gitlab_token
         else select_github_token)
      2 (mkWorld [("GITLAB_TOKEN", "glpat-1"); ("GITHUB_TOKEN", "ghp-1")]
           [("cicd", PStr "github")] [] [] "" [] [] [])
    = Done (config w') w'.
Proof.
  destruct (@run_wizard_straight ["gitlab_token"; "github_token"]
              (fun dialog =>
                 if (dialog =? "gitlab_token")%string
                 then select_gitlab_token else select_github_token)
              (fun w => Dict.get (environ w) "GITLAB_TOKEN" = Some "glpat-1"
                        /\ Dict.get (environ w) "GITHUB_TOKEN" = Some "ghp-1")
              (mkWorld [("GITLAB_TOKEN", "glpat-1"); ("GITHUB_TOKEN", "ghp-1")]
                 [("cicd", PStr "github")] [] [] "" [] [] []))
    as [(w' & H & _) _].
  - discriminate.
  - intros dialog w _ [Hl Hh]. exists w. split; [|now split].
    destruct (dialog =? "gitlab_token")%string.
    + apply (@select_token_present "GITLAB_TOKEN" _ _ _ "glpat-1" w Hl).
      discriminate.
    + apply (@select_token_present "GITHUB_TOKEN" _ _ _ "ghp-1" w Hh).
      discriminate.
  - split; reflexivity.
  - exists w'. exact H.
Defined.

Lemma select_dialog_previous (fuel : nat) (p : prompt) (w : world)
  (ops : list action) :
  operator w = Previous :: ops ->
  select_dialog_loop (S fuel) p w
  = Done (false, PNone) (with_operator ops (with_log (Show p) w)).
Proof.
  intros Hop. cbn [select_dialog_loop].
  now rewrite (@bind_done _ _ _ _ _ _ _ (run_app_eq _ _ Hop)).
Qed.

Lemma select_gitlab_group_previous (w : world) (ops : list action)
  (token : string) :
  Dict.mem (config w) "gitlab_url" = true ->
  Dict.get (environ w) "GITLAB_TOKEN" = Some token ->
  Dict.mem (config w) "gitlab_group" = true ->
  operator w = Previous :: ops ->
  exists p,
    select_gitlab_group w
    = Done false (with_operator ops (with_log (Show p) w)).
Proof.
  unfold Dict.mem. intros Hu Ht Hg Hop.
  destruct (Dict.get (config w) "gitlab_url") as [url|] eqn:Eu;
    [|discriminate].
  destruct (Dict.get (config w) "gitlab_group") as [group|] eqn:Eg;
    [|discriminate].
  unfold select_gitlab_group.
  rewrite (@bind_done _ _ _ _ _ _ _ (config_get_eq _ _ Eu)).
  unfold bind at 1, environ_get at 1. rewrite Ht.
  unfold bind at 1.
  rewrite (@bind_done _ _ _ _ _ _ _ (config_get_eq _ _ Eg)).
  unfold bind at 1, select_with_input_dialog at 1, turns at 1. rewrite Hop.
  cbn [List.length]. rewrite (select_dialog_previous _ _ w Hop).
  eexists. reflexivity.
Qed.

(** X17.  A step that returns [True] without a dialog cannot be gone
    back through.  With [GITLAB_TOKEN] set, Previous in the group step of
    the GitLab wizard takes the wizard to the token step, which returns
    [True] at once: two turns later the wizard is at the group step again,
    the state is what it was, and no step before the token step has been
    entered. *)
Theorem back_bounces_at_token_step (final : M bool) (w : world)
  (token : string) (ops : list action)
  (Htoken : Dict.get (environ w) "GITLAB_TOKEN" = Some token)
  (Hset : token <> "")
  (Hurl : Dict.mem (config w) "gitlab_url" = true)
  (Hgroup : Dict.mem (config w) "gitlab_group" = true)
  (Hop : operator w = Previous :: ops) :
  exists w1,
    wizard_turn FastGitlabConfigurator_setup_wizard
      (FastGitlabConfigurator_select final) 3 w = Done 2 w1
    /\ wizard_turn FastGitlabConfigurator_setup_wizard
         (FastGitlabConfigurator_select final) 2 w1 = Done 3 w1
    /\ same_state w w1
    /\ operator w1 = ops.
Proof.
  destruct (select_gitlab_group_previous w Hurl Htoken Hgroup Hop)
    as (p & Hs).
  exists (with_operator ops (with_log (Show p) w)).
  split; [|split; [|split]].
  - exact (@wizard_turn_eq FastGitlabConfigurator_setup_wizard
             (FastGitlabConfigurator_select final) 3 "gitlab_group" _ _ false
             eq_refl Hs).
  - apply (@wizard_turn_eq FastGitlabConfigurator_setup_wizard
             (FastGitlabConfigurator_select final) 2 "gitlab_token" _ _ true
             eq_refl).
    change (FastGitlabConfigurator_select final "gitlab_token")
      with select_gitlab_token.
    apply (@select_token_present "GITLAB_TOKEN" _ _ _ token
             (with_operator ops (with_log (Show p) w)) Htoken Hset).
  - repeat split.
  - reflexivity.
Qed.

Lemma back_bounces_at_token_step_witness :
  exists w1,
    wizard_turn FastGitlabConfigurator_setup_wizard
      (FastGitlabConfigurator_select (ret true)) 3
      (mkWorld [("GITLAB_TOKEN", "glpat-1")]
         [("gitlab_url", PStr "https://gitlab.com"); ("gitlab_group", PNone)]
         [Previous] [] "" [] [] [])
    = Done 2 w1
    /\ wizard_turn FastGitlabConfigurator_setup_wizard
         (FastGitlabConfigurator_select (ret true)) 2 w1 = Done 3 w1.
Proof.
  destruct (@back_bounces_at_token_step (ret true)
              (mkWorld [("GITLAB_TOKEN", "glpat-1")]
                 [("gitlab_url", PStr "https://gitlab.com");
                  ("gitlab_group", PNone)]
                 [Previous] [] "" [] [] [])
              "glpat-1" [] eq_refl)
    as (w1 & H1 & H2 & _);
    [discriminate | reflexivity | reflexivity | reflexivity |].
  exists w1. split; [exact H1 | exact H2].
Defined.

(** X18.  The token step does not ask again and does not fail when no
    token is given: with [GITLAB_TOKEN] not set, Previous and Ok on an
    empty field both let the wizard go on to the group step with the
    variable still not set, and the group step then raises
    [KeyError] on [GITLAB_TOKEN] before it shows anything. *)
Theorem missing_token_fails_at_group (final : M bool) (w : world)
  (a : action) (ops : list action)
  (Htoken : Dict.get (environ w) "GITLAB_TOKEN" = None)
  (Hurl : Dict.mem (config w) "gitlab_url" = true)
  (Hop : operator w = a :: ops)
  (Ha : a = Previous \/ a = Ok "") :
  exists w1,
    wizard_turn FastGitlabConfigurator_setup_wizard
      (FastGitlabConfigurator_select final) 2 w = Done 3 w1
    /\ wizard_turn FastGitlabConfigurator_setup_wizard
         (FastGitlabConfigurator_select final) 3 w1
       = Raised (KeyError "GITLAB_TOKEN") w1
    /\ same_state w w1
    /\ log w1 = Show gitlab_token_prompt :: log w.
Proof.
  exists (after_token_prompt "GITLAB_TOKEN" gitlab_token_prompt a ops w).
  assert (Henv : environ
                   (after_token_prompt "GITLAB_TOKEN" gitlab_token_prompt a ops w)
                 = environ w)
    by (destruct Ha as [-> | ->]; reflexivity).
  split; [|split; [|split]].
  - apply (@wizard_turn_eq FastGitlabConfigurator_setup_wizard
             (FastGitlabConfigurator_select final) 2 "gitlab_token" _ _ true
             eq_refl).
    change (FastGitlabConfigurator_select final "gitlab_token")
      with select_gitlab_token.
    apply select_token_missing.
    + now rewrite Htoken.
    + exact Hop.
    + destruct Ha as [-> | ->]; [now left | right; now exists ""].
  - unfold wizard_turn.
    change (py_index FastGitlabConfigurator_setup_wizard 3)
      with (Some "gitlab_group").
    apply bind_raised.
    change (FastGitlabConfigurator_select final "gitlab_group")
      with select_gitlab_group.
    unfold select_gitlab_group. unfold Dict.mem in Hurl.
    destruct (Dict.get (config w) "gitlab_url") as [url|] eqn:Eu;
      [|discriminate].
    assert (Eu1 : Dict.get
                    (config (after_token_prompt "GITLAB_TOKEN"
                               gitlab_token_prompt a ops w)) "gitlab_url"
                  = Some url) by exact Eu.
    rewrite (@bind_done _ _ _ _ _ _ _ (config_get_eq _ _ Eu1)).
    apply bind_raised. unfold environ_get. now rewrite Henv, Htoken.
  - repeat split. exact Henv.
  - reflexivity.
Qed.

Lemma missing_token_fails_at_group_witness :
  exists w1,
    wizard_turn FastGitlabConfigurator_setup_wizard
      (FastGitlabConfigurator_select (ret true)) 2
      (mkWorld [] [("gitlab_url", PStr "https://gitlab.com")] [Ok ""] []
         "" [] [] [])
    = Done 3 w1
    /\ wizard_turn FastGitlabConfigurator_setup_wizard
         (FastGitlabConfigurator_select (ret true)) 3 w1
       = Raised (KeyError "GITLAB_TOKEN") w1.
Proof.
  destruct (@missing_token_fails_at_group (ret true)
              (mkWorld [] [("gitlab_url", PStr "https://gitlab.com")] [Ok ""]
                 [] "" [] [] [])
              (Ok "") [] eq_refl eq_refl eq_refl (or_intror eq_refl))
    as (w1 & H1 & H2 & _).
  exists w1. split; [exact H1 | exact H2].
Defined.

(** ** Writing the bootstrap configuration *)

(** X19.  [write_bootstrap_config] takes for the three identifiers what
    follows the last slash of the resource names: each holds no slash, and
    the name is the identifier itself or ends in a slash and the
    identifier.  The mapping it writes holds them in the sections
    [billing_account] and [organization], beside the domain, the customer
    id, the prefix, the outputs location and the account as the
    configuration and the arguments give them; it has the two sections of
    the CI/CD systems exactly when the configuration holds
    [bootstrap_repositories] and [bootstrap_identity_providers].  The exit
    code of [gcloud] is not looked at, the configuration is not changed,
    and the one failure is the formatter's, once the file is written. *)
Theorem write_bootstrap_config_sections (outputs_path account filename : string)
  (w : world) (billing_account billing_account_org organization : string)
  (domain customer prefix : pyval)
  (rc_gcloud rc_fmt : Z) (sh : list Z)
  (Hba : Dict.get (config w) "billing_account" = Some (PStr billing_account))
  (Hbo : Dict.get (config w) "billing_account_org"
         = Some (PStr billing_account_org))
  (Horg : Dict.get (config w) "organization" = Some (PStr organization))
  (Hdomain : Dict.get (config w) "domain" = Some domain)
  (Hcustomer : Dict.get (config w) "directory_customer_id" = Some customer)
  (Hprefix : Dict.get (config w) "prefix" = Some prefix)
  (Hsh : shell w = rc_gcloud :: rc_fmt :: sh) :
  exists content w' ba_id ba_org org,
    write_bootstrap_config outputs_path account filename w
    = (if rc_fmt =? 0 then Done tt w'
       else Raised (Exception ("Unable to terraform fmt " ++ filename ++ "!")) w')
    /\ Dict.get (files w') filename
       = Some (print_hcl (PDict content) ("# Written by configure.py" ++ nl ++ nl) 0)
    /\ config w' = config w
    /\ follows_last_slash billing_account ba_id
    /\ follows_last_slash billing_account_org ba_org
    /\ follows_last_slash organization org
    /\ Dict.get content "billing_account"
       = Some (PDict [("id", PStr ba_id); ("organization_id", PStr ba_org)])
    /\ Dict.get content "organization"
       = Some (PDict [("id", PStr org); ("domain", domain);
                      ("customer_id", customer)])
    /\ Dict.get content "prefix" = Some prefix
    /\ Dict.get content "outputs_location" = Some (PStr outputs_path)
    /\ Dict.get content "bootstrap_user" = Some (PStr account)
    /\ Dict.get content "cicd_repositories"
       = Dict.get (config w) "bootstrap_repositories"
    /\ Dict.get content "federated_identity_providers"
       = Dict.get (config w) "bootstrap_identity_providers".
Proof.
  unfold write_bootstrap_config.
  rewrite (@bind_done _ _ _ _ _ _ _
             (eq_refl : write_file filename "" w
                        = Done tt (with_files (fun fs => Dict.set fs filename "") w))).
  set (w1 := with_files (fun fs => Dict.set fs filename "") w).
  rewrite (@bind_done _ _ _ _ _ _ _
             (config_get_eq "billing_account" w1 Hba)).
  cbn [last_segment lift]. unfold bind at 1, ret at 1.
  rewrite (@bind_done _ _ _ _ _ _ _
             (config_get_eq "billing_account_org" w1 Hbo)).
  cbn [last_segment lift]. unfold bind at 1, ret at 1.
  rewrite (@bind_done _ _ _ _ _ _ _ (config_get_eq "organization" w1 Horg)).
  cbn [last_segment lift]. unfold bind at 1, ret at 1.
  rewrite (@bind_done _ _ _ _ _ _ _ (config_get_eq "domain" w1 Hdomain)).
  rewrite (@bind_done _ _ _ _ _ _ _
             (config_get_eq "directory_customer_id" w1 Hcustomer)).
  rewrite (@bind_done _ _ _ _ _ _ _ (config_get_eq "prefix" w1 Hprefix)).
  assert (Hsh1 : shell w1 = rc_gcloud :: rc_fmt :: sh) by exact Hsh.
  set (w2 := with_shell (rc_fmt :: sh)
               (with_log
                  (RunShell
                     ["gcloud"; "config"; "list"; "--format";
                      "value(core.account)"] ".") w1)).
  assert (Hu : get_current_user_from_gcloud account w1 = Done account w2).
  { unfold get_current_user_from_gcloud.
    now rewrite (@bind_done _ _ _ _ _ _ _ (run_shell_eq _ _ _ Hsh1)). }
  rewrite (@bind_done _ _ _ _ _ _ _ Hu).
  unfold bind at 1.
  change (config w2) with (config w).
  unfold write_config.
  match goal with
  | |- context [write_file filename ?text] =>
      rewrite (@bind_done _ _ _ _ _ _ _
                 (eq_refl : write_file filename text w2
                            = Done tt
                                (with_files (fun fs => Dict.set fs filename text)
                                   w2)))
  end.
  unfold terraform_format.
  match goal with
  | |- context [bind (run_shell ?c ?d) ?k ?w3] =>
      rewrite (@bind_done _ _ _ _ _ _ _
                 (@run_shell_eq c d w3 rc_fmt sh eq_refl))
  end.
  eexists. eexists. exists (basename billing_account),
    (basename billing_account_org), (basename organization).
  split; [destruct (rc_fmt =? 0); reflexivity|].
  split; [cbn [files with_files with_shell with_log]; apply get_set_same|].
  split; [reflexivity|].
  split; [apply basename_follows|].
  split; [apply basename_follows|].
  split; [apply basename_follows|].
  destruct (Dict.get (config w) "bootstrap_repositories"),
    (Dict.get (config w) "bootstrap_identity_providers");
    repeat split.
Qed.

Lemma write_bootstrap_config_sections_witness :
  exists content w',
    write_bootstrap_config "/work/outputs" "admin@example.com"
      "stages/00-bootstrap/terraform.tfvars"
      (mkWorld []
         [("billing_account", PStr "billingAccounts/0123-4567");
          ("billing_account_org", PStr "organizations/42");
          ("organization", PStr "organizations/42");
          ("domain", PStr "example.com");
          ("directory_customer_id", PStr "C01");
          ("prefix", PStr "exam")]
         [] [1; 0] "" [] [] [])
    = Done tt w'
    /\ Dict.get (files w') "stages/00-bootstrap/terraform.tfvars"
       = Some (print_hcl (PDict content) ("# Written by configure.py" ++ nl ++ nl) 0)
    /\ Dict.get content "billing_account"
       = Some (PDict [("id", PStr "0123-4567"); ("organization_id", PStr "42")])
    /\ Dict.get content "organization"
       = Some (PDict [("id", PStr "42"); ("domain", PStr "example.com");
                      ("customer_id", PStr "C01")]).
Proof.
  destruct (@write_bootstrap_config_sections "/work/outputs" "admin@example.com"
              "stages/00-bootstrap/terraform.tfvars"
              (mkWorld []
                 [("billing_account", PStr "billingAccounts/0123-4567");
                  ("billing_account_org", PStr "organizations/42");
                  ("organization", PStr "organizations/42");
                  ("domain", PStr "example.com");
                  ("directory_customer_id", PStr "C01");
                  ("prefix", PStr "exam")]
                 [] [1; 0] "" [] [] [])
              "billingAccounts/0123-4567" "organizations/42" "organizations/42"
              (PStr "example.com") (PStr "C01") (PStr "exam")
              1 0 [] eq_refl eq_refl eq_refl eq_refl eq_refl eq_refl eq_refl)
    as (content & w' & ba_id & ba_org & org & H & Hf & _ & Hb & Hbo & Ho
        & Hc1 & Hc2 & _).
  exists content, w'. split; [exact H|]. split; [exact Hf|].
  assert (E1 : ba_id = "0123-4567").
  { apply (follows_last_slash_unique Hb). split; [reflexivity|].
    right. now exists "billingAccounts". }
  assert (E2 : ba_org = "42").
  { apply (follows_last_slash_unique Hbo). split; [reflexivity|].
    right. now exists "organizations". }
  assert (E3 : org = "42").
  { apply (follows_last_slash_unique Ho). split; [reflexivity|].
    right. now exists "organizations". }
  rewrite E1, E2 in Hc1. rewrite E3 in Hc2. split; [exact Hc1 | exact Hc2].
Defined.

(** ** The form of the repositories *)

Lemma repository_labels_keys (d : dict) :
  (forall k, In k (Dict.keys d) -> Dict.mem repositories k = true) ->
  exists values,
    repository_labels d = inr values /\ map fst values = Dict.keys d.
Proof.
  induction d as [|[k v] d IH]; intros H.
  - now exists [].
  - destruct IH as (values & E & Hk).
    { intros k' Hk'. apply H. now right. }
    specialize (H k (or_introl eq_refl)). unfold Dict.mem in H.
    cbn [repository_labels]. rewrite E.
    destruct (Dict.get repositories k) as [label|]; [|discriminate].
    eexists. split; [reflexivity|]. cbn [map fst Dict.keys]. now rewrite Hk.
Qed.

Lemma text_fields_keys (d : dict) (values : list (string * string)) :
  (forall k, In k (map fst values) ->
             exists t, Dict.get d k = Some (PStr t)) ->
  exists fields,
    text_fields values d = inr fields
    /\ map fst fields = map fst values
    /\ forall k t, In (k, t) fields -> Dict.get d k = Some (PStr t).
Proof.
  induction values as [|[k label] values IH]; intros H.
  - exists []. repeat split. intros k t [].
  - destruct IH as (fields & E & Hk & Hf).
    { intros k' Hk'. apply H. now right. }
    destruct (H k (or_introl eq_refl)) as (t & Ht).
    exists ((k, t) :: fields). cbn [text_fields]. rewrite Ht, E.
    split; [reflexivity|]. split; [cbn [map fst]; now rewrite Hk|].
    intros k' t' [[= <- <-]|Hin]; [exact Ht | now apply Hf].
Qed.

Lemma form_result_keys (fields edits : list (string * string)) :
  Dict.keys (form_result fields edits) = map fst fields.
Proof.
  induction fields as [|[k t] fields IH]; [reflexivity|].
  cbn [form_result Dict.keys map fst]. f_equal. exact IH.
Qed.

Lemma form_result_get (fields edits : list (string * string)) (k t : string) :
  NoDup (map fst fields) -> In (k, t) fields ->
  Dict.get (form_result fields edits) k = Some (field_text edits k (PStr t)).
Proof.
  induction fields as [|[k' t'] fields IH]; intros Hnd Hin; [destruct Hin|].
  cbn [form_result Dict.get]. cbn [map fst] in Hnd.
  destruct Hin as [[= -> ->]|Hin].
  - rewrite String.eqb_refl. unfold field_text.
    now destruct (Dict.get edits k).
  - destruct (String.eqb_spec k' k) as [->|_].
    + apply NoDup_cons_iff in Hnd as [Hk _]. destruct Hk.
      now apply (in_map fst _ (k, t)).
    + apply IH; [now apply NoDup_cons_iff in Hnd as [_ Hnd] | exact Hin].
Qed.

Lemma in_get_nodup (V : Type) (d : list (string * V)) (k : string) (v : V) :
  NoDup (Dict.keys d) -> In (k, v) d -> Dict.get d k = Some v.
Proof.
  induction d as [|[k' v'] d IH]; intros Hnd Hin; [destruct Hin|].
  cbn [Dict.keys map fst] in Hnd. cbn [Dict.get].
  destruct Hin as [[= -> ->]|Hin].
  - now rewrite String.eqb_refl.
  - destruct (String.eqb_spec k' k) as [->|_].
    + apply NoDup_cons_iff in Hnd as [Hk _]. destruct Hk.
      now apply (in_map fst _ (k, v)).
    + apply IH; [now apply NoDup_cons_iff in Hnd as [_ Hnd] | exact Hin].
Qed.

Lemma form_result_texts (fields edits : list (string * string)) (k : string)
  (v : pyval) :
  In (k, v) (form_result fields edits) -> exists t, v = PStr t.
Proof.
  induction fields as [|[k' t'] fields IH]; [intros []|].
  cbn [form_result In]. intros [[= _ <-]|Hin]; [eexists; reflexivity|].
  now apply IH.
Qed.

Lemma select_repositories_form (key title text : string) (w : world)
  (use_upstream : pyval) (d shown : dict) (edits : list (string * string))
  (ops : list action) :
  Dict.get (config w) "use_upstream" = Some use_upstream ->
  Dict.get (config w) key = Some (PDict d) ->
  repositories_shown use_upstream d = Some shown ->
  (forall k, In k (Dict.keys shown) -> Dict.mem repositories k = true) ->
  (forall k v, In (k, v) shown -> exists t, v = PStr t) ->
  NoDup (Dict.keys shown) ->
  operator w = OkForm edits :: ops ->
  exists names w',
    select_repositories key title text w = Done true w'
    /\ config w' = Dict.set (config w) key (PDict names)
    /\ Dict.keys names = Dict.keys shown
    /\ (forall k v, In (k, v) shown ->
                    Dict.get names k = Some (field_text edits k v))
    /\ (forall k v, In (k, v) names -> exists t, v = PStr t)
    /\ operator w' = ops
    /\ environ w' = environ w /\ shell w' = shell w /\ files w' = files w.
Proof.
  intros Hup Hrepos Hshown Hstages Hnames Hkeys Hop.
  destruct (repository_labels_keys shown Hstages) as (values & Ev & Hvk).
  destruct (@text_fields_keys shown values) as (fields & Ef & Hfk & Hf).
  { rewrite Hvk. intros k Hk. apply in_keys_get in Hk as (v & Hv).
    destruct (Hnames k v) as (t & ->); [|now exists t].
    clear - Hv. induction shown as [|[k' v'] shown IH]; [discriminate|].
    cbn [Dict.get] in Hv. destruct (String.eqb_spec k' k) as [->|_].
    - injection Hv as ->. now left.
    - right. now apply IH. }
  exists (form_result fields edits).
  assert (Hrun : forall w0,
             config w0 = Dict.set (config w) key (PDict shown)
             \/ (config w0 = config w /\ shown = d) ->
             operator w0 = OkForm edits :: ops ->
             exists w',
               (repos <- config_get key ;;
                match repos with
                | PDict d =>
                    match repository_labels d with
                    | inl e => raise e
                    | inr values =>
                        r <- multi_input_dialog key title text values d ;;
                        let (got_choice, choice) := r : bool * pyval in
                        if got_choice then config_set key choice ;;; ret true
                        else ret false
                    end
                | _ => raise (AttributeError "items")
                end) w0 = Done true w'
               /\ config w'
                  = Dict.set (config w) key (PDict (form_result fields edits))
               /\ operator w' = ops
               /\ environ w' = environ w0 /\ shell w' = shell w0
               /\ files w' = files w0).
  { intros w0 Hc0 Hop0.
    assert (Hget : Dict.get (config w0) key = Some (PDict shown)).
    { destruct Hc0 as [-> | [-> ->]]; [apply get_set_same | exact Hrepos]. }
    rewrite (@bind_done _ _ _ _ _ _ _ (config_get_eq _ _ Hget)).
    rewrite Ev. unfold multi_input_dialog. rewrite Ef.
    unfold bind at 1, turns at 1. rewrite Hop0.
    cbn [List.length multi_input_dialog_loop].
    rewrite (@bind_done _ _ _ _ _ _ _ (run_app_eq _ _ Hop0)).
    unfold ret at 1. eexists. split; [reflexivity|].
    cbn [config with_config with_operator with_log].
    split; [|repeat split].
    destruct Hc0 as [-> | [-> _]]; [apply set_set | reflexivity]. }
  assert (Hfield : forall k v, In (k, v) shown ->
                     Dict.get (form_result fields edits) k
                     = Some (field_text edits k v)).
  { intros k v Hin. destruct (Hnames k v Hin) as (t & ->).
    apply form_result_get; [now rewrite Hfk, Hvk|].
    assert (Hk : In k (map fst fields)).
    { rewrite Hfk, Hvk. now apply (in_map fst _ (k, PStr t)). }
    apply in_map_iff in Hk as ([k' t'] & Hk' & Hin'). cbn [fst] in Hk'.
    subst k'. pose proof (Hf k t' Hin') as Hg.
    rewrite (@in_get_nodup _ shown k (PStr t) Hkeys Hin) in Hg.
    now injection Hg as ->. }
  unfold select_repositories.
  rewrite (@bind_done _ _ _ _ _ _ _ (config_get_eq _ _ Hup)).
  unfold repositories_shown in Hshown.
  destruct (truthy use_upstream).
  - destruct (Dict.pop d "modules") as [[m d']|] eqn:Ep; [|discriminate].
    injection Hshown as <-.
    assert (Hpop : (repos <- config_get key ;;
                    match repos with
                    | PDict d =>
                        match Dict.pop d "modules" with
                        | Some (_, d') => config_set key (PDict d')
                        | None => raise (KeyError "modules")
                        end
                    | _ => raise (AttributeError "pop")
                    end) w
                   = Done tt (with_config (fun c => Dict.set c key (PDict d')) w)).
    { rewrite (@bind_done _ _ _ _ _ _ _ (config_get_eq _ _ Hrepos)).
      now rewrite Ep. }
    rewrite (@bind_done _ _ _ _ _ _ _ Hpop).
    destruct (Hrun (with_config (fun c => Dict.set c key (PDict d')) w))
      as (w' & Hw' & Hc' & Ho' & He' & Hs' & Hf'); [now left | exact Hop|].
    exists w'. split; [exact Hw'|]. split; [exact Hc'|].
    split; [now rewrite form_result_keys, Hfk, Hvk|].
    split; [exact Hfield|]. split; [apply form_result_texts|].
    repeat split; assumption.
  - injection Hshown as <-.
    rewrite (@bind_done _ _ _ _ _ _ _
               (eq_refl : ret tt w = Done tt w)).
    destruct (Hrun w) as (w' & Hw' & Hc' & Ho' & He' & Hs' & Hf');
      [now right | exact Hop|].
    exists w'. split; [exact Hw'|]. split; [exact Hc'|].
    split; [now rewrite form_result_keys, Hfk, Hvk|].
    split; [exact Hfield|]. split; [apply form_result_texts|].
    repeat split; assumption.
Qed.

(** X21.  When Ok is pressed on the form of the repositories, the
    configuration gets one name for each repository the form has shown, in
    the same order: the text entered for it, or the name it had when its
    field was not touched.  The names are not looked at: a name may be
    empty or the name of another repository; and what the operator is said
    to have entered for a stage the form does not show is dropped. *)
Theorem select_repositories_keeps_stages (key title text : string) (w : world)
  (use_upstream : pyval) (d shown : dict) (edits : list (string * string))
  (ops : list action)
  (Hup : Dict.get (config w) "use_upstream" = Some use_upstream)
  (Hrepos : Dict.get (config w) key = Some (PDict d))
  (Hshown : repositories_shown use_upstream d = Some shown)
  (Hstages : forall k, In k (Dict.keys shown) ->
                       Dict.mem repositories k = true)
  (Hnames : forall k v, In (k, v) shown -> exists t, v = PStr t)
  (Hkeys : NoDup (Dict.keys shown))
  (Hop : operator w = OkForm edits :: ops) :
  exists names w',
    select_repositories key title text w = Done true w'
    /\ config w' = Dict.set (config w) key (PDict names)
    /\ Dict.keys names = Dict.keys shown
    /\ forall k v, In (k, v) shown ->
                   Dict.get names k = Some (field_text edits k v).
Proof.
  destruct (@select_repositories_form key title text w use_upstream d shown
              edits ops Hup Hrepos Hshown Hstages Hnames Hkeys Hop)
    as (names & w' & H1 & H2 & H3 & H4 & _).
  exists names, w'. repeat split; assumption.
Qed.

Lemma select_repositories_keeps_stages_witness :
  exists names w',
    select_github_repositories
      (mkWorld []
         [("use_upstream", PBool true);
          ("github_repositories",
           PDict [("modules", PStr "modules"); ("bootstrap", PStr "bootstrap");
                  ("cicd", PStr "cicd")])]
         [OkForm [("cicd", ""); ("modules", "fabric")]] [] "" [] [] [])
    = Done true w'
    /\ config w'
       = [("use_upstream", PBool true); ("github_repositories", PDict names)]
    /\ Dict.keys names = ["bootstrap"; "cicd"]
    /\ Dict.get names "cicd" = Some (PStr "").
Proof.
  destruct (@select_repositories_keeps_stages "github_repositories"
              "GitHub repositories"
              "Customize GitHub repository names. You can leave any empty if you don't want a repository for that stage."
              (mkWorld []
                 [("use_upstream", PBool true);
                  ("github_repositories",
                   PDict [("modules", PStr "modules");
                          ("bootstrap", PStr "bootstrap");
                          ("cicd", PStr "cicd")])]
                 [OkForm [("cicd", ""); ("modules", "fabric")]] [] "" [] [] [])
              (PBool true)
              [("modules", PStr "modules"); ("bootstrap", PStr "bootstrap");
               ("cicd", PStr "cicd")]
              [("bootstrap", PStr "bootstrap"); ("cicd", PStr "cicd")]
              [("cicd", ""); ("modules", "fabric")] [])
    as (names & w' & H1 & H2 & H3 & H4);
    [reflexivity | reflexivity | reflexivity
    | intros k [<-|[<-|[]]]; reflexivity
    | intros k v [[= <- <-]|[[= <- <-]|[]]]; eexists; reflexivity
    | repeat constructor; cbn; intuition discriminate
    | reflexivity |].
  exists names, w'. split; [exact H1|]. split; [exact H2|].
  split; [exact H3|].
  exact (H4 "cicd" (PStr "cicd") (or_intror (or_introl eq_refl))).
Defined.

(** ** A repository renamed in the form *)

Lemma get_in_pair (V : Type) (d : list (string * V)) (k : string) (v : V) :
  Dict.get d k = Some v -> In (k, v) d.
Proof.
  induction d as [|[k' v'] d IH]; [discriminate|]. cbn [Dict.get].
  destruct (String.eqb_spec k' k) as [->|_].
  - intros [= ->]. now left.
  - intros H. right. now apply IH.
Qed.

Lemma first_unknown_text (names : dict) (k name : string) :
  (forall k v, In (k, v) names -> exists t, v = PStr t) ->
  In (k, PStr name) names ->
  Dict.get repositories name = None ->
  exists unknown,
    first_unknown names = Some (KeyError unknown)
    /\ Dict.get repositories unknown = None.
Proof.
  intros Htexts Hin Hname. induction names as [|[k' v'] names IH];
    [destruct Hin|].
  destruct (Htexts k' v' (or_introl eq_refl)) as (t' & ->).
  cbn [first_unknown repository_description].
  destruct (Dict.get repositories t') as [description|] eqn:Et.
  - apply IH.
    + intros k0 v0 H0. apply (Htexts k0 v0). now right.
    + destruct Hin as [[= _ ->]|Hin]; [congruence | exact Hin].
  - now exists t'.
Qed.

(** X22.  Giving a repository a name of one's own makes the GitLab wizard
    fail at its last step.  When Ok is pressed on the form of the
    repositories with the name of a stage changed to a text that is not
    the key of a stage, the step stores the name and the wizard goes on;
    the last step then raises [KeyError] on a name that is not the key of
    a stage, whatever path is entered there, and leaves the CI/CD
    configuration file empty. *)
Theorem renamed_repository_fails_final_step (outputs_path account : string)
  (w : world) (use_upstream : pyval) (d shown : dict)
  (edits : list (string * string)) (ops : list action)
  (stage name typed : string)
  (Hcicd : Dict.get (config w) "cicd" = Some (PStr "gitlab-com"))
  (Hgroup : Dict.mem (config w) "gitlab_group" = true)
  (Hcreate : Dict.mem (config w) "gitlab_group_create" = true)
  (Hup : Dict.get (config w) "use_upstream" = Some use_upstream)
  (Hrepos : Dict.get (config w) "gitlab_repositories" = Some (PDict d))
  (Hshown : repositories_shown use_upstream d = Some shown)
  (Hstages : forall k, In k (Dict.keys shown) ->
                       Dict.mem repositories k = true)
  (Hnames : forall k v, In (k, v) shown -> exists t, v = PStr t)
  (Hkeys : NoDup (Dict.keys shown))
  (Hstage : In stage (Dict.keys shown))
  (Hedit : Dict.get edits stage = Some name)
  (Hname : Dict.get repositories name = None)
  (Htyped : typed <> "")
  (Hop : operator w = OkForm edits :: Ok typed :: ops) :
  exists w1 w2 unknown,
    wizard_turn FastGitlabConfigurator_setup_wizard
      (FastGitlabConfigurator_select
         (FastCicdSystemConfigurator_select_final_config outputs_path account))
      4 w = Done 5 w1
    /\ wizard_turn FastGitlabConfigurator_setup_wizard
         (FastGitlabConfigurator_select
            (FastCicdSystemConfigurator_select_final_config outputs_path account))
         5 w1 = Raised (KeyError unknown) w2
    /\ Dict.get repositories unknown = None
    /\ Dict.get (files w2) "stages/00-cicd/terraform.tfvars" = Some "".
Proof.
  destruct (@select_repositories_form "gitlab_repositories"
              "Gitlab repositories"
              "Customize Gitlab repository names. You can leave any empty if you don't want a repository for that stage."
              w use_upstream d shown edits (Ok typed :: ops)
              Hup Hrepos Hshown Hstages Hnames Hkeys Hop)
    as (names & w1 & Hstep & Hconfig & _ & Hfield & Htexts & Hop1 & _).
  assert (Hin : In (stage, PStr name) names).
  { apply in_keys_get in Hstage as (v & Hv). apply get_in_pair in Hv.
    apply get_in_pair. rewrite (Hfield stage v Hv). unfold field_text.
    now rewrite Hedit. }
  destruct (@first_unknown_text names stage name Htexts Hin Hname)
    as (unknown & Hunknown & Hnot).
  set (shown_path := "stages/00-cicd/terraform.tfvars").
  set (w1a := with_config
                (fun c => Dict.set c "cicd_output_path" (PStr shown_path))
                (with_operator ops
                   (with_log
                      (Show
                         (InputDialog "final_config"
                            "CI/CD Terraform configuration"
                            "Write the CI/CD stage Terraform configuration to the following file:"
                            shown_path false)) w1))).
  assert (Hc1a : config w1a
                 = Dict.set
                     (Dict.set (config w) "gitlab_repositories" (PDict names))
                     "cicd_output_path" (PStr shown_path)).
  { unfold w1a. cbn [config with_config with_operator with_log].
    now rewrite Hconfig. }
  destruct (@write_cicd_config_gitlab_com outputs_path shown_path w1a names
              (KeyError unknown))
    as (w2 & Hraise & Hfile & _).
  { rewrite Hc1a, !get_set_other by discriminate. exact Hcicd. }
  { unfold Dict.mem in *. rewrite Hc1a, !get_set_other by discriminate.
    exact Hgroup. }
  { unfold Dict.mem in *. rewrite Hc1a, !get_set_other by discriminate.
    exact Hcreate. }
  { rewrite Hc1a, get_set_other by discriminate. apply get_set_same. }
  { exact Hunknown. }
  exists w1, w2, unknown. split; [|split; [|split]].
  - exact (@wizard_turn_eq FastGitlabConfigurator_setup_wizard _ 4
             "gitlab_repositories" w w1 true eq_refl Hstep).
  - unfold wizard_turn.
    change (py_index FastGitlabConfigurator_setup_wizard 5)
      with (Some "final_config").
    apply bind_raised.
    change (FastGitlabConfigurator_select
              (FastCicdSystemConfigurator_select_final_config outputs_path account)
              "final_config")
      with (FastCicdSystemConfigurator_select_final_config outputs_path account).
    unfold FastCicdSystemConfigurator_select_final_config.
    rewrite (@bind_done _ _ _ _ _ _ _ (input_dialog_ok _ _ _ _ _ _ Hop1)).
    rewrite (truthy_text Htyped).
    rewrite (@bind_done _ _ _ _ _ _ _
               (eq_refl : config_set "cicd_output_path" (PStr shown_path) _
                          = Done tt w1a)).
    apply bind_raised. exact Hraise.
  - exact Hnot.
  - exact Hfile.
Qed.

Lemma renamed_repository_fails_final_step_witness :
  exists w1 w2 unknown,
    wizard_turn FastGitlabConfigurator_setup_wizard
      (FastGitlabConfigurator_select
         (FastCicdSystemConfigurator_select_final_config "/work/outputs"
            "admin@example.com"))
      4 (mkWorld [("GITLAB_TOKEN", "glpat-1")]
           (FastGitlabConfigurator_init
              [("cicd", PStr "gitlab-com"); ("gitlab_group", PStr "acme");
               ("use_upstream", PBool false)])
           [OkForm [("bootstrap", "acme-bootstrap")];
            Ok "stages/00-cicd/terraform.tfvars"]
           [] "" [] [] [])
    = Done 5 w1
    /\ wizard_turn FastGitlabConfigurator_setup_wizard
         (FastGitlabConfigurator_select
            (FastCicdSystemConfigurator_select_final_config "/work/outputs"
               "admin@example.com"))
         5 w1 = Raised (KeyError unknown) w2
    /\ Dict.get repositories unknown = None.
Proof.
  destruct (@renamed_repository_fails_final_step "/work/outputs"
              "admin@example.com"
              (mkWorld [("GITLAB_TOKEN", "glpat-1")]
                 (FastGitlabConfigurator_init
                    [("cicd", PStr "gitlab-com"); ("gitlab_group", PStr "acme");
                     ("use_upstream", PBool false)])
                 [OkForm [("bootstrap", "acme-bootstrap")];
                  Ok "stages/00-cicd/terraform.tfvars"]
                 [] "" [] [] [])
              (PBool false)
              (map (fun kv => (fst kv, PStr (fst kv))) repositories)
              (map (fun kv => (fst kv, PStr (fst kv))) repositories)
              [("bootstrap", "acme-bootstrap")] []
              "bootstrap" "acme-bootstrap" "stages/00-cicd/terraform.tfvars")
    as (w1 & w2 & unknown & H1 & H2 & H3 & _).
  - reflexivity.
  - reflexivity.
  - reflexivity.
  - reflexivity.
  - reflexivity.
  - reflexivity.
  - intros k Hk. cbn in Hk.
    repeat (destruct Hk as [<-|Hk]; [reflexivity|]). destruct Hk.
  - intros k v Hin. cbn in Hin.
    repeat (destruct Hin as [[= <- <-]|Hin]; [eexists; reflexivity|]).
    destruct Hin.
  - apply nodup_keys_dec. reflexivity.
  - cbn. tauto.
  - reflexivity.
  - reflexivity.
  - discriminate.
  - reflexivity.
  - exists w1, w2, unknown. repeat split; assumption.
Defined.
